(** * Speech2Code: the documentation build of the spoken modules

    A shallow embedding of [spoken/src/build/build-docs.js]: the script
    that walks the modules and their commands, stores the example phrases
    of every automaton, writes the command and module READMEs and mounts
    the commands of a module into the module automaton ([buildGraph]).

    JavaScript strings are sequences of UTF-16 code units, modelled as
    [list N]; files hold decoded text; the file system is a finite map
    from paths to contents; effects (file reads and writes, the console,
    the image renderer) are threaded through a state-and-exception monad
    whose state survives a throw. *)

From Stdlib Require Import NArith ZArith Lia List Bool Ascii String Decimal DecimalNat.
From stdpp Require Import base option list gmap.

Local Open Scope N_scope.

(** ** JavaScript strings *)

Definition jsstring : Type := list N.

(** A string literal of the source that is plain ASCII. *)
Definition js (s : string) : jsstring :=
  List.map N_of_ascii (list_ascii_of_string s).

Arguments js : simpl never.

Definition LF : N := 10.
Definition SLASH : N := 47.

(** [WhiteSpace] and [LineTerminator] of ECMAScript: what
    [String.prototype.trim] removes. *)
Definition isWhiteSpace (c : N) : bool :=
  (c =? 9) || (c =? 10) || (c =? 11) || (c =? 12) || (c =? 13) || (c =? 32)
  || (c =? 160) || (c =? 5760) || ((8192 <=? c) && (c <=? 8202))
  || (c =? 8232) || (c =? 8233) || (c =? 8239) || (c =? 8287)
  || (c =? 12288) || (c =? 65279).

Fixpoint trimStart (s : jsstring) : jsstring :=
  match s with
  | [] => []
  | c :: s' => if isWhiteSpace c then trimStart s' else s
  end.

Definition trimEnd (s : jsstring) : jsstring := rev (trimStart (rev s)).

(** [s.trim()] *)
Definition trim (s : jsstring) : jsstring := trimEnd (trimStart s).

(** [s.startsWith(p)] *)
Fixpoint startsWith (s p : jsstring) : bool :=
  match p, s with
  | [], _ => true
  | _ :: _, [] => false
  | x :: p', c :: s' => (c =? x) && startsWith s' p'
  end.

(** [s.endsWith(p)] *)
Definition endsWith (s p : jsstring) : bool := startsWith (rev s) (rev p).

(** [s.split(sep)] for a separator of one code unit: never empty. *)
Fixpoint split (sep : N) (s : jsstring) : list jsstring :=
  match s with
  | [] => [[]]
  | c :: s' =>
      if c =? sep then [] :: split sep s'
      else match split sep s' with
           | [] => [[c]]
           | l :: ls => (c :: l) :: ls
           end
  end.

(** [a.join(sep)]: an element that is [undefined] contributes the empty
    string, so array elements are [option jsstring]. *)
Definition joinElem (x : option jsstring) : jsstring :=
  match x with Some s => s | None => [] end.

Fixpoint join (sep : jsstring) (a : list (option jsstring)) : jsstring :=
  match a with
  | [] => []
  | [x] => joinElem x
  | x :: a' => joinElem x ++ sep ++ join sep a'
  end.

(** [a.join(sep)] on an array that holds strings only. *)
Definition joinStrings (sep : jsstring) (a : list jsstring) : jsstring :=
  join sep (List.map Some a).

(** ['...' + v] and [`${v}`]: string conversion of a value that is a
    string or [undefined]. *)
Definition toStr (v : option jsstring) : jsstring :=
  match v with Some s => s | None => js "undefined" end.

(** Decimal digits of a non-negative integer, as [Number.prototype.toString]
    prints them. *)
Fixpoint digits (d : Decimal.uint) : jsstring :=
  match d with
  | Decimal.Nil => []
  | Decimal.D0 d' => 48 :: digits d'
  | Decimal.D1 d' => 49 :: digits d'
  | Decimal.D2 d' => 50 :: digits d'
  | Decimal.D3 d' => 51 :: digits d'
  | Decimal.D4 d' => 52 :: digits d'
  | Decimal.D5 d' => 53 :: digits d'
  | Decimal.D6 d' => 54 :: digits d'
  | Decimal.D7 d' => 55 :: digits d'
  | Decimal.D8 d' => 56 :: digits d'
  | Decimal.D9 d' => 57 :: digits d'
  end.

Definition numToString (n : nat) : jsstring := digits (Nat.to_uint n).

(** ** JavaScript arrays *)

(** [a.findIndex(p)]: the first index whose element satisfies [p], or -1. *)
Fixpoint findIndexFrom {A} (p : A -> bool) (a : list A) (i : Z) : Z :=
  match a with
  | [] => (-1)%Z
  | x :: a' => if p x then i else findIndexFrom p a' (i + 1)%Z
  end.

Definition findIndex {A} (p : A -> bool) (a : list A) : Z :=
  findIndexFrom p a 0%Z.

(** [a.find(p)] *)
Fixpoint find {A} (p : A -> bool) (a : list A) : option A :=
  match a with
  | [] => None
  | x :: a' => if p x then Some x else find p a'
  end.

(** A relative index of [slice], clamped to the array. *)
Definition clampIndex (len i : Z) : Z :=
  if (i <? 0)%Z then Z.max (len + i) 0 else Z.min i len.

(** [a.slice(start, end)] *)
Definition slice {A} (a : list A) (start end_ : Z) : list A :=
  let len := Z.of_nat (length a) in
  let k := clampIndex len start in
  let final := clampIndex len end_ in
  take (Z.to_nat (final - k)) (drop (Z.to_nat k) a).

(** [a.slice(start)] *)
Definition sliceFrom {A} (a : list A) (start : Z) : list A :=
  slice a start (Z.of_nat (length a)).

(** [s.substr(start, length)] *)
Definition substr (s : jsstring) (start length_ : Z) : jsstring :=
  let size := Z.of_nat (length s) in
  let k := if (start <? 0)%Z then Z.max (size + start) 0 else Z.min start size in
  let n := Z.min (Z.max length_ 0) (size - k) in
  take (Z.to_nat n) (drop (Z.to_nat k) s).

(** [s.replace(/.dot/gi, '.png')]: every match, left to right, of one
    code unit that is no line terminator followed by [dot] in either
    case. *)
Definition isLineTerminator (c : N) : bool :=
  (c =? 10) || (c =? 13) || (c =? 8232) || (c =? 8233).

Definition eqIgnoreCase (c lower upper : N) : bool := (c =? lower) || (c =? upper).

Fixpoint replaceDotByPng (s : jsstring) : jsstring :=
  match s with
  | [] => []
  | c0 :: tl =>
      match tl with
      | c1 :: c2 :: c3 :: rest =>
          if negb (isLineTerminator c0) && eqIgnoreCase c1 100 68
             && eqIgnoreCase c2 111 79 && eqIgnoreCase c3 116 84
          then js ".png" ++ replaceDotByPng rest
          else c0 :: replaceDotByPng tl
      | _ => s
      end
  end.

(** ** The world: files, console and renderer calls *)

Inductive Error : Type :=
  | TypeError                      (* a property of undefined, a call of a non-function *)
  | FileNotFound (path : jsstring) (* fs.readFileSync on a missing file *)
  | GraphLoadError                 (* dot.read refuses the text *)
  | EnumerationError               (* the phrase enumerator fails *)
  | RenderError                    (* the image renderer fails *)
  | ParseError                     (* JSON.parse refuses the text *)
  | ListError.                     (* a directory cannot be listed *)

Inductive Outcome (A : Type) : Type :=
  | Ok (a : A)
  | Throw (e : Error).
Arguments Ok {A} a.
Arguments Throw {A} e.

Inductive Event : Type :=
  | ReadFile (path : jsstring)
  | WriteFile (path content : jsstring)
  | Warn (message : jsstring)
  | Render (source image : jsstring).

Record World : Type := mkWorld {
  files : gmap jsstring jsstring;
  log : list Event
}.

Definition record (ev : Event) (w : World) : World :=
  mkWorld (files w) (log w ++ [ev]).

(** A computation reads and changes the world and returns or throws; the
    world reached at a throw is kept. *)
Definition M (A : Type) : Type := World -> Outcome A * World.

Definition ret {A} (a : A) : M A := fun w => (Ok a, w).

Definition throw {A} (e : Error) : M A := fun w => (Throw e, w).

Definition bind {A B} (c : M A) (k : A -> M B) : M B :=
  fun w =>
    match c w with
    | (Ok a, w') => k a w'
    | (Throw e, w') => (Throw e, w')
    end.

Definition lift {A} (o : Outcome A) : M A := fun w => (o, w).

Declare Scope js_scope.
Delimit Scope js_scope with js.
Notation "x <- c ;; k" := (bind c (fun x => k))
  (at level 100, c at next level, right associativity) : js_scope.
Notation "c ;;; k" := (bind c (fun _ => k))
  (at level 100, right associativity) : js_scope.
Local Open Scope js_scope.

(** [for (const x of a) { ... }] where the body updates [x]: the elements
    in order, stopping at the first throw. *)
Fixpoint forOf {A B} (body : A -> M B) (a : list A) : M (list B) :=
  match a with
  | [] => ret []
  | x :: a' =>
      y <- body x ;;
      ys <- forOf body a' ;;
      ret (y :: ys)
  end.

(** The same for a body that cannot touch the world. *)
Fixpoint mapOutcome {A B} (f : A -> Outcome B) (a : list A) : Outcome (list B) :=
  match a with
  | [] => Ok []
  | x :: a' =>
      match f x with
      | Throw e => Throw e
      | Ok y =>
          match mapOutcome f a' with
          | Throw e => Throw e
          | Ok ys => Ok (y :: ys)
          end
      end
  end.

(** [fs.readFileSync(path, 'utf-8')] *)
Definition readFileSync (path : jsstring) : M jsstring :=
  fun w =>
    let w' := record (ReadFile path) w in
    match files w !! path with
    | Some content => (Ok content, w')
    | None => (Throw (FileNotFound path), w')
    end.

(** [fs.writeFileSync(path, content)]; the write itself is taken to
    succeed. *)
Definition writeFileSync (path content : jsstring) : M unit :=
  fun w => (Ok tt, mkWorld (<[path := content]> (files w)) (log w ++ [WriteFile path content])).

(** [console.warn(message)] *)
Definition console_warn (message : jsstring) : M unit :=
  fun w => (Ok tt, record (Warn message) w).

(** ** The objects of the build *)

(** An entry of [Command.automatas]. [path], [image] and
    [relativeImagePath] are set by the constructor; the other fields are
    [undefined] until [main] assigns them. *)
Record Automata : Type := mkAutomata {
  aut_path : jsstring;
  aut_image : jsstring;
  aut_relativeImagePath : jsstring;
  aut_phrases : option (list jsstring);
  aut_title : option jsstring;
  aut_desc : option jsstring;
  aut_langName : option jsstring;
  aut_lang : option jsstring
}.

Record Command : Type := mkCommand {
  cmd_name : jsstring;
  cmd_root : jsstring;
  cmd_readme : jsstring;
  cmd_code : jsstring;
  cmd_automatas : list Automata
}.

Record SpokenModule : Type := mkSpokenModule {
  mod_name : jsstring;
  mod_root : jsstring;
  mod_readme : jsstring;
  mod_image : jsstring;
  mod_relativeImagePath : jsstring;
  mod_automata : jsstring;
  mod_commands : list Command
}.

Definition setAutomatas (c : Command) (ats : list Automata) : Command :=
  mkCommand (cmd_name c) (cmd_root c) (cmd_readme c) (cmd_code c) ats.

Definition setCommands (m : SpokenModule) (cs : list Command) : SpokenModule :=
  mkSpokenModule (mod_name m) (mod_root m) (mod_readme m) (mod_image m)
    (mod_relativeImagePath m) (mod_automata m) cs.

Definition setRelativeImagePath (a : Automata) (p : jsstring) : Automata :=
  mkAutomata (aut_path a) (aut_image a) p (aut_phrases a) (aut_title a)
    (aut_desc a) (aut_langName a) (aut_lang a).

(** ** The localized sentences ([i18n]) *)

Record Sentences : Type := mkSentences {
  i18n_automata : jsstring -> jsstring;
  i18n_phrases : jsstring -> jsstring
}.

Definition BACKTICK : jsstring := [96].

Definition en_US : Sentences := {|
  i18n_automata := fun cName =>
    js "The following automata is responsible for recognizing the command "
    ++ BACKTICK ++ cName ++ BACKTICK ++ js " in english:";
  i18n_phrases := fun cName =>
    js "The following are some examples of phrases, in english, used to trigger the command "
    ++ BACKTICK ++ cName ++ BACKTICK ++ js ":"
|}.

(** The Portuguese sentences hold U+00E9, U+00E1 and U+00EA. *)
Definition pt_BR : Sentences := {|
  i18n_automata := fun cName =>
    js "O automata seguinte " ++ [233] ++ js " repons" ++ [225]
    ++ js "vel por reconhecer o comando "
    ++ BACKTICK ++ cName ++ BACKTICK ++ js " em portugu" ++ [234] ++ js "s:";
  i18n_phrases := fun cName =>
    js "Os seguintes exemplos de frases, em portugu" ++ [234]
    ++ js "s, podem ser usadas para ativar o comando "
    ++ BACKTICK ++ cName ++ BACKTICK ++ js ":"
|}.

Definition jsstring_eqb (s t : jsstring) : bool := bool_decide (s = t).

(** [i18n[lang]] as far as its members can be called: the two own keys.
    Any other key, [undefined] included, reads [undefined] or a member of
    [Object.prototype], neither of which has [automata] or [phrases], so
    the calls [i18n[lang].automata(...)] and [i18n[lang].phrases(...)]
    throw a TypeError. *)
Definition i18n (lang : option jsstring) : Outcome Sentences :=
  match lang with
  | Some l =>
      if jsstring_eqb l (js "en-US") then Ok en_US
      else if jsstring_eqb l (js "pt-BR") then Ok pt_BR
      else Throw TypeError
  | None => Throw TypeError
  end.

(** ** Command *)

(** [(index + 1) + '. ' + item] *)
Definition numbered (index : nat) (item : jsstring) : jsstring :=
  numToString (index + 1) ++ js ". " ++ item.

(** The body of the loop of [buildLangSection]: the five pushes for one
    automaton, onto [text]. *)
Definition pushLangSection (text : list (option jsstring)) (automata : Automata)
  : Outcome (list (option jsstring)) :=
  let text := text ++ [Some (js "#### " ++ toStr (aut_langName automata))] in
  match i18n (aut_lang automata) with
  | Throw e => Throw e
  | Ok sentences =>
      let text := text ++ [Some (i18n_automata sentences (toStr (aut_title automata)))] in
      let text := text ++ [Some (js "![" ++ toStr (aut_langName automata) ++ js "]("
                                 ++ aut_relativeImagePath automata ++ js ")")] in
      let text := text ++ [Some (i18n_phrases sentences (toStr (aut_title automata)))] in
      match aut_phrases automata with
      | None => Throw TypeError
      | Some phrases =>
          Ok (text ++ [Some (joinStrings [LF] (imap numbered phrases))])
      end
  end.

Fixpoint langSectionLoop (text : list (option jsstring)) (automatas : list Automata)
  : Outcome (list (option jsstring)) :=
  match automatas with
  | [] => Ok text
  | automata :: rest =>
      match pushLangSection text automata with
      | Throw e => Throw e
      | Ok text' => langSectionLoop text' rest
      end
  end.

Definition PARAGRAPH : jsstring := [LF; LF].

Definition Command_buildLangSection (this : Command) : Outcome jsstring :=
  match langSectionLoop [] (cmd_automatas this) with
  | Throw e => Throw e
  | Ok text => Ok (join PARAGRAPH text)
  end.

Definition isEnUS (item : Automata) : bool :=
  match aut_lang item with
  | Some l => jsstring_eqb l (js "en-US")
  | None => false
  end.

Definition Command_buildReadme (this : Command) : Outcome jsstring :=
  match find isEnUS (cmd_automatas this) with
  | None => Throw TypeError     (* autom.title on undefined *)
  | Some autom =>
      let text := [Some (js "## " ++ toStr (aut_title autom))] in
      let text := text ++ [aut_desc autom] in
      let text := text ++ [Some (js "### Languages")] in
      let text := text ++ [Some (js "This command is available in the following languages")] in
      match Command_buildLangSection this with
      | Throw e => Throw e
      | Ok section =>
          let text := text ++ [Some section] in
          let text := text ++ [Some (js "### Implementation")] in
          let text := text ++ [Some (js "The full implementation of this command can be found on this directory under the file [impl.ts](impl.ts)")] in
          let text := text ++ [Some (js "```typescript" ++ [LF] ++ substr (cmd_code this) 0 300)] in
          let text := text ++ [Some (js "(...)" ++ [LF] ++ js "```")] in
          Ok (join PARAGRAPH text)
      end
  end.

(** ** SpokenModule.buildGraph *)

Definition START_GENERATED : jsstring := js "// START GENERATED".
Definition END_GENERATED : jsstring := js "// END GENERATED".

Definition isBegin (a : jsstring) : bool := startsWith (trim a) START_GENERATED.
Definition isEnd (a : jsstring) : bool := startsWith (trim a) END_GENERATED.

(** [`    0 -> ${(index + 1)} [label="(${item.name})"];`] *)
Definition transitionLine (index : nat) (item : Command) : jsstring :=
  js "    0 -> " ++ numToString (index + 1) ++ js " [label=" ++ [34] ++ js "("
  ++ cmd_name item ++ js ")" ++ [34] ++ js "];".

Definition SpokenModule_buildGraph (this : SpokenModule) : M unit :=
  content <- readFileSync (mod_automata this) ;;
  let lines := split LF content in
  let begin := findIndex isBegin lines in
  let end_ := findIndex isEnd lines in
  if (end_ =? -1)%Z || (begin =? -1)%Z || (begin >? end_)%Z then
    console_warn (js "Could not mount module documentation")
  else
    let newLines := imap transitionLine (mod_commands this) in
    let a := slice lines 0 (begin + 1) in
    let b := sliceFrom lines end_ in
    let c := joinStrings [LF] (a ++ newLines ++ b) in
    writeFileSync (mod_automata this) c.

(** ** The phrase enumerator, the renderer and the pipeline *)

(** Set semantics in discovery order: the first occurrence of every
    phrase is kept. *)
Fixpoint dedupFrom (seen : list jsstring) (l : list jsstring) : list jsstring :=
  match l with
  | [] => []
  | x :: l' =>
      if bool_decide (x ∈ seen) then dedupFrom seen l'
      else x :: dedupFrom (x :: seen) l'
  end.

Definition dedup (l : list jsstring) : list jsstring := dedupFrom [] l.

Inductive ArchiveKind : Type := FILES | FOLDER.

Section Pipeline.

(** [graphlib-dot]: the parsed graph, [dot.read] and the attributes that
    [graph.graph()] returns. *)
Variable Graph : Type.
Variable dot_read : jsstring -> Outcome Graph.
Variable graphAttribute : Graph -> jsstring -> option jsstring.

(** [JSON.parse] of the template file and the object spread
    [{ ...a, ...b }] of two template objects. *)
Variable Templates : Type.
Variable noTemplates : Templates.
Variable spread : Templates -> Templates -> Templates.
Variable JSON_parse : jsstring -> Outcome Templates.

(** [path.resolve] and [__dirname]. *)
Variable path_resolve : list jsstring -> jsstring.
Variable dirname : jsstring.

(** [listArchives] of build-utils: the entries of a directory of the
    given kind that pass the filter, when there is one. *)
Variable listArchives :
  ArchiveKind -> World -> jsstring -> option (jsstring -> bool) -> Outcome (list jsstring).

(** The traversal of the phrase enumerator: the candidate phrases of a
    graph in discovery order, or a failure (an unresolved or cyclic
    placeholder). *)
Variable candidatePhrases : Graph -> Templates -> Outcome (list jsstring).

(** The external graph renderer: the image of a graph description, or
    a failure. *)
Variable renderDot : jsstring -> option jsstring.

(** Modelled from the spec: [allRecognizablePhrases] lives in
    build-utils, which is not among the sources. The candidate phrases
    of the traversal are deduplicated, with set semantics, in the order
    in which they are discovered; the cap of 16 is applied by [main]. *)
Definition allRecognizablePhrases (graph : Graph) (templates : Templates)
  : Outcome (list jsstring) :=
  match candidatePhrases graph templates with
  | Throw e => Throw e
  | Ok candidates => Ok (dedup candidates)
  end.

(** Modelled from the spec: [automataToImage] lives in build-utils,
    which is not among the sources. It hands the graph description at
    [path] to the renderer and stores the image at [image]; a failure of
    the renderer, or a description that cannot be read, is an error. *)
Definition automataToImage (path image : jsstring) : M unit :=
  fun w =>
    let w' := record (Render path image) w in
    match files w !! path with
    | None => (Throw RenderError, w')
    | Some text =>
        match renderDot text with
        | None => (Throw RenderError, w')
        | Some png => (Ok tt, mkWorld (<[image := png]> (files w')) (log w'))
        end
    end.

Definition listFiles (path : jsstring) (filter : option (jsstring -> bool))
  : M (list jsstring) :=
  fun w => (listArchives FILES w path filter, w).

Definition listFolders (path : jsstring) (filter : option (jsstring -> bool))
  : M (list jsstring) :=
  fun w => (listArchives FOLDER w path filter, w).

(** *** Command: the constructor *)

Definition isPhraseFile (a : jsstring) : bool :=
  startsWith a (js "phrase_") && endsWith a (js ".dot").

Definition getCommandAutomatas (root : jsstring) : M (list Automata) :=
  ats <- listFiles root (Some isPhraseFile) ;;
  ret (List.map (fun item =>
         {| aut_path := path_resolve [root; item];
            aut_image := replaceDotByPng (path_resolve [root; item]);
            aut_relativeImagePath := replaceDotByPng item;
            aut_phrases := None; aut_title := None; aut_desc := None;
            aut_langName := None; aut_lang := None |}) ats).

Definition Command_new (name dir : jsstring) : M Command :=
  let root := path_resolve [dir; name] in
  let readme := path_resolve [root; js "README.md"] in
  code <- readFileSync (path_resolve [root; js "impl.ts"]) ;;
  automatas <- getCommandAutomatas root ;;
  ret {| cmd_name := name; cmd_root := root; cmd_readme := readme;
         cmd_code := code; cmd_automatas := automatas |}.

(** *** SpokenModule *)

Definition SpokenModule_new (name : jsstring) : M SpokenModule :=
  let root := path_resolve [dirname; js ".."; js "modules"; name] in
  names <- (fun w => (listArchives FOLDER w root None, w)) ;;
  commands <- forOf (fun name1 => Command_new name1 root) names ;;
  ret {| mod_name := name; mod_root := root;
         mod_readme := path_resolve [root; js "README.md"];
         mod_image := path_resolve [root; name ++ js ".png"];
         mod_relativeImagePath := name ++ js ".png";
         mod_automata := path_resolve [root; name ++ js ".dot"];
         mod_commands := commands |}.

(** The loop of [buildReadme] that prefixes every [relativeImagePath]
    of the commands with the command's name. *)
Definition relocateImages (command : Command) : Command :=
  setAutomatas command
    (List.map (fun automata =>
       setRelativeImagePath automata
         (cmd_name command ++ js "/" ++ aut_relativeImagePath automata))
       (cmd_automatas command)).

(** [buildReadme] of a module returns the Markdown; the commands it has
    updated on the way are returned with it. *)
Definition SpokenModule_buildReadme (this : SpokenModule) : M (jsstring * SpokenModule) :=
  content <- readFileSync (mod_automata this) ;;
  parsed <- lift (dot_read content) ;;
  let graph := graphAttribute parsed in
  let text := [Some (js "# " ++ toStr (graph (js "label")))] in
  let text := text ++ [graph (js "desc")] in
  let text := text ++ [Some (js "![" ++ mod_name this ++ js "](" ++ mod_relativeImagePath this ++ js ")")] in
  let text := text ++ [Some (js "---")] in
  let commands := List.map relocateImages (mod_commands this) in
  readmes <- lift (mapOutcome Command_buildReadme commands) ;;
  let text := text ++ List.map (fun a => Some (a ++ PARAGRAPH ++ js "---")) readmes in
  ret (join PARAGRAPH text, setCommands this commands).

(** *** SpokenModules *)

Record SpokenModules : Type := mkSpokenModules {
  spoken_root : jsstring;
  spoken_modules : list SpokenModule;
  spoken_templates : Templates
}.

Definition SpokenModules_new : M SpokenModules :=
  let root := path_resolve [dirname; js ".."; js "modules"] in
  names <- listFolders root None ;;
  modules <- forOf SpokenModule_new names ;;
  let templates := noTemplates in
  (* addTemplates *)
  content <- readFileSync (path_resolve [root; js "__meta"; js "default-templates.json"]) ;;
  parsed <- lift (JSON_parse content) ;;
  ret {| spoken_root := root; spoken_modules := modules;
         spoken_templates := spread templates parsed |}.

(** *** main *)

(** The body of the innermost loop: one automaton of a command. *)
Definition processAutomata (templates : Templates) (automata : Automata) : M Automata :=
  automataToImage (aut_path automata) (aut_image automata) ;;;
  content <- readFileSync (aut_path automata) ;;
  graph <- lift (dot_read content) ;;
  phrases <- lift (allRecognizablePhrases graph templates) ;;
  ret {| aut_path := aut_path automata;
         aut_image := aut_image automata;
         aut_relativeImagePath := aut_relativeImagePath automata;
         aut_phrases := Some (slice phrases 0 16);
         aut_title := graphAttribute graph (js "title");
         aut_desc := graphAttribute graph (js "desc");
         aut_langName := graphAttribute graph (js "langName");
         aut_lang := graphAttribute graph (js "lang") |}.

(** The body of the loop over the commands of a module. *)
Definition processCommand (templates : Templates) (command : Command) : M Command :=
  automatas <- forOf (processAutomata templates) (cmd_automatas command) ;;
  let command := setAutomatas command automatas in
  readme <- lift (Command_buildReadme command) ;;
  writeFileSync (cmd_readme command) readme ;;;
  ret command.

(** The body of the loop over the modules. *)
Definition processModule (templates : Templates) (moduleA : SpokenModule) : M SpokenModule :=
  commands <- forOf (processCommand templates) (mod_commands moduleA) ;;
  let moduleA := setCommands moduleA commands in
  SpokenModule_buildGraph moduleA ;;;
  automataToImage (mod_automata moduleA) (mod_image moduleA) ;;;
  built <- SpokenModule_buildReadme moduleA ;;
  writeFileSync (mod_readme moduleA) (fst built) ;;;
  ret (snd built).

Definition mainLoop (spoken : SpokenModules) : M (list SpokenModule) :=
  forOf (processModule (spoken_templates spoken)) (spoken_modules spoken).

Definition main : M unit :=
  spoken <- SpokenModules_new ;;
  mainLoop spoken ;;;
  ret tt.

End Pipeline.

(** ** Marker positions *)

(** Index [n] is the first one of [a] whose element satisfies [p]. *)
Definition firstAt {A} (p : A -> bool) (a : list A) (n : nat) : Prop :=
  (exists x, a !! n = Some x /\ p x = true)
  /\ forall j y, (j < n)%nat -> a !! j = Some y -> p y = false.

(** No element of [a] satisfies [p]. *)
Definition absent {A} (p : A -> bool) (a : list A) : Prop :=
  Forall (fun x => p x = false) a.

(** The first index that satisfies [p], if any: [findIndex] without its
    -1 convention. *)
Fixpoint firstIndex {A} (p : A -> bool) (a : list A) : option nat :=
  match a with
  | [] => None
  | x :: a' => if p x then Some 0%nat else S <$> firstIndex p a'
  end.

(** [section] is the localized section of [automata] in a command
    README: the heading with the language name, the sentence that
    introduces the automaton, the image reference, the sentence that
    introduces the phrases, and the phrases numbered from 1 in the order
    of the phrase list. *)
Definition isLangSection (automata : Automata) (section : jsstring) : Prop :=
  exists sentences phrases numberedLines,
    i18n (aut_lang automata) = Ok sentences
    /\ aut_phrases automata = Some phrases
    /\ length numberedLines = length phrases
    /\ (forall i p, phrases !! i = Some p ->
          numberedLines !! i = Some (numToString (i + 1) ++ js ". " ++ p))
    /\ section =
         js "#### " ++ toStr (aut_langName automata) ++ PARAGRAPH
         ++ i18n_automata sentences (toStr (aut_title automata)) ++ PARAGRAPH
         ++ js "![" ++ toStr (aut_langName automata) ++ js "]("
         ++ aut_relativeImagePath automata ++ js ")" ++ PARAGRAPH
         ++ i18n_phrases sentences (toStr (aut_title automata)) ++ PARAGRAPH
         ++ joinStrings [LF] numberedLines.

(** The languages that [i18n] knows. *)
Definition supportedLang (automata : Automata) : Prop :=
  aut_lang automata = Some (js "en-US") \/ aut_lang automata = Some (js "pt-BR").

(** What [Command.buildReadme] needs of the automata of a command. *)
Definition readmePrecondition (this : Command) : Prop :=
  (exists automata, automata ∈ cmd_automatas this
                    /\ aut_lang automata = Some (js "en-US"))
  /\ Forall supportedLang (cmd_automatas this).

(** ** The events of a run, by the unit of work they belong to *)

(** What the loop body of a command does: it renders and reads the
    automata of the command and writes the README of the command. *)
Definition commandEvent (command : Command) (ev : Event) : Prop :=
  (exists automata, automata ∈ cmd_automatas command
     /\ (ev = Render (aut_path automata) (aut_image automata)
         \/ ev = ReadFile (aut_path automata)))
  \/ (exists md, ev = WriteFile (cmd_readme command) md).


(** The steps of a module itself: the composition of its automaton, the
    rendering of its image, its README. *)
Definition moduleEvent (moduleA : SpokenModule) (ev : Event) : Prop :=
  ev = ReadFile (mod_automata moduleA)
  \/ (exists text, ev = WriteFile (mod_automata moduleA) text)
  \/ ev = Warn (js "Could not mount module documentation")
  \/ ev = Render (mod_automata moduleA) (mod_image moduleA)
  \/ (exists md, ev = WriteFile (mod_readme moduleA) md).

(** A computation only appends to the log, and what it appends
    satisfies [P]. *)
Definition emits {A} (P : Event -> Prop) (c : M A) : Prop :=
  forall w, exists l, log (snd (c w)) = log w ++ l /\ Forall P l.

(** ** A small tree of modules to run the build on

    One module, [files], with the commands [create] and [delete]; every
    command has an English and a Portuguese automaton. The parser, the
    enumerator and the renderer are stand-ins: a graph is its own text,
    and a text that does not start with [digraph] is refused. *)

Definition demo_dot_read (content : jsstring) : Outcome jsstring :=
  if startsWith content (js "digraph") then Ok content else Throw GraphLoadError.

(** The attribute [key=value;] of a graph text, up to the semicolon. *)
Fixpoint upTo (stop : N) (s : jsstring) : jsstring :=
  match s with
  | [] => []
  | c :: s' => if c =? stop then [] else c :: upTo stop s'
  end.

Fixpoint valueAfter (key : jsstring) (s : jsstring) : option jsstring :=
  match s with
  | [] => None
  | c :: s' =>
      if startsWith s (key ++ js "=") then Some (upTo 59 (drop (length key + 1) s))
      else valueAfter key s'
  end.

Definition demo_graphAttribute (graph : jsstring) (key : jsstring) : option jsstring :=
  valueAfter (js " " ++ key) graph.

Definition demo_candidatePhrases (graph : jsstring) (templates : unit)
  : Outcome (list jsstring) :=
  match valueAfter (js " say") graph with
  | Some phrase => Ok [phrase; phrase ++ js " now"; phrase; phrase ++ js " please"]
  | None => Ok []
  end.

Definition demo_renderDot (text : jsstring) : option jsstring :=
  match text with [] => None | _ => Some (js "PNG") end.

Definition demo_path_resolve (parts : list jsstring) : jsstring :=
  joinStrings (js "/") parts.

Definition demo_dirname : jsstring := js "/spoken/src/build".

Definition demo_root : jsstring := js "/spoken/src/build/../modules".

Definition demo_listArchives (kind : ArchiveKind) (w : World) (path : jsstring)
    (filter : option (jsstring -> bool)) : Outcome (list jsstring) :=
  let keep names := match filter with Some f => List.filter f names | None => names end in
  match kind with
  | FOLDER =>
      if jsstring_eqb path demo_root then Ok (keep [js "files"])
      else if jsstring_eqb path (demo_root ++ js "/files")
      then Ok (keep [js "create"; js "delete"])
      else Throw ListError
  | FILES =>
      Ok (keep [js "impl.ts"; js "phrase_en-US.dot"; js "phrase_pt-BR.dot"])
  end.

Definition demo_JSON_parse (content : jsstring) : Outcome unit := Ok tt.

Definition demoAutomaton (lang langName title say : string) : jsstring :=
  js "digraph { lang=" ++ js lang ++ js "; langName=" ++ js langName
  ++ js "; title=" ++ js title ++ js "; desc=About " ++ js title
  ++ js "; say=" ++ js say ++ js "; 0 -> 1 }".

Definition demoModuleAutomaton : jsstring :=
  joinStrings [LF]
    [js "digraph { label=Files; desc=Commands on files;";
     js "    // START GENERATED";
     js "    0 -> 7 [label=(stale)];";
     js "    0 -> 8 [label=(older)];";
     js "    // END GENERATED";
     js "}"].

Definition demoFiles : gmap jsstring jsstring :=
  list_to_map
    [(demo_root ++ js "/__meta/default-templates.json", js "{}");
     (demo_root ++ js "/files/files.dot", demoModuleAutomaton);
     (demo_root ++ js "/files/create/impl.ts", js "export default function create() {}");
     (demo_root ++ js "/files/create/phrase_en-US.dot",
        demoAutomaton "en-US" "English" "Create" "create file");
     (demo_root ++ js "/files/create/phrase_pt-BR.dot",
        demoAutomaton "pt-BR" "Portugues" "Criar" "criar arquivo");
     (demo_root ++ js "/files/delete/impl.ts", js "export default function remove() {}");
     (demo_root ++ js "/files/delete/phrase_en-US.dot",
        demoAutomaton "en-US" "English" "Delete" "delete file");
     (demo_root ++ js "/files/delete/phrase_pt-BR.dot",
        demoAutomaton "pt-BR" "Portugues" "Apagar" "apagar arquivo")].

Definition demoWorld : World := mkWorld demoFiles [].

(** The same tree with the English automaton of [create] broken. *)
Definition brokenWorld : World :=
  mkWorld (<[demo_root ++ js "/files/create/phrase_en-US.dot" := js "graph without header"]>
             demoFiles) [].

Definition demo_SpokenModules_new :=
  SpokenModules_new unit tt (fun _ _ => tt) demo_JSON_parse demo_path_resolve
    demo_dirname demo_listArchives.

Definition demo_mainLoop :=
  mainLoop jsstring demo_dot_read demo_graphAttribute unit demo_candidatePhrases
    demo_renderDot.

Definition demo_processCommand :=
  processCommand jsstring demo_dot_read demo_graphAttribute unit demo_candidatePhrases
    demo_renderDot.

Definition demo_main : M unit :=
  main jsstring demo_dot_read demo_graphAttribute unit tt (fun _ _ => tt) demo_JSON_parse
    demo_path_resolve demo_dirname demo_listArchives demo_candidatePhrases demo_renderDot.

(** The objects that the constructors build on that tree. *)
Definition demoSpoken : SpokenModules unit :=
  match fst (demo_SpokenModules_new demoWorld) with
  | Ok spoken => spoken
  | Throw _ => mkSpokenModules unit [] [] tt
  end.

Definition noModule : SpokenModule := mkSpokenModule [] [] [] [] [] [] [].
Definition noCommand : Command := mkCommand [] [] [] [] [].
Definition noAutomata : Automata := mkAutomata [] [] [] None None None None None.

Definition demoModule : SpokenModule := List.hd noModule (spoken_modules unit demoSpoken).
Definition demoCreate : Command := List.nth 0 (mod_commands demoModule) noCommand.
Definition demoDelete : Command := List.nth 1 (mod_commands demoModule) noCommand.

(** The command [create] as the loop body of [main] leaves it, and its
    README. *)
Definition demoCreateDone : Command :=
  match fst (demo_processCommand tt demoCreate demoWorld) with
  | Ok command => command
  | Throw _ => noCommand
  end.

Definition demoCreateReadme : jsstring :=
  match Command_buildReadme demoCreateDone with
  | Ok md => md
  | Throw _ => []
  end.

(** The same tree with a module automaton that has no marker lines. *)
Definition unmarkedWorld : World :=
  mkWorld (<[mod_automata demoModule := js "digraph { label=Files; 0 -> 1 }"]> demoFiles) [].

(** A command whose only automaton is in a language that [i18n] lacks. *)
Definition frenchCommand : Command :=
  mkCommand (js "create") [] [] []
    [mkAutomata [] [] (js "phrase_fr-FR.png") (Some []) (Some (js "Creer")) None
       (Some (js "Francais")) (Some (js "fr-FR"))].

(** ** The footprint of a computation on the files *)

(** The paths that the loop body of a command writes: its README and
    the images of its automata. *)
Definition commandOutputs (command : Command) : list jsstring :=
  cmd_readme command :: List.map aut_image (cmd_automatas command).

(** The paths that the loop body of a module writes. *)
Definition moduleOutputs (moduleA : SpokenModule) : list jsstring :=
  mod_automata moduleA :: mod_image moduleA :: mod_readme moduleA
  :: concat (List.map commandOutputs (mod_commands moduleA)).

Definition buildOutputs (modules : list SpokenModule) : list jsstring :=
  concat (List.map moduleOutputs modules).

(** Every run of a computation takes a world to one that is related to
    it by [R]. *)
Definition respects {A} (R : World -> World -> Prop) (c : M A) : Prop :=
  forall w, R w (snd (c w)).

(** The three relations of interest: no file changes outside [outputs],
    no file is removed, no file changes at all. *)
Definition sameOutside (outputs : list jsstring) (w w' : World) : Prop :=
  forall p, p ∉ outputs -> files w' !! p = files w !! p.

Definition noneRemoved (w w' : World) : Prop :=
  forall p, is_Some (files w !! p) -> is_Some (files w' !! p).

Definition sameFiles (w w' : World) : Prop := files w' = files w.

(** ** Names that the replacement of [.dot] leaves alone *)

(** [s] starts with [dot], in either case. *)
Definition startsDot (s : jsstring) : bool :=
  match s with
  | c1 :: c2 :: c3 :: _ =>
      eqIgnoreCase c1 100 68 && eqIgnoreCase c2 111 79 && eqIgnoreCase c3 116 84
  | _ => false
  end.

(** No [dot], in either case, after the first code unit of [s]: nothing
    for [/.dot/gi] to match. *)
Fixpoint dotFree (s : jsstring) : bool :=
  match s with
  | [] => true
  | _ :: s' => negb (startsDot s') && dotFree s'
  end.

(** ** The check of the Visual Studio Code extension

    [client/dist/editors/vscode/prerequisites.js]: before the editor is
    used, the client checks that [code] runs, looks for the Spoken
    extension among the installed ones and installs it from the
    resources of the application when it is missing. A run of [code] is
    taken from [spawnSync]; what is run and shown is kept in a trace. *)

(** [s.includes(t)] *)
Fixpoint includes (s t : jsstring) : bool :=
  startsWith s t
  || match s with
     | [] => false
     | _ :: s' => includes s' t
     end.

Module Prerequisites.

(** What [spawn.sync] returns: [error] is set or not; [stdout] and
    [stderr] are buffers, or null when the process did not start. *)
Record SpawnResult : Type := mkSpawnResult {
  error : bool;
  stdout : option jsstring;
  stderr : option jsstring
}.

Inductive Thrown : Type :=
  | ErrorMessage (message : jsstring)  (* new Error(message) *)
  | NullToString                       (* TypeError: toString of null *)
  | ReaddirFailed.                     (* fs.readdirSync throws *)

Inductive Action : Type :=
  | Spawn (command : jsstring) (args : list jsstring)
  | ShowMessageBox (type title message : jsstring).

Inductive Result (A : Type) : Type :=
  | Returned (a : A)
  | Failed (e : Thrown).
Arguments Returned {A} a.
Arguments Failed {A} e.

Definition APP_NAME : jsstring := js "speech2code".

Definition QUOTE : jsstring := [34].

(** The message of [ExtensionFileNotFound]. *)
Definition ExtensionFileNotFound : Thrown :=
  ErrorMessage
    (js "Spoken, a required Visual Studio Code extension was not found and we failed to install it."
     ++ [LF; LF] ++ js "Extension file not found! Something is wrong with this build...").

Section Check.

(** [utils.appVersion], [utils.isDev()], [global.appRoot],
    [process.resourcesPath], [path.resolve], [fs.readdirSync] and
    [spawn.sync]. *)
Variable appVersion : jsstring.
Variable isDev : bool.
Variable appRoot : jsstring.
Variable resourcesPath : jsstring.
Variable path_resolve : list jsstring -> jsstring.
Variable readdirSync : jsstring -> option (list jsstring).
Variable spawnSync : jsstring -> list jsstring -> SpawnResult.

Definition VSCODE_EXT_ID : jsstring := js "pedroaugusto.speech2code@" ++ appVersion.

(** [response.stderr.toString()] *)
Definition stderrToString (response : SpawnResult) : Result jsstring :=
  match stderr response with
  | Some text => Returned text
  | None => Failed NullToString
  end.

(** [response.error || response.stderr.toString() !== ''] *)
Definition failedOrComplained (response : SpawnResult) : Result bool :=
  if error response then Returned true
  else match stderrToString response with
       | Failed e => Failed e
       | Returned text => Returned (negb (jsstring_eqb text []))
       end.

Definition checkVSCodeIsInstalled : Result unit * list Action :=
  let response := spawnSync (js "code") [js "--version"] in
  let trace := [Spawn (js "code") [js "--version"]] in
  match failedOrComplained response with
  | Failed e => (Failed e, trace)
  | Returned true =>
      match stderrToString response with
      | Failed e => (Failed e, trace)
      | Returned err =>
          (Failed (ErrorMessage
             (js "VSCode does not seem to be installed. "
              ++ js "We tried to run " ++ QUOTE ++ js "code --version" ++ QUOTE
              ++ js " and it failed with:" ++ [LF; LF] ++ err ++ [LF]
              ++ js "Possible fixes include installing Visual Studio Code and making sure that when "
              ++ js "you open the terminal/cmd and type " ++ QUOTE ++ js "code --version"
              ++ QUOTE ++ js " everything goes well.")), trace)
      end
  | Returned false => (Returned tt, trace)
  end.

(** [!!extensions.find(a => a === VSCODE_EXT_ID)]: the line found is
    truthy when it is not empty. *)
Definition listed (extensions : list jsstring) : bool :=
  match find (fun a => jsstring_eqb a VSCODE_EXT_ID) extensions with
  | Some a => negb (jsstring_eqb a [])
  | None => false
  end.

Definition checkIfVSCodeExtensionIsAlreadyInstalled : Result bool * list Action :=
  let response := spawnSync (js "code") [js "--list-extensions"; js "--show-versions"] in
  let trace := [Spawn (js "code") [js "--list-extensions"; js "--show-versions"]] in
  match failedOrComplained response with
  | Failed e => (Failed e, trace)
  | Returned true =>
      match stderrToString response with
      | Failed e => (Failed e, trace)
      | Returned err =>
          (Failed (ErrorMessage
             (js "VSCode does not seem to be working well. "
              ++ js "We tried to run " ++ QUOTE ++ js "code --list-extensions" ++ QUOTE
              ++ js " and it failed with:" ++ [LF; LF] ++ err ++ [LF]
              ++ js "Possible fixes include installing Visual Studio Code and making sure that when "
              ++ js "you open the terminal/cmd and type " ++ QUOTE ++ js "code --list-extensions"
              ++ QUOTE ++ js " it lists all installed extensions.")), trace)
      end
  | Returned false =>
      match stdout response with
      | None => (Failed NullToString, trace)
      | Some out => (Returned (listed (split LF out)), trace)
      end
  end.

(** [item.includes(APP_NAME) && item.endsWith('.vsix')] *)
Definition isExtensionFile (item : jsstring) : bool :=
  includes item APP_NAME && endsWith item (js ".vsix").

Definition getExtensionPath : Result jsstring :=
  let root := if isDev then appRoot else resourcesPath in
  match readdirSync (path_resolve [root]) with
  | None => Failed ReaddirFailed
  | Some files =>
      if Nat.eqb (length files) 0 then Failed ExtensionFileNotFound
      else match find isExtensionFile files with
           | None => Failed ExtensionFileNotFound
           | Some extensionPath =>
               if jsstring_eqb extensionPath [] then Failed ExtensionFileNotFound
               else Returned (path_resolve [root; extensionPath])
           end
  end.

(** [getExtensionPath] returns a string, so the test for null of
    [checkIfVSCodeExtensionIsInPath] has nothing to catch. *)
Definition checkIfVSCodeExtensionIsInPath : Result jsstring := getExtensionPath.

Definition installVSCodeExtension (extensionPath : jsstring) : Result unit * list Action :=
  let response := spawnSync (js "code") [js "--install-extension"; extensionPath] in
  let trace := [Spawn (js "code") [js "--install-extension"; extensionPath]] in
  let failed :=
    if error response then Returned true
    else match stderrToString response with
         | Failed e => Failed e
         | Returned text => Returned (negb (includes text (js "warning")))
         end in
  match failed with
  | Failed e => (Failed e, trace)
  | Returned true =>
      let command := js "code --install-extension " ++ extensionPath in
      match stderrToString response with
      | Failed e => (Failed e, trace)
      | Returned err =>
          (Failed (ErrorMessage
             (js "Failed to install Spoken, a required VSCode extension for the use of Speech2Code."
              ++ [LF; LF]
              ++ js "Tried to run " ++ QUOTE ++ command ++ QUOTE
              ++ js " and it failed with:" ++ [LF; LF] ++ err ++ [LF]
              ++ js "Possible fix include to manually install this extension.")), trace)
      end
  | Returned false => (Returned tt, trace)
  end.

Definition installingDialog : Action :=
  ShowMessageBox (js "info")
    (js "Required Visual Studio Code extension not found!")
    (js "Spoken, a required Visual Studio Code extension was not found!" ++ [LF; LF]
     ++ js " Installing it now!" ++ [LF; LF]).

Definition check : Result unit * list Action :=
  match checkVSCodeIsInstalled with
  | (Failed e, t1) => (Failed e, t1)
  | (Returned _, t1) =>
      match checkIfVSCodeExtensionIsAlreadyInstalled with
      | (Failed e, t2) => (Failed e, t1 ++ t2)
      | (Returned true, t2) => (Returned tt, t1 ++ t2)
      | (Returned false, t2) =>
          match checkIfVSCodeExtensionIsInPath with
          | Failed e => (Failed e, t1 ++ t2)
          | Returned extensionPath =>
              match installVSCodeExtension extensionPath with
              | (Failed e, t3) => (Failed e, t1 ++ t2 ++ t3)
              | (Returned _, t3) => (Returned tt, t1 ++ t2 ++ t3 ++ [installingDialog])
              end
          end
      end
  end.

End Check.

End Prerequisites.

(** ** More of the small tree *)

(** The module with its commands as the loop of [main] leaves them. *)
Definition demoModuleDone : SpokenModule :=
  setCommands demoModule
    match fst (forOf (demo_processCommand tt) (mod_commands demoModule) demoWorld) with
    | Ok commands => commands
    | Throw _ => []
    end.

Definition demo_moduleReadme :=
  SpokenModule_buildReadme jsstring demo_dot_read demo_graphAttribute.

(** The README of the module built once, and once more on the module
    that the first call leaves. *)
Definition demoBuiltOnce : jsstring * SpokenModule :=
  match fst (demo_moduleReadme demoModuleDone demoWorld) with
  | Ok built => built
  | Throw _ => ([], noModule)
  end.

Definition demoBuiltTwice : jsstring * SpokenModule :=
  match fst (demo_moduleReadme (snd demoBuiltOnce)
               (snd (demo_moduleReadme demoModuleDone demoWorld))) with
  | Ok built => built
  | Throw _ => ([], noModule)
  end.

(** The tree without its templates. *)
Definition untemplatedWorld : World :=
  mkWorld (delete (demo_root ++ js "/__meta/default-templates.json") demoFiles) [].

(** A machine where [code] runs, the extension is not installed yet and
    the install prints a warning; its resources folder holds the
    extension file. *)
Definition demo_spawnSync (command : jsstring) (args : list jsstring)
  : Prerequisites.SpawnResult :=
  match args with
  | [_] => Prerequisites.mkSpawnResult false (Some (js "1.80.1")) (Some [])
  | [first; _] =>
      if jsstring_eqb first (js "--list-extensions")
      then Prerequisites.mkSpawnResult false
             (Some (js "ms-python.python@2023.1" ++ [LF]
                    ++ js "pedroaugusto.speech2code@0.9.0" ++ [LF]))
             (Some [])
      else Prerequisites.mkSpawnResult false (Some (js "Installing extensions..."))
             (Some (js "(node) warning: deprecated"))
  | _ => Prerequisites.mkSpawnResult true None None
  end.

Definition demo_readdirSync (path : jsstring) : option (list jsstring) :=
  Some [js "app.asar"; js "speech2code.txt"; js "spoken-speech2code-1.0.0.vsix";
        js "speech2code-old.vsix"].

Definition demo_check :=
  Prerequisites.check (js "1.0.0") false (js "/dev") (js "/opt/app/resources")
    demo_path_resolve demo_readdirSync demo_spawnSync.

(** ** The trace of a unit of work *)

(** What the loop body of an automaton logs when it returns: the call
    of the renderer, then the read of the description. *)
Definition automataTrace (automata : Automata) : list Event :=
  [Render (aut_path automata) (aut_image automata); ReadFile (aut_path automata)].

(** What the loop body of a command logs when it returns: the traces of
    its automata, in order, then the write of its README. *)
Definition commandTrace (command : Command) (readme : jsstring) : list Event :=
  concat (List.map automataTrace (cmd_automatas command))
  ++ [WriteFile (cmd_readme command) readme].

(** What [buildGraph] logs after its read: the warning, or the write of
    the composed automaton. *)
Definition compositionEvent (moduleA : SpokenModule) (ev : Event) : Prop :=
  ev = Warn (js "Could not mount module documentation")
  \/ exists text, ev = WriteFile (mod_automata moduleA) text.

(** The steps of a module itself when they all return: the composition
    of its automaton, the rendering of its image, its README. *)
Definition moduleTrace (moduleA : SpokenModule) (composed : Event) (readme : jsstring)
  : list Event :=
  [ReadFile (mod_automata moduleA); composed;
   Render (mod_automata moduleA) (mod_image moduleA);
   ReadFile (mod_automata moduleA);
   WriteFile (mod_readme moduleA) readme].

(** The automaton of a command as [main] leaves it: the phrases are
    stored and the attributes of the graph copied. *)
Definition storedFrom (automata automata' : Automata) : Prop :=
  aut_path automata' = aut_path automata
  /\ aut_image automata' = aut_image automata
  /\ aut_relativeImagePath automata' = aut_relativeImagePath automata
  /\ exists phrases, aut_phrases automata' = Some phrases /\ (length phrases <= 16)%nat.

(** The command as the loop body of [main] leaves it. *)
Definition processedFrom (command command' : Command) : Prop :=
  command' = setAutomatas command (cmd_automatas command')
  /\ Forall2 storedFrom (cmd_automatas command) (cmd_automatas command').

(** ** A tree of two modules, in the DOT language

    The modules [edit], with the commands [redo] and [undo], and [files],
    with the commands [create] and [delete]; every command has an English
    and a Portuguese automaton. The descriptions are DOT texts with
    quoted attributes. The stand-in for the enumerator returns the phrase
    of the graph and twenty variants of it, the phrase itself again
    before each variant. *)

Definition attribute (key value : string) : jsstring :=
  js " " ++ js key ++ js "=" ++ [34] ++ js value ++ [34] ++ js ";".

Definition dotAutomaton (lang langName title say : string) : jsstring :=
  js "digraph { graph [" ++ attribute "lang" lang ++ attribute "langName" langName
  ++ attribute "title" title ++ attribute "desc" title ++ attribute "say" say
  ++ js " ]; 0 -> 1; 1 [shape=doublecircle]; }".

Definition dotModuleAutomaton (label : string) : jsstring :=
  joinStrings [LF]
    [js "digraph {";
     js "    graph [" ++ attribute "label" label ++ attribute "desc" label ++ js " ];";
     js "    // START GENERATED";
     js "    0 -> 9 [label=stale];";
     js "    // END GENERATED";
     js "}"].

(** The value of a quoted attribute. *)
Definition quoted_graphAttribute (graph : jsstring) (key : jsstring) : option jsstring :=
  match valueAfter (js " " ++ key) graph with
  | Some (c :: value) => if c =? 34 then Some (upTo 34 value) else None
  | _ => None
  end.

Definition wide_candidatePhrases (graph : jsstring) (templates : unit)
  : Outcome (list jsstring) :=
  match quoted_graphAttribute graph (js "say") with
  | Some phrase =>
      Ok (concat (List.map (fun i => [phrase; phrase ++ js " " ++ numToString i])
                    (seq 1 20)))
  | None => Throw EnumerationError
  end.

Definition wide_listArchives (kind : ArchiveKind) (w : World) (path : jsstring)
    (filter : option (jsstring -> bool)) : Outcome (list jsstring) :=
  let keep names := match filter with Some f => List.filter f names | None => names end in
  match kind with
  | FOLDER =>
      if jsstring_eqb path demo_root then Ok (keep [js "edit"; js "files"])
      else if jsstring_eqb path (demo_root ++ js "/edit")
      then Ok (keep [js "redo"; js "undo"])
      else if jsstring_eqb path (demo_root ++ js "/files")
      then Ok (keep [js "create"; js "delete"])
      else Throw ListError
  | FILES =>
      Ok (keep [js "impl.ts"; js "phrase_en-US.dot"; js "phrase_pt-BR.dot"; js "README.md"])
  end.

Definition wideFiles : gmap jsstring jsstring :=
  list_to_map
    [(demo_root ++ js "/__meta/default-templates.json", js "{}");
     (demo_root ++ js "/edit/edit.dot", dotModuleAutomaton "Edit");
     (demo_root ++ js "/edit/redo/impl.ts", js "export default function redo() {}");
     (demo_root ++ js "/edit/redo/phrase_en-US.dot",
        dotAutomaton "en-US" "English" "Redo" "redo that");
     (demo_root ++ js "/edit/redo/phrase_pt-BR.dot",
        dotAutomaton "pt-BR" "Portugues" "Refazer" "refazer isso");
     (demo_root ++ js "/edit/undo/impl.ts", js "export default function undo() {}");
     (demo_root ++ js "/edit/undo/phrase_en-US.dot",
        dotAutomaton "en-US" "English" "Undo" "undo that");
     (demo_root ++ js "/edit/undo/phrase_pt-BR.dot",
        dotAutomaton "pt-BR" "Portugues" "Desfazer" "desfazer isso");
     (demo_root ++ js "/files/files.dot", dotModuleAutomaton "Files");
     (demo_root ++ js "/files/create/impl.ts", js "export default function create() {}");
     (demo_root ++ js "/files/create/phrase_en-US.dot",
        dotAutomaton "en-US" "English" "Create" "create file");
     (demo_root ++ js "/files/create/phrase_pt-BR.dot",
        dotAutomaton "pt-BR" "Portugues" "Criar" "criar arquivo");
     (demo_root ++ js "/files/delete/impl.ts", js "export default function remove() {}");
     (demo_root ++ js "/files/delete/phrase_en-US.dot",
        dotAutomaton "en-US" "English" "Delete" "delete file");
     (demo_root ++ js "/files/delete/phrase_pt-BR.dot",
        dotAutomaton "pt-BR" "Portugues" "Apagar" "apagar arquivo")].

Definition wideWorld : World := mkWorld wideFiles [].

(** The objects that the constructors build on that tree, written out. *)
Definition wideAutomata (folder lang : string) : Automata :=
  {| aut_path := demo_root ++ js "/" ++ js folder ++ js "/phrase_" ++ js lang ++ js ".dot";
     aut_image := demo_root ++ js "/" ++ js folder ++ js "/phrase_" ++ js lang ++ js ".png";
     aut_relativeImagePath := js "phrase_" ++ js lang ++ js ".png";
     aut_phrases := None; aut_title := None; aut_desc := None;
     aut_langName := None; aut_lang := None |}.

Definition wideCommand (moduleName name code : string) : Command :=
  {| cmd_name := js name;
     cmd_root := demo_root ++ js "/" ++ js moduleName ++ js "/" ++ js name;
     cmd_readme := demo_root ++ js "/" ++ js moduleName ++ js "/" ++ js name ++ js "/README.md";
     cmd_code := js code;
     cmd_automatas := [wideAutomata (moduleName ++ "/" ++ name) "en-US";
                       wideAutomata (moduleName ++ "/" ++ name) "pt-BR"] |}.

Definition wideModule (name : string) (commands : list Command) : SpokenModule :=
  {| mod_name := js name;
     mod_root := demo_root ++ js "/" ++ js name;
     mod_readme := demo_root ++ js "/" ++ js name ++ js "/README.md";
     mod_image := demo_root ++ js "/" ++ js name ++ js "/" ++ js name ++ js ".png";
     mod_relativeImagePath := js name ++ js ".png";
     mod_automata := demo_root ++ js "/" ++ js name ++ js "/" ++ js name ++ js ".dot";
     mod_commands := commands |}.

Definition redoCommand : Command :=
  wideCommand "edit" "redo" "export default function redo() {}".
Definition undoCommand : Command :=
  wideCommand "edit" "undo" "export default function undo() {}".
Definition createCommand : Command :=
  wideCommand "files" "create" "export default function create() {}".
Definition deleteCommand : Command :=
  wideCommand "files" "delete" "export default function remove() {}".

Definition editModule : SpokenModule := wideModule "edit" [redoCommand; undoCommand].
Definition filesModule : SpokenModule := wideModule "files" [createCommand; deleteCommand].

Definition wideSpoken : SpokenModules unit :=
  {| spoken_root := demo_root; spoken_modules := [editModule; filesModule];
     spoken_templates := tt |}.

Definition wide_SpokenModules_new :=
  SpokenModules_new unit tt (fun _ _ => tt) demo_JSON_parse demo_path_resolve
    demo_dirname wide_listArchives.

Definition wide_processAutomata :=
  processAutomata jsstring demo_dot_read quoted_graphAttribute unit wide_candidatePhrases
    demo_renderDot.

Definition wide_processCommand :=
  processCommand jsstring demo_dot_read quoted_graphAttribute unit wide_candidatePhrases
    demo_renderDot.

Definition wide_processModule :=
  processModule jsstring demo_dot_read quoted_graphAttribute unit wide_candidatePhrases
    demo_renderDot.

Definition wide_mainLoop :=
  mainLoop jsstring demo_dot_read quoted_graphAttribute unit wide_candidatePhrases
    demo_renderDot.

Definition wide_main : M unit :=
  main jsstring demo_dot_read quoted_graphAttribute unit tt (fun _ _ => tt) demo_JSON_parse
    demo_path_resolve demo_dirname wide_listArchives wide_candidatePhrases demo_renderDot.

(** The world in which the loop of [main] starts: the constructors have
    read the sources of the commands and the templates. *)
Definition wideStart : World := snd (wide_SpokenModules_new wideWorld).

(** The same tree with the text of one file replaced. *)
Definition withFile (path : string) (text : jsstring) (w : World) : World :=
  mkWorld (<[demo_root ++ js path := text]> (files w)) (log w).

(** The automata and the commands of that tree as the loop of [main]
    leaves them: 16 of the 21 phrases of the enumerator are stored. *)
Definition storedAutomata (folder lang langName title say : string) : Automata :=
  {| aut_path := demo_root ++ js "/" ++ js folder ++ js "/phrase_" ++ js lang ++ js ".dot";
     aut_image := demo_root ++ js "/" ++ js folder ++ js "/phrase_" ++ js lang ++ js ".png";
     aut_relativeImagePath := js "phrase_" ++ js lang ++ js ".png";
     aut_phrases :=
       Some (js say :: List.map (fun i => js say ++ js " " ++ numToString i) (seq 1 15));
     aut_title := Some (js title); aut_desc := Some (js title);
     aut_langName := Some (js langName); aut_lang := Some (js lang) |}.

Definition redoDone : Command :=
  setAutomatas redoCommand
    [storedAutomata "edit/redo" "en-US" "English" "Redo" "redo that";
     storedAutomata "edit/redo" "pt-BR" "Portugues" "Refazer" "refazer isso"].

Definition undoDone : Command :=
  setAutomatas undoCommand
    [storedAutomata "edit/undo" "en-US" "English" "Undo" "undo that";
     storedAutomata "edit/undo" "pt-BR" "Portugues" "Desfazer" "desfazer isso"].

Definition createDone : Command :=
  setAutomatas createCommand
    [storedAutomata "files/create" "en-US" "English" "Create" "create file";
     storedAutomata "files/create" "pt-BR" "Portugues" "Criar" "criar arquivo"].

Definition deleteDone : Command :=
  setAutomatas deleteCommand
    [storedAutomata "files/delete" "en-US" "English" "Delete" "delete file";
     storedAutomata "files/delete" "pt-BR" "Portugues" "Apagar" "apagar arquivo"].

(** The modules as the loop of [main] leaves them: [buildReadme] has
    prefixed the image paths with the names of the commands. *)
Definition editDone : SpokenModule :=
  setCommands editModule (List.map relocateImages [redoDone; undoDone]).

Definition filesDone : SpokenModule :=
  setCommands filesModule (List.map relocateImages [createDone; deleteDone]).

(** The tree with a description that the parser refuses: the last
    automaton of the last command of the last module, and the first
    automaton of the first command of the first module. *)
Definition lastBroken : World :=
  withFile "/files/delete/phrase_pt-BR.dot" (js "graph without header") wideWorld.

Definition firstBroken : World :=
  withFile "/edit/redo/phrase_en-US.dot" (js "graph without header") wideWorld.

(** The tree with a command [delete] that has no English automaton: the
    file named for English is in Portuguese too. *)
Definition noEnglish : World :=
  withFile "/files/delete/phrase_en-US.dot"
    (dotAutomaton "pt-BR" "Portugues" "Apagar" "apagar arquivo") wideWorld.

(** A module whose only command has a line feed in the name of its
    folder. *)
Definition lineFeedModule : SpokenModule :=
  setCommands filesModule [mkCommand (js "line" ++ [LF] ++ js "feed") [] [] [] []].

(** A command whose folder is named [dot], in the module [files]. *)
Definition dotWorld : World :=
  withFile "/files/dot/impl.ts" (js "export default function dot() {}")
    (withFile "/files/dot/phrase_en-US.dot" (dotAutomaton "en-US" "English" "Dot" "dot")
       (withFile "/files/dot/phrase_pt-BR.dot"
          (dotAutomaton "pt-BR" "Portugues" "Ponto" "ponto") wideWorld)).

Definition dotCommand : Command :=
  {| cmd_name := js "dot";
     cmd_root := demo_root ++ js "/files/dot";
     cmd_readme := demo_root ++ js "/files/dot/README.md";
     cmd_code := js "export default function dot() {}";
     cmd_automatas :=
       [{| aut_path := demo_root ++ js "/files/dot/phrase_en-US.dot";
           aut_image := demo_root ++ js "/files.png/phrase_en-US.png";
           aut_relativeImagePath := js "phrase_en-US.png";
           aut_phrases := None; aut_title := None; aut_desc := None;
           aut_langName := None; aut_lang := None |};
        {| aut_path := demo_root ++ js "/files/dot/phrase_pt-BR.dot";
           aut_image := demo_root ++ js "/files.png/phrase_pt-BR.png";
           aut_relativeImagePath := js "phrase_pt-BR.png";
           aut_phrases := None; aut_title := None; aut_desc := None;
           aut_langName := None; aut_lang := None |}] |}.

(** A command with two automata whose phrases are stored. *)
Definition sampleCommand : Command :=
  {| cmd_name := js "create";
     cmd_root := js "/modules/files/create";
     cmd_readme := js "/modules/files/create/README.md";
     cmd_code := js "export default function create() {}";
     cmd_automatas :=
       [{| aut_path := js "/modules/files/create/phrase_en-US.dot";
           aut_image := js "/modules/files/create/phrase_en-US.png";
           aut_relativeImagePath := js "phrase_en-US.png";
           aut_phrases := Some [js "create file"; js "new file"];
           aut_title := Some (js "Create"); aut_desc := Some (js "Creates a file");
           aut_langName := Some (js "English"); aut_lang := Some (js "en-US") |};
        {| aut_path := js "/modules/files/create/phrase_pt-BR.dot";
           aut_image := js "/modules/files/create/phrase_pt-BR.png";
           aut_relativeImagePath := js "phrase_pt-BR.png";
           aut_phrases := Some [js "criar arquivo"; js "novo arquivo"; js "arquivo novo"];
           aut_title := Some (js "Criar"); aut_desc := Some (js "Cria um arquivo");
           aut_langName := Some (js "Portugues"); aut_lang := Some (js "pt-BR") |}] |}.

(** The worlds of the build on the tree whose last description is
    refused: at the start of the loop of [main], after the module
    [edit], after the command [create], after the English automaton of
    [delete], and at the throw. *)
Definition lastBrokenStart : World := snd (wide_SpokenModules_new lastBroken).

Definition afterEdit : World :=
  snd (forOf (wide_processModule tt) [editModule] lastBrokenStart).

Definition afterCreate : World :=
  snd (forOf (wide_processCommand tt) [createCommand] afterEdit).

Definition afterDeleteEnglish : World :=
  snd (forOf (wide_processAutomata tt) [wideAutomata "files/delete" "en-US"] afterCreate).

Definition atThrow : World :=
  snd (wide_processAutomata tt (wideAutomata "files/delete" "pt-BR") afterDeleteEnglish).

(** An event without the text that it carries. *)
Definition touched (ev : Event) : jsstring :=
  match ev with
  | ReadFile path => js "read " ++ path
  | WriteFile path _ => js "write " ++ path
  | Warn _ => js "warn"
  | Render _ image => js "render " ++ image
  end.

Definition fileExists (w : World) (path : jsstring) : bool :=
  match files w !! path with Some _ => true | None => false end.

(** * Facts about strings and arrays *)

Lemma split_nonempty sep s : split sep s <> [].
Proof.
  destruct s as [|c s]; simpl; [discriminate|].
  destruct (c =? sep); [discriminate|].
  destruct (split sep s); discriminate.
Qed.

Lemma split_app_sep sep a b :
  split sep (a ++ sep :: b) = split sep a ++ split sep b.
Proof.
  induction a as [|c a IH]; simpl.
  - rewrite N.eqb_refl. reflexivity.
  - destruct (c =? sep); [rewrite IH; reflexivity|].
    rewrite IH. pose proof (split_nonempty sep a) as Hne.
    destruct (split sep a); [congruence|reflexivity].
Qed.

Lemma split_no_sep sep s : sep ∉ s -> split sep s = [s].
Proof.
  induction s as [|c s IH]; intros Hs; simpl; [reflexivity|].
  apply not_elem_of_cons in Hs as [Hc Hs].
  destruct (N.eqb_spec c sep) as [->|_]; [congruence|].
  rewrite IH by assumption. reflexivity.
Qed.

Lemma split_pieces sep s : Forall (fun l => sep ∉ l) (split sep s).
Proof.
  induction s as [|c s IH]; simpl.
  - constructor; [apply not_elem_of_nil|constructor].
  - destruct (N.eqb_spec c sep) as [->|Hc].
    + constructor; [apply not_elem_of_nil|assumption].
    + destruct (split sep s) as [|l ls].
      * constructor; [|constructor].
        intros [?|Hin]%elem_of_cons; [congruence|]. by apply elem_of_nil in Hin.
      * apply Forall_cons in IH as [Hl Hls]. constructor; [|assumption].
        intros [?|Hin]%elem_of_cons; [congruence|contradiction].
Qed.

Lemma split_pieces_within sep s x :
  x ∉ s -> Forall (fun l => x ∉ l) (split sep s).
Proof.
  induction s as [|c s IH]; intros Hs; simpl.
  - constructor; [apply not_elem_of_nil|constructor].
  - apply not_elem_of_cons in Hs as [Hc Hs]. specialize (IH Hs).
    destruct (c =? sep).
    + constructor; [apply not_elem_of_nil|assumption].
    + destruct (split sep s) as [|l ls].
      * constructor; [|constructor].
        intros [?|Hin]%elem_of_cons; [congruence|]. by apply elem_of_nil in Hin.
      * apply Forall_cons in IH as [Hl Hls]. constructor; [|assumption].
        intros [?|Hin]%elem_of_cons; [congruence|contradiction].
Qed.

Lemma joinStrings_cons2 sep x y l :
  joinStrings sep (x :: y :: l) = x ++ sep ++ joinStrings sep (y :: l).
Proof. reflexivity. Qed.

Lemma joinStrings_one sep x : joinStrings sep [x] = x.
Proof. reflexivity. Qed.

Lemma split_joinStrings sep l :
  l <> [] -> split sep (joinStrings [sep] l) = concat (List.map (split sep) l).
Proof.
  induction l as [|x l IH]; intros Hne; [congruence|].
  destruct l as [|y l].
  - rewrite joinStrings_one. simpl. rewrite app_nil_r. reflexivity.
  - rewrite joinStrings_cons2. change ([sep] ++ ?t) with (sep :: t).
    rewrite split_app_sep, IH by discriminate. reflexivity.
Qed.

Lemma concat_split_id sep l :
  Forall (fun x => sep ∉ x) l -> concat (List.map (split sep) l) = l.
Proof.
  induction 1 as [|x l Hx _ IH]; simpl; [reflexivity|].
  rewrite split_no_sep, IH by assumption. reflexivity.
Qed.

Lemma joinStrings_split sep s : joinStrings [sep] (split sep s) = s.
Proof.
  induction s as [|c s IH]; simpl; [reflexivity|].
  pose proof (split_nonempty sep s) as Hne.
  destruct (N.eqb_spec c sep) as [->|Hc].
  - destruct (split sep s) as [|l ls]; [congruence|].
    rewrite joinStrings_cons2, IH. reflexivity.
  - destruct (split sep s) as [|l ls]; [congruence|].
    destruct ls as [|l' ls].
    + rewrite joinStrings_one in *. f_equal. exact IH.
    + rewrite joinStrings_cons2 in *. simpl. f_equal. exact IH.
Qed.

Lemma trimStart_within s x : x ∈ trimStart s -> x ∈ s.
Proof.
  induction s as [|c s IH]; simpl; [auto|].
  destruct (isWhiteSpace c); [|auto]. intros H. right. auto.
Qed.

Lemma trim_within s x : x ∈ trim s -> x ∈ s.
Proof.
  unfold trim, trimEnd. intros H.
  apply list_elem_of_In, in_rev, list_elem_of_In, trimStart_within in H.
  apply list_elem_of_In, in_rev, list_elem_of_In in H.
  apply trimStart_within. exact H.
Qed.

Lemma startsWith_head s x p : startsWith s (x :: p) = true -> x ∈ s.
Proof.
  destruct s as [|c s]; simpl; [discriminate|].
  intros H. apply andb_true_iff in H as [H _].
  apply N.eqb_eq in H. subst. left.
Qed.

Lemma isEnd_slash a : isEnd a = true -> SLASH ∈ a.
Proof. intros H. apply trim_within. exact (startsWith_head _ _ _ H). Qed.

Lemma digits_range d x : x ∈ digits d -> 48 <= x <= 57.
Proof.
  induction d; simpl; intros H;
    try (apply elem_of_nil in H; contradiction);
    apply elem_of_cons in H as [->|H]; auto; lia.
Qed.

Lemma findIndexFrom_firstIndex {A} (p : A -> bool) a i :
  findIndexFrom p a i =
  match firstIndex p a with
  | Some n => (i + Z.of_nat n)%Z
  | None => (-1)%Z
  end.
Proof.
  revert i. induction a as [|x a IH]; intros i; simpl; [reflexivity|].
  destruct (p x); simpl; [lia|].
  rewrite IH. destruct (firstIndex p a); simpl; lia.
Qed.

Lemma findIndex_firstIndex {A} (p : A -> bool) a :
  findIndex p a =
  match firstIndex p a with
  | Some n => Z.of_nat n
  | None => (-1)%Z
  end.
Proof.
  unfold findIndex. rewrite findIndexFrom_firstIndex.
  destruct (firstIndex p a); reflexivity.
Qed.

Lemma firstIndex_Some {A} (p : A -> bool) a n :
  firstIndex p a = Some n <-> firstAt p a n.
Proof.
  revert n. induction a as [|x a IH]; intros n; simpl.
  - split; [discriminate|]. intros [[y [Hy _]] _]. discriminate.
  - destruct (p x) eqn:Hpx.
    + split.
      * intros [= <-]. split; [exists x; auto|]. intros j y Hj. lia.
      * intros [[y [Hy Hpy]] Hmin]. destruct n as [|n]; [reflexivity|].
        specialize (Hmin 0%nat x ltac:(lia) eq_refl). congruence.
    + destruct (firstIndex p a) as [k|] eqn:Hk; simpl.
      * split.
        -- intros [= <-]. destruct (proj1 (IH k) eq_refl) as [[y [Hy Hpy]] Hmin].
           split; [exists y; auto|].
           intros [|j] z Hj Hz; simpl in Hz; [congruence|].
           apply (Hmin j); [lia|assumption].
        -- intros [[y [Hy Hpy]] Hmin]. destruct n as [|n]; simpl in Hy; [congruence|].
           f_equal. assert (Some k = Some n) as [= ->]; [|reflexivity].
           apply IH. split; [exists y; auto|].
           intros j z Hj Hz. apply (Hmin (S j)); [lia|assumption].
      * split; [discriminate|].
        intros [[y [Hy Hpy]] Hmin]. destruct n as [|n]; simpl in Hy; [congruence|].
        assert (None = Some n) as Habs; [|discriminate].
        apply IH. split; [exists y; auto|].
        intros j z Hj Hz. apply (Hmin (S j)); [lia|assumption].
Qed.

Lemma firstIndex_None {A} (p : A -> bool) a :
  firstIndex p a = None <-> absent p a.
Proof.
  unfold absent. induction a as [|x a IH]; simpl.
  - split; [constructor|reflexivity].
  - destruct (p x) eqn:Hpx.
    + split; [discriminate|]. intros H. apply Forall_cons in H as [H _]. congruence.
    + destruct (firstIndex p a); simpl.
      * split; [discriminate|]. intros H. apply Forall_cons in H as [_ H].
        apply IH in H. discriminate.
      * split; [|reflexivity]. intros _. constructor; [assumption|]. apply IH. reflexivity.
Qed.

Lemma firstIndex_app_absent {A} (p : A -> bool) a b :
  absent p a -> firstIndex p (a ++ b) = (fun n => length a + n)%nat <$> firstIndex p b.
Proof.
  induction 1 as [|x a Hx _ IH]; simpl.
  - destruct (firstIndex p b); reflexivity.
  - rewrite Hx, IH. destruct (firstIndex p b); reflexivity.
Qed.

Lemma firstIndex_app_found {A} (p : A -> bool) a b n :
  firstIndex p a = Some n -> firstIndex p (a ++ b) = Some n.
Proof.
  revert n. induction a as [|x a IH]; intros n; simpl; [discriminate|].
  destruct (p x); [auto|].
  destruct (firstIndex p a) as [k|]; simpl; [|discriminate].
  intros [= <-]. rewrite (IH k eq_refl). reflexivity.
Qed.

Lemma firstIndex_take {A} (p : A -> bool) a n :
  firstIndex p a = Some n -> firstIndex p (take (S n) a) = Some n.
Proof.
  revert n. induction a as [|x a IH]; intros n; simpl; [discriminate|].
  destruct (p x); [auto|].
  destruct (firstIndex p a) as [k|]; simpl; [|discriminate].
  intros [= <-]. rewrite (IH k eq_refl). reflexivity.
Qed.

Lemma firstIndex_take_absent {A} (p : A -> bool) a n k :
  firstIndex p a = Some n -> (k <= n)%nat -> absent p (take k a).
Proof.
  intros Hn Hk. apply firstIndex_Some in Hn as [_ Hmin].
  apply Forall_forall. intros x Hx.
  apply list_elem_of_lookup in Hx as [j Hj].
  pose proof (lookup_lt_Some _ _ _ Hj) as Hlen. rewrite length_take in Hlen.
  rewrite lookup_take_lt in Hj by lia.
  apply (Hmin j); [lia|assumption].
Qed.

Lemma firstIndex_drop {A} (p : A -> bool) a n :
  firstIndex p a = Some n -> firstIndex p (drop n a) = Some 0%nat.
Proof.
  revert n. induction a as [|x a IH]; intros n; simpl; [discriminate|].
  destruct (p x) eqn:Hpx.
  - intros [= <-]. simpl. rewrite Hpx. reflexivity.
  - destruct (firstIndex p a) as [k|]; simpl; [|discriminate].
    intros [= <-]. simpl. apply IH. reflexivity.
Qed.

Lemma firstIndex_length {A} (p : A -> bool) a n :
  firstIndex p a = Some n -> (n < length a)%nat.
Proof.
  intros H. apply firstIndex_Some in H as [[x [Hx _]] _].
  exact (lookup_lt_Some _ _ _ Hx).
Qed.

Lemma clampIndex_nat (len n : nat) :
  clampIndex (Z.of_nat len) (Z.of_nat n) = Z.of_nat (Nat.min n len).
Proof.
  unfold clampIndex. destruct (Z.ltb_spec (Z.of_nat n) 0); lia.
Qed.

Lemma take_min_length {A} (a : list A) (n : nat) :
  take (Nat.min n (length a)) a = take n a.
Proof.
  destruct (Nat.le_gt_cases n (length a)) as [Hle|Hgt].
  - rewrite Nat.min_l by assumption. reflexivity.
  - rewrite Nat.min_r by lia. rewrite !take_ge; [reflexivity|lia|lia].
Qed.

Lemma slice_cap {A} (a : list A) (n : nat) :
  slice a 0 (Z.of_nat n) = take n a.
Proof.
  unfold slice. change 0%Z with (Z.of_nat 0).
  rewrite !clampIndex_nat. simpl Nat.min.
  rewrite Z.sub_0_r, !Nat2Z.id, drop_0. apply take_min_length.
Qed.

Lemma slice_prefix {A} (a : list A) (n : nat) :
  slice a 0 (Z.of_nat n + 1) = take (S n) a.
Proof.
  replace (Z.of_nat n + 1)%Z with (Z.of_nat (S n)) by lia. apply slice_cap.
Qed.

Lemma sliceFrom_drop {A} (a : list A) (n : nat) :
  sliceFrom a (Z.of_nat n) = drop n a.
Proof.
  unfold sliceFrom, slice. rewrite !clampIndex_nat, Nat.min_id.
  rewrite <- Nat2Z.inj_sub by lia. rewrite !Nat2Z.id.
  destruct (Nat.le_gt_cases n (length a)) as [Hle|Hgt].
  - rewrite Nat.min_l by assumption. apply take_ge. rewrite length_drop. lia.
  - rewrite Nat.min_r by lia. rewrite Nat.sub_diag.
    rewrite !drop_ge by lia. reflexivity.
Qed.

(** ** Facts about the marker lines and the generated lines *)

Lemma START_GENERATED_head :
  START_GENERATED = 47 :: 47 :: 32 :: 83 :: js "TART GENERATED".
Proof. vm_compute. reflexivity. Qed.

Lemma END_GENERATED_head :
  END_GENERATED = 47 :: 47 :: 32 :: 69 :: js "ND GENERATED".
Proof. vm_compute. reflexivity. Qed.

Lemma isBegin_not_isEnd a : isBegin a = true -> isEnd a = false.
Proof.
  unfold isBegin, isEnd. rewrite START_GENERATED_head, END_GENERATED_head.
  generalize (trim a). intros s.
  destruct s as [|c0 [|c1 [|c2 [|c3 s]]]]; simpl;
    rewrite ?andb_false_r; try discriminate.
  destruct (N.eqb_spec c3 83) as [->|]; [|rewrite !andb_false_r; discriminate].
  intros _. rewrite !andb_false_r. reflexivity.
Qed.

Ltac literal_member H :=
  vm_compute in H;
  repeat (apply elem_of_cons in H as [H|H]; [subst; intuition discriminate|]);
  apply elem_of_nil in H; contradiction.

Lemma transitionLine_within x index item :
  x = LF \/ x = SLASH -> x ∈ transitionLine index item -> x ∈ cmd_name item.
Proof.
  intros Hx. unfold transitionLine, numToString. rewrite !elem_of_app.
  intros [H|[H|[H|[H|[H|[H|[H|[H|H]]]]]]]]; try assumption.
  - literal_member H.
  - apply digits_range in H. unfold LF, SLASH in Hx. lia.
  - literal_member H.
  - literal_member H.
  - literal_member H.
  - literal_member H.
  - literal_member H.
  - literal_member H.
Qed.

Lemma generated_free x (commands : list Command) :
  x = LF \/ x = SLASH ->
  Forall (fun c => x ∉ cmd_name c) commands ->
  Forall (fun l => x ∉ l) (imap transitionLine commands).
Proof.
  intros Hx Hall. apply Forall_forall. intros l Hl.
  apply list_elem_of_lookup in Hl as [i Hi].
  rewrite list_lookup_imap in Hi.
  destruct (commands !! i) as [c|] eqn:Hc; simpl in Hi; [|discriminate].
  injection Hi as <-. intros Hin.
  apply transitionLine_within in Hin; [|assumption].
  rewrite Forall_forall in Hall. apply (Hall c); [|assumption].
  apply list_elem_of_lookup. eauto.
Qed.

Lemma pieces_not_isEnd (ls : list jsstring) :
  Forall (fun l => SLASH ∉ l) ls ->
  absent isEnd (concat (List.map (split LF) ls)).
Proof.
  intros Hall. unfold absent. apply Forall_concat, Forall_forall.
  intros pieces Hp. apply list_elem_of_In, in_map_iff in Hp as [l [<- Hl]].
  rewrite Forall_forall in Hall. apply list_elem_of_In in Hl.
  pose proof (split_pieces_within LF l SLASH (Hall l Hl)) as Hfree.
  eapply Forall_impl; [exact Hfree|]. simpl. intros piece Hpiece.
  destruct (isEnd piece) eqn:He; [|reflexivity].
  apply isEnd_slash in He. contradiction.
Qed.

(** The lines of a composed file: the kept prefix, the pieces of the
    generated lines, the kept suffix. *)
Lemma split_composed (content : jsstring) (generated : list jsstring) (b e : nat) :
  split LF (joinStrings [LF] (take (S b) (split LF content) ++ generated
                              ++ drop e (split LF content)))
  = take (S b) (split LF content) ++ concat (List.map (split LF) generated)
    ++ drop e (split LF content).
Proof.
  pose proof (split_pieces LF content) as Hfree.
  pose proof (split_nonempty LF content) as Hne.
  rewrite split_joinStrings.
  - rewrite !map_app, !concat_app.
    rewrite (concat_split_id LF (take (S b) _)) by (apply Forall_take; assumption).
    rewrite (concat_split_id LF (drop e _)) by (apply Forall_drop; assumption).
    reflexivity.
  - destruct (split LF content); [congruence|discriminate].
Qed.

(** ** What [buildGraph] does to the world *)

Lemma buildGraph_missing this w :
  files w !! mod_automata this = None ->
  SpokenModule_buildGraph this w
  = (Throw (FileNotFound (mod_automata this)), record (ReadFile (mod_automata this)) w).
Proof.
  intros Hf. unfold SpokenModule_buildGraph, bind, readFileSync. rewrite Hf. reflexivity.
Qed.

Lemma buildGraph_composes this w content b e :
  files w !! mod_automata this = Some content ->
  firstIndex isBegin (split LF content) = Some b ->
  firstIndex isEnd (split LF content) = Some e ->
  (b <= e)%nat ->
  SpokenModule_buildGraph this w
  = (Ok tt,
     mkWorld
       (<[mod_automata this :=
            joinStrings [LF] (take (S b) (split LF content)
                              ++ imap transitionLine (mod_commands this)
                              ++ drop e (split LF content))]> (files w))
       (log w ++ [ReadFile (mod_automata this)]
        ++ [WriteFile (mod_automata this)
              (joinStrings [LF] (take (S b) (split LF content)
                                 ++ imap transitionLine (mod_commands this)
                                 ++ drop e (split LF content)))])).
Proof.
  intros Hf Hb He Hle.
  unfold SpokenModule_buildGraph, bind, readFileSync. rewrite Hf.
  rewrite !findIndex_firstIndex, Hb, He.
  destruct (Z.eqb_spec (Z.of_nat e) (-1)); [lia|].
  destruct (Z.eqb_spec (Z.of_nat b) (-1)); [lia|].
  destruct (Z.gtb_spec (Z.of_nat b) (Z.of_nat e)); [lia|].
  simpl orb. cbv iota.
  rewrite slice_prefix, sliceFrom_drop.
  unfold writeFileSync, record. simpl. rewrite <- app_assoc. reflexivity.
Qed.

Lemma buildGraph_skips this w content :
  files w !! mod_automata this = Some content ->
  (firstIndex isBegin (split LF content) = None
   \/ firstIndex isEnd (split LF content) = None
   \/ exists b e, firstIndex isBegin (split LF content) = Some b
                  /\ firstIndex isEnd (split LF content) = Some e /\ (e < b)%nat) ->
  SpokenModule_buildGraph this w
  = (Ok tt,
     mkWorld (files w)
       (log w ++ [ReadFile (mod_automata this)]
        ++ [Warn (js "Could not mount module documentation")])).
Proof.
  intros Hf Hcase.
  unfold SpokenModule_buildGraph, bind, readFileSync. rewrite Hf.
  rewrite !findIndex_firstIndex.
  assert (((match firstIndex isEnd (split LF content) with
            | Some n => Z.of_nat n | None => -1 end =? -1)
           || (match firstIndex isBegin (split LF content) with
               | Some n => Z.of_nat n | None => -1 end =? -1)
           || (match firstIndex isBegin (split LF content) with
               | Some n => Z.of_nat n | None => -1 end >?
               match firstIndex isEnd (split LF content) with
               | Some n => Z.of_nat n | None => -1 end))%Z = true) as ->.
  { destruct Hcase as [->|[->|[b [e [-> [-> Hlt]]]]]].
    - rewrite orb_true_r. reflexivity.
    - reflexivity.
    - destruct (Z.gtb_spec (Z.of_nat b) (Z.of_nat e)); [|lia].
      rewrite orb_true_r. reflexivity. }
  unfold console_warn, record. simpl. rewrite <- app_assoc. reflexivity.
Qed.

(** * The composer: [SpokenModule.buildGraph] *)

(** C1, as the code has it. When both marker lines are present and in
    order and no command name holds a line feed, [buildGraph] writes the
    file whose lines are the lines up to and including the first begin
    marker, then exactly one generated transition line per command, in
    list order, then the lines from the first end marker on: whatever
    stood strictly between the markers is replaced. The line of the
    command at position [i] goes from state 0 to state [i + 1] and is
    labeled with the command's name in parentheses. *)
Theorem buildGraph_mounts_commands this w content b e :
  files w !! mod_automata this = Some content ->
  firstAt isBegin (split LF content) b ->
  firstAt isEnd (split LF content) e ->
  (b <= e)%nat ->
  Forall (fun c => LF ∉ cmd_name c) (mod_commands this) ->
  exists out generated,
    SpokenModule_buildGraph this w
    = (Ok tt,
       mkWorld (<[mod_automata this := out]> (files w))
         (log w ++ [ReadFile (mod_automata this); WriteFile (mod_automata this) out]))
    /\ split LF out = take (S b) (split LF content) ++ generated
                      ++ drop e (split LF content)
    /\ length generated = length (mod_commands this)
    /\ (forall i c, mod_commands this !! i = Some c ->
          generated !! i
          = Some (js "    0 -> " ++ numToString (i + 1) ++ js " [label=" ++ [34]
                  ++ js "(" ++ cmd_name c ++ js ")" ++ [34] ++ js "];"))
    /\ split LF out !! b = split LF content !! b
    /\ split LF out !! (S b + length generated)%nat = split LF content !! e.
Proof.
  intros Hf Hb He Hle Hnames.
  apply firstIndex_Some in Hb, He.
  pose proof (firstIndex_length _ _ _ Hb) as Hblen.
  assert (length (take (S b) (split LF content)) = S b) as Hlen
    by (rewrite length_take; lia).
  eexists. exists (imap transitionLine (mod_commands this)).
  split; [apply (buildGraph_composes this w content b e); assumption|].
  rewrite split_composed.
  rewrite concat_split_id by (apply generated_free; [left; reflexivity|assumption]).
  split; [reflexivity|].
  split; [apply length_imap|].
  split.
  { intros i c Hc. rewrite list_lookup_imap, Hc. reflexivity. }
  split.
  - rewrite lookup_app_l by lia. apply lookup_take_lt. lia.
  - rewrite app_assoc, lookup_app_r by (rewrite length_app, Hlen; lia).
    rewrite length_app, Hlen, Nat.sub_diag.
    rewrite lookup_drop, Nat.add_0_r. reflexivity.
Qed.

(** C10. When composition applies, the lines of the file up to and
    including the first begin marker keep their place and their text, and
    the lines from the first end marker to the end of the file follow the
    generated region unchanged; both marker lines are still there. *)
Theorem buildGraph_keeps_frame this w content b e :
  files w !! mod_automata this = Some content ->
  firstAt isBegin (split LF content) b ->
  firstAt isEnd (split LF content) e ->
  (b <= e)%nat ->
  exists out mid w',
    SpokenModule_buildGraph this w = (Ok tt, w')
    /\ files w' !! mod_automata this = Some out
    /\ split LF out = take (S b) (split LF content) ++ mid ++ drop e (split LF content)
    /\ take (S b) (split LF out) = take (S b) (split LF content)
    /\ drop (S b + length mid) (split LF out) = drop e (split LF content)
    /\ firstAt isBegin (split LF out) b
    /\ (exists l, split LF out !! (S b + length mid)%nat = Some l
                  /\ split LF content !! e = Some l /\ isEnd l = true).
Proof.
  intros Hf Hb He Hle.
  assert (Hb' := Hb). assert (He' := He).
  apply firstIndex_Some in Hb', He'.
  pose proof (firstIndex_length _ _ _ Hb') as Hblen.
  assert (length (take (S b) (split LF content)) = S b) as Hlen
    by (rewrite length_take; lia).
  eexists. exists (concat (List.map (split LF) (imap transitionLine (mod_commands this)))).
  eexists.
  split; [apply (buildGraph_composes this w content b e); assumption|].
  split; [simpl; apply lookup_insert_eq|].
  rewrite split_composed.
  split; [reflexivity|].
  split; [rewrite take_app_length'; [reflexivity|symmetry; assumption]|].
  split.
  { rewrite app_assoc. rewrite drop_app_length'; [reflexivity|].
    rewrite length_app, Hlen. reflexivity. }
  split.
  { apply firstIndex_Some. apply firstIndex_app_found, firstIndex_take. assumption. }
  destruct He as [[l [Hl Hpl]] _]. exists l.
  split; [|split; assumption].
  rewrite app_assoc, lookup_app_r by (rewrite length_app, Hlen; lia).
  rewrite length_app, Hlen, Nat.sub_diag.
  rewrite lookup_drop, Nat.add_0_r. assumption.
Qed.

(** C3. If no line is a begin marker, or no line is an end marker, or the
    first begin marker comes after the first end marker, [buildGraph]
    returns normally, logs the warning and leaves every file as it was. *)
Theorem buildGraph_warns_without_markers this w content :
  files w !! mod_automata this = Some content ->
  (absent isBegin (split LF content)
   \/ absent isEnd (split LF content)
   \/ exists b e, firstAt isBegin (split LF content) b
                  /\ firstAt isEnd (split LF content) e /\ (e < b)%nat) ->
  SpokenModule_buildGraph this w
  = (Ok tt,
     mkWorld (files w)
       (log w ++ [ReadFile (mod_automata this);
                  Warn (js "Could not mount module documentation")])).
Proof.
  intros Hf Hcase. apply (buildGraph_skips this w content Hf).
  destruct Hcase as [H|[H|[b [e [Hb [He Hlt]]]]]].
  - left. apply firstIndex_None. assumption.
  - right. left. apply firstIndex_None. assumption.
  - right. right. exists b, e. repeat split; try assumption;
      apply firstIndex_Some; assumption.
Qed.

Lemma begin_before_end (lines : list jsstring) b e :
  firstIndex isBegin lines = Some b -> firstIndex isEnd lines = Some e ->
  (b <= e)%nat -> (S b <= e)%nat.
Proof.
  intros Hb He Hle.
  apply firstIndex_Some in Hb as [[l [Hl Hpl]] _].
  apply firstIndex_Some in He as [[l' [Hl' Hpl']] _].
  destruct (decide (b = e)) as [->|]; [|lia].
  rewrite Hl in Hl'. injection Hl' as <-.
  apply isBegin_not_isEnd in Hpl. congruence.
Qed.

(** A second run on a composed file finds the markers around the
    generated region and writes the same text again. *)
Lemma buildGraph_recomposes this w content b e :
  Forall (fun c => SLASH ∉ cmd_name c) (mod_commands this) ->
  firstIndex isBegin (split LF content) = Some b ->
  firstIndex isEnd (split LF content) = Some e ->
  (b <= e)%nat ->
  let out := joinStrings [LF] (take (S b) (split LF content)
                               ++ imap transitionLine (mod_commands this)
                               ++ drop e (split LF content)) in
  files w !! mod_automata this = Some out ->
  files (snd (SpokenModule_buildGraph this w)) = <[mod_automata this := out]> (files w).
Proof.
  intros Hnames Hb He Hle out Hf.
  pose proof (begin_before_end _ _ _ Hb He Hle) as Hlt.
  pose proof (firstIndex_length _ _ _ Hb) as Hblen.
  set (mid := concat (List.map (split LF) (imap transitionLine (mod_commands this)))).
  assert (length (take (S b) (split LF content)) = S b) as Hlen
    by (rewrite length_take; lia).
  assert (split LF out = take (S b) (split LF content) ++ mid ++ drop e (split LF content))
    as Hlines by apply split_composed.
  assert (firstIndex isBegin (split LF out) = Some b) as Hb'.
  { rewrite Hlines. apply firstIndex_app_found, firstIndex_take. assumption. }
  assert (firstIndex isEnd (split LF out) = Some (S b + length mid)%nat) as He'.
  { rewrite Hlines.
    rewrite firstIndex_app_absent by (apply (firstIndex_take_absent _ _ e); [assumption|lia]).
    rewrite firstIndex_app_absent.
    2:{ apply pieces_not_isEnd, generated_free; [right; reflexivity|assumption]. }
    rewrite (firstIndex_drop _ _ _ He). simpl. rewrite Hlen. f_equal. lia. }
  rewrite (buildGraph_composes this w out b (S b + length mid)) by (assumption || lia).
  simpl. f_equal. fold out. rewrite !Hlines.
  rewrite take_app_length' by (symmetry; assumption).
  rewrite (app_assoc _ mid), drop_app_length' by (rewrite length_app, Hlen; reflexivity).
  reflexivity.
Qed.

(** C2. Running [buildGraph] on the outcome of a run of [buildGraph],
    with the same commands, leaves every file as the first run left it.
    The names of the commands are names of folders: they hold no slash. *)
Theorem buildGraph_idempotent this w :
  Forall (fun c => SLASH ∉ cmd_name c) (mod_commands this) ->
  files (snd (SpokenModule_buildGraph this (snd (SpokenModule_buildGraph this w))))
  = files (snd (SpokenModule_buildGraph this w)).
Proof.
  intros Hnames.
  destruct (files w !! mod_automata this) as [content|] eqn:Hf.
  2:{ rewrite (buildGraph_missing this w Hf). simpl.
      rewrite buildGraph_missing by (simpl; assumption). reflexivity. }
  destruct (firstIndex isBegin (split LF content)) as [b|] eqn:Hb.
  2:{ rewrite (buildGraph_skips this w content Hf) by auto. simpl.
      rewrite (buildGraph_skips this _ content) by (simpl; auto). reflexivity. }
  destruct (firstIndex isEnd (split LF content)) as [e|] eqn:He.
  2:{ rewrite (buildGraph_skips this w content Hf) by auto. simpl.
      rewrite (buildGraph_skips this _ content) by (simpl; auto). reflexivity. }
  destruct (Nat.le_gt_cases b e) as [Hle|Hgt].
  2:{ rewrite (buildGraph_skips this w content Hf) by (right; right; eauto). simpl.
      rewrite (buildGraph_skips this _ content) by (simpl; try right; try right; eauto).
      reflexivity. }
  rewrite (buildGraph_composes this w content b e Hf Hb He Hle). simpl.
  rewrite (buildGraph_recomposes this _ content b e Hnames Hb He Hle)
    by (simpl; apply lookup_insert_eq).
  simpl. apply insert_insert_eq.
Qed.

(** * The command README: [Command.buildReadme] *)

(** The literals of the README stay folded in what follows. *)
Opaque js.

Lemma join_cons2 sep x y (a : list (option jsstring)) :
  join sep (x :: y :: a) = joinElem x ++ sep ++ join sep (y :: a).
Proof. reflexivity. Qed.

Lemma join_app sep (a b : list (option jsstring)) :
  a <> [] -> b <> [] -> join sep (a ++ b) = join sep a ++ sep ++ join sep b.
Proof.
  induction a as [|x a IH]; intros Ha Hb; [congruence|].
  destruct a as [|y a].
  - destruct b as [|z b]; [congruence|]. reflexivity.
  - change ((x :: y :: a) ++ b) with (x :: y :: (a ++ b)).
    rewrite !join_cons2. change (y :: a ++ b) with ((y :: a) ++ b).
    rewrite IH by (assumption || discriminate).
    rewrite <- !app_assoc. reflexivity.
Qed.

Lemma join_groups sep (groups : list (list (option jsstring))) :
  Forall (fun g => g <> []) groups ->
  join sep (concat groups) = joinStrings sep (List.map (join sep) groups).
Proof.
  induction 1 as [|g groups Hg Hall IH]; [reflexivity|].
  destruct groups as [|g' groups].
  - simpl. rewrite app_nil_r. reflexivity.
  - change (concat (g :: g' :: groups)) with (g ++ concat (g' :: groups)).
    rewrite join_app; [|assumption|].
    + rewrite IH. reflexivity.
    + apply Forall_cons in Hall as [Hg' _]. simpl.
      destruct g'; [congruence|discriminate].
Qed.

Lemma jsstring_eqb_eq s t : jsstring_eqb s t = true <-> s = t.
Proof. unfold jsstring_eqb. apply bool_decide_eq_true. Qed.

Lemma i18n_Ok lang sentences :
  i18n lang = Ok sentences ->
  lang = Some (js "en-US") \/ lang = Some (js "pt-BR").
Proof.
  unfold i18n. destruct lang as [l|]; [|discriminate].
  destruct (jsstring_eqb l (js "en-US")) eqn:Hen.
  - apply jsstring_eqb_eq in Hen. subst. auto.
  - destruct (jsstring_eqb l (js "pt-BR")) eqn:Hpt; [|discriminate].
    apply jsstring_eqb_eq in Hpt. subst. auto.
Qed.

Lemma i18n_supported automata :
  supportedLang automata -> exists sentences, i18n (aut_lang automata) = Ok sentences.
Proof.
  intros [->| ->]; [exists en_US|exists pt_BR]; reflexivity.
Qed.

(** The five strings that one turn of the loop of [buildLangSection]
    pushes. *)
Lemma pushLangSection_Ok text automata text' :
  pushLangSection text automata = Ok text' ->
  exists sentences phrases,
    i18n (aut_lang automata) = Ok sentences
    /\ aut_phrases automata = Some phrases
    /\ text' = text ++
         [Some (js "#### " ++ toStr (aut_langName automata));
          Some (i18n_automata sentences (toStr (aut_title automata)));
          Some (js "![" ++ toStr (aut_langName automata) ++ js "]("
                ++ aut_relativeImagePath automata ++ js ")");
          Some (i18n_phrases sentences (toStr (aut_title automata)));
          Some (joinStrings [LF] (imap numbered phrases))].
Proof.
  unfold pushLangSection.
  destruct (i18n (aut_lang automata)) as [sentences|]; [|discriminate].
  destruct (aut_phrases automata) as [phrases|]; [|discriminate].
  intros [= <-]. exists sentences, phrases.
  repeat split. rewrite <- !app_assoc. reflexivity.
Qed.

Lemma pushLangSection_Throw text automata e :
  pushLangSection text automata = Throw e -> e = TypeError.
Proof.
  unfold pushLangSection, i18n.
  destruct (aut_lang automata) as [l|]; [|congruence].
  destruct (jsstring_eqb l (js "en-US")).
  - destruct (aut_phrases automata); congruence.
  - destruct (jsstring_eqb l (js "pt-BR")); [|congruence].
    destruct (aut_phrases automata); congruence.
Qed.

Lemma langSectionLoop_Throw automatas text e :
  langSectionLoop text automatas = Throw e -> e = TypeError.
Proof.
  revert text. induction automatas as [|a rest IH]; intros text; simpl; [discriminate|].
  destruct (pushLangSection text a) as [text'|e'] eqn:Hpush.
  - apply IH.
  - intros [= <-]. exact (pushLangSection_Throw _ _ _ Hpush).
Qed.

Lemma langSectionLoop_Ok automatas text text' :
  langSectionLoop text automatas = Ok text' ->
  exists groups,
    text' = text ++ concat groups
    /\ Forall (fun g => g <> []) groups
    /\ Forall2 (fun a g => isLangSection a (join PARAGRAPH g)) automatas groups.
Proof.
  revert text. induction automatas as [|a rest IH]; intros text; simpl.
  - intros [= <-]. exists []. simpl. rewrite app_nil_r. repeat constructor.
  - destruct (pushLangSection text a) as [text1|] eqn:Hpush; [|discriminate].
    intros Hloop. apply IH in Hloop as [groups [-> [Hne Hall]]].
    apply pushLangSection_Ok in Hpush as [sentences [phrases [Hs [Hp ->]]]].
    exists ([Some (js "#### " ++ toStr (aut_langName a));
             Some (i18n_automata sentences (toStr (aut_title a)));
             Some (js "![" ++ toStr (aut_langName a) ++ js "]("
                   ++ aut_relativeImagePath a ++ js ")");
             Some (i18n_phrases sentences (toStr (aut_title a)));
             Some (joinStrings [LF] (imap numbered phrases))] :: groups).
    split; [cbn [concat]; rewrite <- !app_assoc; reflexivity|].
    split; [constructor; [discriminate|assumption]|].
    constructor; [|assumption].
    exists sentences, phrases, (imap numbered phrases).
    split; [assumption|]. split; [assumption|].
    split; [apply length_imap|].
    split.
    { intros i p Hi. rewrite list_lookup_imap. apply fmap_Some.
      exists p. split; [exact Hi|reflexivity]. }
    cbn [join joinElem]. rewrite <- !app_assoc. reflexivity.
Qed.

Lemma langSectionLoop_total automatas text :
  Forall supportedLang automatas ->
  Forall (fun a => aut_phrases a <> None) automatas ->
  exists text', langSectionLoop text automatas = Ok text'.
Proof.
  intros Hlang. revert text.
  induction Hlang as [|a rest Ha _ IH]; intros text Hphr; simpl; [eauto|].
  apply Forall_cons in Hphr as [Hp Hphr].
  unfold pushLangSection.
  destruct (i18n_supported a Ha) as [sentences ->].
  destruct (aut_phrases a) as [phrases|]; [|congruence].
  apply IH. assumption.
Qed.

Lemma find_Some {A} (p : A -> bool) a x :
  find p a = Some x -> x ∈ a /\ p x = true.
Proof.
  induction a as [|y a IH]; simpl; [discriminate|].
  destruct (p y) eqn:Hy.
  - intros [= <-]. split; [left|assumption].
  - intros H. apply IH in H as [Hin Hp]. split; [right|]; assumption.
Qed.

Lemma find_None {A} (p : A -> bool) a :
  find p a = None -> Forall (fun x => p x = false) a.
Proof.
  induction a as [|y a IH]; simpl; [constructor|].
  destruct (p y) eqn:Hy; [discriminate|]. intros H. constructor; auto.
Qed.

Lemma isEnUS_lang a : isEnUS a = true <-> aut_lang a = Some (js "en-US").
Proof.
  unfold isEnUS. destruct (aut_lang a) as [l|].
  - rewrite jsstring_eqb_eq. split; [intros ->; reflexivity|intros [= ->]; reflexivity].
  - split; discriminate.
Qed.

Lemma substr_prefix s (n : nat) : substr s 0 (Z.of_nat n) = take n s.
Proof.
  unfold substr. simpl (0 <? 0)%Z. cbv iota.
  rewrite (Z.min_l 0) by lia. rewrite Z.sub_0_r, drop_0.
  rewrite Z.max_l by lia. rewrite <- Nat2Z.inj_min, Nat2Z.id.
  apply take_min_length.
Qed.

(** The text of a command README, piece by piece. *)
Lemma buildReadme_shape this md :
  Command_buildReadme this = Ok md ->
  exists autom sections,
    find isEnUS (cmd_automatas this) = Some autom
    /\ Forall2 isLangSection (cmd_automatas this) sections
    /\ md =
       js "## " ++ toStr (aut_title autom) ++ PARAGRAPH
       ++ joinElem (aut_desc autom) ++ PARAGRAPH
       ++ js "### Languages" ++ PARAGRAPH
       ++ js "This command is available in the following languages" ++ PARAGRAPH
       ++ joinStrings PARAGRAPH sections ++ PARAGRAPH
       ++ js "### Implementation" ++ PARAGRAPH
       ++ js "The full implementation of this command can be found on this directory under the file [impl.ts](impl.ts)"
       ++ PARAGRAPH
       ++ js "```typescript" ++ [LF] ++ take 300 (cmd_code this) ++ PARAGRAPH
       ++ js "(...)" ++ [LF] ++ js "```".
Proof.
  unfold Command_buildReadme, Command_buildLangSection.
  destruct (find isEnUS (cmd_automatas this)) as [autom|]; [|discriminate].
  destruct (langSectionLoop [] (cmd_automatas this)) as [text|] eqn:Hloop; [|discriminate].
  intros [= <-].
  apply langSectionLoop_Ok in Hloop as [groups [-> [Hne Hall]]].
  exists autom, (List.map (join PARAGRAPH) groups).
  split; [reflexivity|].
  split.
  { clear Hne. induction Hall; simpl; constructor; assumption. }
  cbn [app]. rewrite join_groups by assumption.
  cbn [join joinElem].
  change 300%Z with (Z.of_nat 300). rewrite substr_prefix.
  rewrite <- !app_assoc. reflexivity.
Qed.

Lemma buildReadme_Throw this e :
  Command_buildReadme this = Throw e -> e = TypeError.
Proof.
  unfold Command_buildReadme, Command_buildLangSection.
  destruct (find isEnUS (cmd_automatas this)); [|congruence].
  destruct (langSectionLoop [] (cmd_automatas this)) eqn:Hloop; [discriminate|].
  intros [= <-]. exact (langSectionLoop_Throw _ _ _ Hloop).
Qed.

Lemma buildReadme_needs this md :
  Command_buildReadme this = Ok md -> readmePrecondition this.
Proof.
  intros H. apply buildReadme_shape in H as [autom [sections [Hfind [Hall _]]]].
  split.
  - apply find_Some in Hfind as [Hin Hen]. exists autom.
    split; [assumption|]. apply isEnUS_lang. assumption.
  - clear Hfind. induction Hall as [|a s l ls Hs _ IH]; constructor; [|assumption].
    destruct Hs as [sentences [_ [_ [Hi _]]]]. exact (i18n_Ok _ _ Hi).
Qed.

(** C9. [Command.buildReadme] returns Markdown only for a command that
    has an automaton whose language is en-US and whose automata all have
    the language en-US or pt-BR; for any other command it throws; and for
    such a command whose phrase lists are stored it does return. *)
Theorem buildReadme_precondition this :
  (forall md, Command_buildReadme this = Ok md -> readmePrecondition this)
  /\ (~ readmePrecondition this -> Command_buildReadme this = Throw TypeError)
  /\ (readmePrecondition this ->
      Forall (fun a => aut_phrases a <> None) (cmd_automatas this) ->
      exists md, Command_buildReadme this = Ok md).
Proof.
  split; [apply buildReadme_needs|]. split.
  - intros Hnot. destruct (Command_buildReadme this) as [md|e] eqn:H.
    + apply buildReadme_needs in H. contradiction.
    + apply buildReadme_Throw in H. congruence.
  - intros [[a [Hin Hen]] Hlang] Hphr.
    unfold Command_buildReadme, Command_buildLangSection.
    destruct (find isEnUS (cmd_automatas this)) as [autom|] eqn:Hfind.
    + destruct (langSectionLoop_total (cmd_automatas this) [] Hlang Hphr) as [text ->].
      eauto.
    + apply find_None in Hfind. rewrite Forall_forall in Hfind.
      apply isEnUS_lang in Hen. rewrite (Hfind a Hin) in Hen. discriminate.
Qed.

(** X25. For a command that has an en-US automaton, whose automata are
    all en-US or pt-BR and have their phrases stored, [buildReadme]
    returns, and the README is the heading and the description of the
    first en-US automaton, the introduction, one localized section per
    automaton, in the order of the automata and none dropped, and the
    implementation excerpt. *)
Theorem buildReadme_sections this :
  readmePrecondition this ->
  Forall (fun a => aut_phrases a <> None) (cmd_automatas this) ->
  exists autom sections md,
    Command_buildReadme this = Ok md
    /\ find isEnUS (cmd_automatas this) = Some autom
    /\ Forall2 isLangSection (cmd_automatas this) sections
    /\ md =
       js "## " ++ toStr (aut_title autom) ++ PARAGRAPH
       ++ joinElem (aut_desc autom) ++ PARAGRAPH
       ++ js "### Languages" ++ PARAGRAPH
       ++ js "This command is available in the following languages" ++ PARAGRAPH
       ++ joinStrings PARAGRAPH sections ++ PARAGRAPH
       ++ js "### Implementation" ++ PARAGRAPH
       ++ js "The full implementation of this command can be found on this directory under the file [impl.ts](impl.ts)"
       ++ PARAGRAPH
       ++ js "```typescript" ++ [LF] ++ take 300 (cmd_code this) ++ PARAGRAPH
       ++ js "(...)" ++ [LF] ++ js "```".
Proof.
  intros [[a [Hin Hen]] Hlang] Hphr.
  destruct (Command_buildReadme this) as [md|e] eqn:Hmd.
  - destruct (buildReadme_shape this md Hmd) as [autom [sections [Hfind [Hall Hshape]]]].
    exists autom, sections, md. auto.
  - exfalso. unfold Command_buildReadme, Command_buildLangSection in Hmd.
    destruct (find isEnUS (cmd_automatas this)) as [autom|] eqn:Hfind.
    + destruct (langSectionLoop_total (cmd_automatas this) [] Hlang Hphr) as [text Htext].
      rewrite Htext in Hmd. discriminate.
    + apply find_None in Hfind. rewrite Forall_forall in Hfind.
      apply isEnUS_lang in Hen. rewrite (Hfind a Hin) in Hen. discriminate.
Qed.

(** * The pipeline: [main] *)

Lemma dedupFrom_fresh seen l x : x ∈ dedupFrom seen l -> (x ∉ seen) /\ (x ∈ l).
Proof.
  revert seen. induction l as [|y l IH]; intros seen; simpl.
  - intros H. apply elem_of_nil in H. contradiction.
  - destruct (bool_decide (y ∈ seen)) eqn:Hy.
    + intros H. apply IH in H as [Hs Hl]. split; [assumption|right; assumption].
    + apply bool_decide_eq_false in Hy.
      intros [->|H]%elem_of_cons; [split; [assumption|left]|].
      apply IH in H as [Hs Hl]. split; [|right; assumption].
      intros Hin. apply Hs. right. assumption.
Qed.

Lemma dedupFrom_NoDup seen l : NoDup (dedupFrom seen l).
Proof.
  revert seen. induction l as [|y l IH]; intros seen; simpl; [constructor|].
  destruct (bool_decide (y ∈ seen)); [apply IH|].
  constructor; [|apply IH].
  intros Hin. apply dedupFrom_fresh in Hin as [Hs _]. apply Hs. left.
Qed.

Lemma dedup_NoDup l : NoDup (dedup l).
Proof. apply dedupFrom_NoDup. Qed.

Lemma dedupFrom_complete seen l x : x ∈ l -> x ∉ seen -> x ∈ dedupFrom seen l.
Proof.
  revert seen. induction l as [|y l IH]; intros seen Hl Hs; simpl.
  - apply elem_of_nil in Hl. contradiction.
  - apply elem_of_cons in Hl as [->|Hl].
    + destruct (bool_decide (y ∈ seen)) eqn:Hy; [|left].
      apply bool_decide_eq_true in Hy. contradiction.
    + destruct (bool_decide (y ∈ seen)) eqn:Hy; [apply IH; assumption|].
      destruct (decide (x = y)) as [->|Hne]; [left|].
      right. apply IH; [assumption|].
      intros [?|?]%elem_of_cons; contradiction.
Qed.

Lemma bind_Ok {A B} (c : M A) (k : A -> M B) w b w' :
  bind c k w = (Ok b, w') ->
  exists a w1, c w = (Ok a, w1) /\ k a w1 = (Ok b, w').
Proof.
  unfold bind. destruct (c w) as [[a|e] w1]; [eauto|discriminate].
Qed.

Lemma bind_Throw {A B} (c : M A) (k : A -> M B) w e w' :
  c w = (Throw e, w') -> bind c k w = (Throw e, w').
Proof. unfold bind. intros ->. reflexivity. Qed.

Lemma bind_step {A B} (c : M A) (k : A -> M B) w a w1 :
  c w = (Ok a, w1) -> bind c k w = k a w1.
Proof. unfold bind. intros ->. reflexivity. Qed.

Lemma lift_Ok {A} (o : Outcome A) w a w' :
  lift o w = (Ok a, w') -> o = Ok a /\ w' = w.
Proof. unfold lift. intros [= -> ->]. auto. Qed.

Lemma Forall2_right {A B} (R : A -> B -> Prop) (P : B -> Prop) l l' :
  Forall2 R l l' -> (forall x y, R x y -> P y) -> Forall P l'.
Proof.
  intros H HRP. induction H; constructor; eauto.
Qed.

(** A loop that returns has run its body on every element, each turn
    from the world the turn before left. *)
Lemma forOf_Ok {A B} (body : A -> M B) a w r w' :
  forOf body a w = (Ok r, w') ->
  Forall2 (fun x y => exists w1 w2, body x w1 = (Ok y, w2)) a r.
Proof.
  revert w r. induction a as [|x a IH]; intros w r; simpl.
  - intros [= <- <-]. constructor.
  - intros H. apply bind_Ok in H as [y [w1 [Hx H]]].
    apply bind_Ok in H as [ys [w2 [Hrest H]]].
    injection H as <- <-. constructor; [eauto|]. exact (IH _ _ Hrest).
Qed.

(** A throw of the body ends the loop there, with the world of the
    throw. *)
Lemma forOf_throws {A B} (body : A -> M B) before x after w r w1 e w2 :
  forOf body before w = (Ok r, w1) ->
  body x w1 = (Throw e, w2) ->
  forOf body (before ++ x :: after) w = (Throw e, w2).
Proof.
  revert w r. induction before as [|y before IH]; intros w r; simpl.
  - intros [= <- <-] Hx. apply bind_Throw. assumption.
  - intros H Hx. apply bind_Ok in H as [y' [w' [Hy H]]].
    apply bind_Ok in H as [ys [w'' [Hrest H]]]. injection H as <- <-.
    rewrite (bind_step _ _ _ _ _ Hy).
    apply bind_Throw. exact (IH _ _ Hrest Hx).
Qed.

(** ** What the steps write to the log *)

Lemma emits_ret {A} P (a : A) : emits P (ret a).
Proof. intros w. exists []. rewrite app_nil_r. split; [reflexivity|constructor]. Qed.

Lemma emits_lift {A} P (o : Outcome A) : emits P (lift o).
Proof. intros w. exists []. rewrite app_nil_r. split; [reflexivity|constructor]. Qed.

Lemma emits_bind {A B} P (c : M A) (k : A -> M B) :
  emits P c -> (forall a, emits P (k a)) -> emits P (bind c k).
Proof.
  intros Hc Hk w. unfold bind. destruct (Hc w) as [l [Hl HP]].
  destruct (c w) as [[a|e] w1]; simpl in Hl.
  - destruct (Hk a w1) as [l' [Hl' HP']]. exists (l ++ l').
    rewrite Hl', Hl, app_assoc. split; [reflexivity|].
    apply Forall_app. auto.
  - exists l. auto.
Qed.

Lemma emits_weaken {A} (P Q : Event -> Prop) (c : M A) :
  (forall ev, P ev -> Q ev) -> emits P c -> emits Q c.
Proof.
  intros HPQ Hc w. destruct (Hc w) as [l [Hl HP]]. exists l.
  split; [assumption|]. eapply Forall_impl; eauto.
Qed.

Lemma emits_readFileSync P path : P (ReadFile path) -> emits P (readFileSync path).
Proof.
  intros HP w. exists [ReadFile path]. unfold readFileSync.
  destruct (files w !! path); simpl; (split; [reflexivity|repeat constructor; assumption]).
Qed.

Lemma emits_writeFileSync P path content :
  P (WriteFile path content) -> emits P (writeFileSync path content).
Proof.
  intros HP w. exists [WriteFile path content]. simpl.
  split; [reflexivity|repeat constructor; assumption].
Qed.

Lemma emits_console_warn P message : P (Warn message) -> emits P (console_warn message).
Proof.
  intros HP w. exists [Warn message]. simpl.
  split; [reflexivity|repeat constructor; assumption].
Qed.

Lemma emits_forOf {A B} P (body : A -> M B) a :
  (forall x, x ∈ a -> emits P (body x)) -> emits P (forOf body a).
Proof.
  induction a as [|x a IH]; intros Hbody; simpl; [apply emits_ret|].
  apply emits_bind; [apply Hbody; left|]. intros y.
  apply emits_bind; [apply IH; intros z Hz; apply Hbody; right; assumption|].
  intros ys. apply emits_ret.
Qed.

Lemma emits_buildGraph this : emits (moduleEvent this) (SpokenModule_buildGraph this).
Proof.
  unfold SpokenModule_buildGraph.
  apply emits_bind; [apply emits_readFileSync; left; reflexivity|]. intros content.
  destruct (_ || _ || _).
  - apply emits_console_warn. right. right. left. reflexivity.
  - apply emits_writeFileSync. right. left. eauto.
Qed.

(** A loop that returns has, for every element, logged an event that
    its body logs whenever it returns. *)
Lemma forOf_done {A B} (E : A -> Event -> Prop) (body : A -> M B) :
  (forall x, emits (fun _ => True) (body x)) ->
  (forall x w y w', body x w = (Ok y, w') ->
     exists l, log w' = log w ++ l /\ Exists (E x) l) ->
  forall a w r w', forOf body a w = (Ok r, w') ->
    exists l, log w' = log w ++ l /\ forall x, x ∈ a -> Exists (E x) l.
Proof.
  intros Hemits Hdone. induction a as [|x a IH]; intros w r w'; simpl.
  - intros [= <- <-]. exists []. rewrite app_nil_r. split; [reflexivity|].
    intros x Hx. apply elem_of_nil in Hx. contradiction.
  - intros H. apply bind_Ok in H as [y [w1 [Hx H]]].
    apply bind_Ok in H as [ys [w2 [Hrest H]]]. injection H as <- <-.
    destruct (Hdone _ _ _ _ Hx) as [l1 [Hl1 He1]].
    destruct (IH _ _ _ Hrest) as [l2 [Hl2 He2]].
    exists (l1 ++ l2). rewrite Hl2, Hl1, app_assoc. split; [reflexivity|].
    intros z [->|Hz]%elem_of_cons; apply Exists_app; [left|right; apply He2]; assumption.
Qed.

(** The log of a loop, turn by turn. *)
Lemma forOf_segments {A B} (Q : A -> list Event -> Prop) (body : A -> M B) :
  (forall x w, exists l, log (snd (body x w)) = log w ++ l /\ Q x l) ->
  forall a w, exists ls,
    log (snd (forOf body a w)) = log w ++ concat ls
    /\ Forall2 Q (take (length ls) a) ls
    /\ (forall r, fst (forOf body a w) = Ok r -> length ls = length a).
Proof.
  intros Hbody. induction a as [|x a IH]; intros w; simpl.
  - exists []. simpl. rewrite app_nil_r.
    split; [reflexivity|]. split; [constructor|reflexivity].
  - destruct (Hbody x w) as [l [Hl HQ]].
    destruct (body x w) as [[y|e] w1] eqn:Hx; simpl in Hl.
    + rewrite (bind_step _ _ _ _ _ Hx).
      destruct (IH w1) as [ls [Hls [Hall Hlen]]]. exists (l :: ls).
      destruct (forOf body a w1) as [[ys|e] w2] eqn:Hrest; simpl in Hls.
      * rewrite (bind_step _ _ _ _ _ Hrest). simpl.
        rewrite Hls, Hl, app_assoc.
        split; [reflexivity|]. split; [constructor; assumption|].
        intros r _. f_equal. apply (Hlen ys). reflexivity.
      * rewrite (bind_Throw _ _ _ _ _ Hrest). simpl.
        rewrite Hls, Hl, app_assoc.
        split; [reflexivity|]. split; [constructor; assumption|].
        intros r Hr. discriminate Hr.
    + rewrite (bind_Throw _ _ _ _ _ Hx). exists [l]. simpl. rewrite app_nil_r.
      split; [assumption|]. split; [|intros r Hr; discriminate Hr].
      rewrite take_0. repeat constructor. assumption.
Qed.

Section PipelineFacts.

Context (Graph : Type) (dot_read : jsstring -> Outcome Graph)
        (graphAttribute : Graph -> jsstring -> option jsstring)
        (Templates : Type)
        (candidatePhrases : Graph -> Templates -> Outcome (list jsstring))
        (renderDot : jsstring -> option jsstring).

Local Abbreviation enumerate := (allRecognizablePhrases Graph Templates candidatePhrases).
Local Abbreviation doAutomata := (processAutomata Graph dot_read graphAttribute Templates
                                candidatePhrases renderDot).
Local Abbreviation doCommand := (processCommand Graph dot_read graphAttribute Templates
                               candidatePhrases renderDot).
Local Abbreviation doModule := (processModule Graph dot_read graphAttribute Templates
                              candidatePhrases renderDot).
Local Abbreviation loop := (mainLoop Graph dot_read graphAttribute Templates
                          candidatePhrases renderDot).

Lemma emits_automataToImage P path image :
  P (Render path image) -> emits P (automataToImage renderDot path image).
Proof.
  intros HP w. exists [Render path image]. unfold automataToImage.
  destruct (files w !! path) as [text|]; [destruct (renderDot text)|]; simpl;
    (split; [reflexivity|repeat constructor; assumption]).
Qed.

Lemma emits_processAutomata templates command automata :
  automata ∈ cmd_automatas command ->
  emits (commandEvent command) (doAutomata templates automata).
Proof.
  intros Hin. unfold processAutomata.
  apply emits_bind; [apply emits_automataToImage; left; eauto|]. intros _.
  apply emits_bind; [apply emits_readFileSync; left; eauto|]. intros content.
  apply emits_bind; [apply emits_lift|]. intros graph.
  apply emits_bind; [apply emits_lift|]. intros phrases.
  apply emits_ret.
Qed.

Lemma emits_processCommand templates command :
  emits (commandEvent command) (doCommand templates command).
Proof.
  unfold processCommand.
  apply emits_bind; [apply emits_forOf; intros a Ha; apply emits_processAutomata; exact Ha|].
  intros automatas.
  apply emits_bind; [apply emits_lift|]. intros readme.
  apply emits_bind; [apply emits_writeFileSync; right; simpl; eauto|]. intros _.
  apply emits_ret.
Qed.

(** A command whose loop body returns has had its README written, from
    the automata that the body returns. *)
Lemma processCommand_Ok templates command w command' w' :
  doCommand templates command w = (Ok command', w') ->
  exists automatas w1 md,
    forOf (doAutomata templates) (cmd_automatas command) w = (Ok automatas, w1)
    /\ command' = setAutomatas command automatas
    /\ Command_buildReadme command' = Ok md
    /\ w' = mkWorld (<[cmd_readme command := md]> (files w1))
              (log w1 ++ [WriteFile (cmd_readme command) md]).
Proof.
  unfold processCommand. intros H.
  apply bind_Ok in H as [automatas [w1 [Hloop H]]].
  apply bind_Ok in H as [md [w2 [Hmd H]]].
  apply lift_Ok in Hmd as [Hmd ->].
  apply bind_Ok in H as [[] [w3 [Hwrite H]]].
  injection H as <- <-. injection Hwrite as <-.
  exists automatas, w1, md. auto.
Qed.

Lemma processCommand_done templates command w command' w' :
  doCommand templates command w = (Ok command', w') ->
  exists l, log w' = log w ++ l
            /\ Exists (fun ev => exists md, ev = WriteFile (cmd_readme command) md) l.
Proof.
  intros H. apply processCommand_Ok in H as [automatas [w1 [md [Hloop [_ [_ ->]]]]]].
  assert (emits (fun _ => True) (forOf (doAutomata templates) (cmd_automatas command)))
    as Hemits.
  { apply emits_forOf. intros a Ha.
    eapply emits_weaken; [|apply (emits_processAutomata templates command a Ha)]. auto. }
  destruct (Hemits w) as [l [Hl _]]. rewrite Hloop in Hl. simpl in Hl.
  exists (l ++ [WriteFile (cmd_readme command) md]). simpl.
  rewrite Hl, app_assoc. split; [reflexivity|].
  apply Exists_app. right. constructor. eauto.
Qed.

Lemma emits_moduleSteps (moduleA : SpokenModule) :
  emits (moduleEvent moduleA)
    (bind (SpokenModule_buildGraph moduleA) (fun _ =>
     bind (automataToImage renderDot (mod_automata moduleA) (mod_image moduleA)) (fun _ =>
     bind (SpokenModule_buildReadme Graph dot_read graphAttribute moduleA) (fun built =>
     bind (writeFileSync (mod_readme moduleA) (fst built)) (fun _ =>
     ret (snd built)))))).
Proof.
  apply emits_bind; [apply emits_buildGraph|]. intros _.
  apply emits_bind; [apply emits_automataToImage; do 3 right; left; reflexivity|].
  intros _. apply emits_bind.
  - unfold SpokenModule_buildReadme.
    apply emits_bind; [apply emits_readFileSync; left; reflexivity|]. intros content.
    apply emits_bind; [apply emits_lift|]. intros parsed.
    apply emits_bind; [apply emits_lift|]. intros readmes.
    apply emits_ret.
  - intros built.
    apply emits_bind; [apply emits_writeFileSync; do 4 right; eauto|]. intros _.
    apply emits_ret.
Qed.

Lemma enumerate_NoDup graph templates enumerated :
  enumerate graph templates = Ok enumerated -> NoDup enumerated.
Proof.
  unfold allRecognizablePhrases.
  destruct (candidatePhrases graph templates); [|discriminate].
  intros [= <-]. apply dedup_NoDup.
Qed.

Context (path_resolve : list jsstring -> jsstring)
        (listArchives : ArchiveKind -> World -> jsstring -> option (jsstring -> bool)
                        -> Outcome (list jsstring)).

(** C8. The README of a command ends with the implementation excerpt:
    the first 300 code units of the text of the command's source file
    [impl.ts], as the constructor read it, followed by the ellipsis
    marker. *)
Theorem readme_excerpt name dir w this w' automatas md :
  Command_new path_resolve listArchives name dir w = (Ok this, w') ->
  Command_buildReadme (setAutomatas this automatas) = Ok md ->
  exists source before,
    files w !! path_resolve [path_resolve [dir; name]; js "impl.ts"] = Some source
    /\ md = before ++ js "```typescript" ++ [LF] ++ take 300 source
            ++ PARAGRAPH ++ js "(...)" ++ [LF] ++ js "```".
Proof.
  unfold Command_new. intros Hnew Hmd.
  apply bind_Ok in Hnew as [code [w1 [Hread Hnew]]].
  apply bind_Ok in Hnew as [ats [w2 [_ Hnew]]]. injection Hnew as <- <-.
  unfold readFileSync in Hread.
  destruct (files w !! path_resolve [path_resolve [dir; name]; js "impl.ts"])
    as [source|]; [|discriminate].
  injection Hread as <- <-.
  apply buildReadme_shape in Hmd as [autom [sections [_ [_ ->]]]].
  exists source. eexists. split; [reflexivity|]. simpl cmd_code.
  rewrite !(app_assoc _ _ (js "```typescript" ++ _)). reflexivity.
Qed.

End PipelineFacts.

(** ** Loops, turn by turn *)

Lemma forOf_cons_world {A B} (body : A -> M B) x a w y w1 :
  body x w = (Ok y, w1) ->
  snd (forOf body (x :: a) w) = snd (forOf body a w1).
Proof.
  intros Hx. simpl. rewrite (bind_step _ _ _ _ _ Hx).
  unfold bind. destruct (forOf body a w1) as [[ys|e] w2]; reflexivity.
Qed.

(** In a loop that returns, turn [k] runs the body on element [k], from
    the world that the turns before it leave, and returns result [k]. *)
Lemma forOf_lookup {A B} (body : A -> M B) a w r w' :
  forOf body a w = (Ok r, w') ->
  forall k x, a !! k = Some x ->
    exists y, r !! k = Some y
      /\ forOf body (take k a) w = (Ok (take k r), snd (forOf body (take k a) w))
      /\ body x (snd (forOf body (take k a) w))
         = (Ok y, snd (forOf body (take (S k) a) w)).
Proof.
  revert w r. induction a as [|x0 a IH]; intros w r H k x Hk; [discriminate|].
  simpl in H. apply bind_Ok in H as [y0 [w1 [Hx0 H]]].
  apply bind_Ok in H as [ys [w2 [Hrest H]]]. injection H as <- <-.
  destruct k as [|k].
  - injection Hk as <-. exists y0. split; [reflexivity|]. split; [reflexivity|].
    cbn [take forOf]. rewrite (bind_step _ _ _ _ _ Hx0). exact Hx0.
  - simpl in Hk. destruct (IH _ _ Hrest k x Hk) as [y [Hy [Hbefore Hbody]]].
    exists y. split; [exact Hy|].
    change (take (S k) (x0 :: a)) with (x0 :: take k a).
    change (take (S (S k)) (x0 :: a)) with (x0 :: take (S k) a).
    rewrite !(forOf_cons_world body x0 _ w y0 w1 Hx0).
    split; [|exact Hbody].
    simpl. rewrite (bind_step _ _ _ _ _ Hx0). unfold bind.
    destruct (forOf body (take k a) w1) as [o u]. simpl in Hbefore.
    injection Hbefore as ->. reflexivity.
Qed.

Lemma forOf_length {A B} (body : A -> M B) a w r w' :
  forOf body a w = (Ok r, w') -> length r = length a.
Proof.
  intros H. apply forOf_Ok in H. symmetry. exact (Forall2_length _ _ _ H).
Qed.

(** The log of a loop that returns, when the body logs a trace that its
    element fixes. *)
Lemma forOf_trace {A B} (T : A -> list Event) (body : A -> M B) :
  (forall x w y w', body x w = (Ok y, w') -> log w' = log w ++ T x) ->
  forall a w r w', forOf body a w = (Ok r, w') ->
    log w' = log w ++ concat (List.map T a).
Proof.
  intros Hbody. induction a as [|x a IH]; intros w r w' H; simpl in *.
  - injection H as <- <-. rewrite app_nil_r. reflexivity.
  - apply bind_Ok in H as [y [w1 [Hx H]]].
    apply bind_Ok in H as [ys [w2 [Hrest H]]]. injection H as <- <-.
    rewrite (IH _ _ _ Hrest), (Hbody _ _ _ _ Hx), <- app_assoc. reflexivity.
Qed.

Section BuildOrder.

Context (Graph : Type) (dot_read : jsstring -> Outcome Graph)
        (graphAttribute : Graph -> jsstring -> option jsstring)
        (Templates : Type)
        (candidatePhrases : Graph -> Templates -> Outcome (list jsstring))
        (renderDot : jsstring -> option jsstring).

Local Abbreviation enumerate := (allRecognizablePhrases Graph Templates candidatePhrases).
Local Abbreviation doAutomata := (processAutomata Graph dot_read graphAttribute Templates
                                candidatePhrases renderDot).
Local Abbreviation doCommand := (processCommand Graph dot_read graphAttribute Templates
                               candidatePhrases renderDot).
Local Abbreviation doModule := (processModule Graph dot_read graphAttribute Templates
                              candidatePhrases renderDot).
Local Abbreviation loop := (mainLoop Graph dot_read graphAttribute Templates
                          candidatePhrases renderDot).

Lemma automataToImage_log path image w :
  log (snd (automataToImage renderDot path image w)) = log w ++ [Render path image].
Proof.
  unfold automataToImage.
  destruct (files w !! path) as [text|]; [destruct (renderDot text)|]; reflexivity.
Qed.

(** One turn of the innermost loop that returns: the description is
    rendered, then read; what is read is parsed and enumerated, and the
    first 16 phrases are stored with the attributes of the graph. *)
Lemma processAutomata_run templates automata w automata' w' :
  doAutomata templates automata w = (Ok automata', w') ->
  exists content graph enumerated,
    files (snd (automataToImage renderDot (aut_path automata) (aut_image automata) w))
      !! aut_path automata = Some content
    /\ dot_read content = Ok graph
    /\ enumerate graph templates = Ok enumerated
    /\ automata' = {| aut_path := aut_path automata;
                      aut_image := aut_image automata;
                      aut_relativeImagePath := aut_relativeImagePath automata;
                      aut_phrases := Some (take 16 enumerated);
                      aut_title := graphAttribute graph (js "title");
                      aut_desc := graphAttribute graph (js "desc");
                      aut_langName := graphAttribute graph (js "langName");
                      aut_lang := graphAttribute graph (js "lang") |}
    /\ log w' = log w ++ automataTrace automata.
Proof.
  unfold processAutomata. intros H.
  apply bind_Ok in H as [[] [w1 [Himage H]]].
  apply bind_Ok in H as [content [w2 [Hread H]]].
  apply bind_Ok in H as [graph [w3 [Hgraph H]]]. apply lift_Ok in Hgraph as [Hgraph ->].
  apply bind_Ok in H as [enumerated [w4 [Henum H]]]. apply lift_Ok in Henum as [Henum ->].
  injection H as <- <-.
  pose proof (automataToImage_log (aut_path automata) (aut_image automata) w) as Hlog.
  rewrite Himage in *. simpl in Hlog. simpl.
  unfold readFileSync in Hread.
  destruct (files w1 !! aut_path automata) as [text|] eqn:Hf; [|discriminate].
  injection Hread as <- <-.
  exists text, graph, enumerated.
  split; [reflexivity|]. split; [assumption|]. split; [assumption|].
  split.
  - change 16%Z with (Z.of_nat 16). rewrite slice_cap. reflexivity.
  - simpl. rewrite Hlog, <- app_assoc. reflexivity.
Qed.

Lemma processAutomata_stored templates automata w automata' w' :
  doAutomata templates automata w = (Ok automata', w') -> storedFrom automata automata'.
Proof.
  intros H. apply processAutomata_run in H as [content [graph [enumerated [_ [_ [_ [-> _]]]]]]].
  repeat (split; [reflexivity|]). exists (take 16 enumerated).
  split; [reflexivity|]. rewrite length_take. lia.
Qed.

(** A command whose loop body returns has had its README written, from
    the automata that the body returns. *)
Lemma processAutomata_log templates automata w automata' w' :
  doAutomata templates automata w = (Ok automata', w') ->
  log w' = log w ++ automataTrace automata.
Proof.
  intros H.
  apply processAutomata_run in H as [content [graph [enumerated [_ [_ [_ [_ Hlog]]]]]]].
  exact Hlog.
Qed.

(** A command whose loop body returns: its automata were rendered and
    read in order and their phrases stored, then its README, built from
    them, was written. *)
Lemma processCommand_trace templates command w command' w' :
  doCommand templates command w = (Ok command', w') ->
  exists md, Command_buildReadme command' = Ok md
             /\ processedFrom command command'
             /\ log w' = log w ++ commandTrace command md.
Proof.
  intros H. apply processCommand_Ok in H as [automatas [w1 [md [Hloop [-> [Hmd ->]]]]]].
  exists md. split; [assumption|]. split.
  - split; [reflexivity|]. simpl. apply forOf_Ok in Hloop.
    eapply Forall2_impl; [exact Hloop|]. intros a a' [u [u' Ha]].
    exact (processAutomata_stored _ _ _ _ _ Ha).
  - simpl. unfold commandTrace.
    rewrite (forOf_trace automataTrace (doAutomata templates)
               (processAutomata_log templates) _ _ _ _ Hloop).
    rewrite <- app_assoc. reflexivity.
Qed.

Lemma commands_trace templates commands w commands' w' :
  forOf (doCommand templates) commands w = (Ok commands', w') ->
  exists readmes,
    Forall2 processedFrom commands commands'
    /\ Forall2 (fun command' readme => Command_buildReadme command' = Ok readme)
         commands' readmes
    /\ log w' = log w ++ concat (zip_with commandTrace commands readmes).
Proof.
  revert w commands'. induction commands as [|c commands IH]; intros w commands' H; simpl in H.
  - injection H as <- <-. exists []. simpl. rewrite app_nil_r. repeat constructor.
  - apply bind_Ok in H as [c' [w1 [Hc H]]].
    apply bind_Ok in H as [cs' [w2 [Hrest H]]]. injection H as <- <-.
    apply processCommand_trace in Hc as [md [Hmd [Hc Hlog]]].
    apply IH in Hrest as [readmes [Hall [Hmds Hlogs]]].
    exists (md :: readmes). split; [constructor; assumption|].
    split; [constructor; assumption|].
    simpl. rewrite Hlogs, Hlog, <- !app_assoc. reflexivity.
Qed.

Lemma buildGraph_log this w w' :
  SpokenModule_buildGraph this w = (Ok tt, w') ->
  exists composed,
    compositionEvent this composed
    /\ log w' = log w ++ [ReadFile (mod_automata this); composed].
Proof.
  destruct (files w !! mod_automata this) as [content|] eqn:Hf;
    [|rewrite (buildGraph_missing this w Hf); discriminate].
  assert (forall u, SpokenModule_buildGraph this w
                    = (Ok tt, mkWorld (files w)
                                (log w ++ [ReadFile (mod_automata this)]
                                 ++ [Warn (js "Could not mount module documentation")])) ->
                    SpokenModule_buildGraph this w = (Ok tt, u) ->
                    exists composed,
                      compositionEvent this composed
                      /\ log u = log w ++ [ReadFile (mod_automata this); composed]) as Hskip.
  { intros u -> [= <-]. eexists. split; [left; reflexivity|reflexivity]. }
  destruct (firstIndex isBegin (split LF content)) as [b|] eqn:Hb;
    [|apply Hskip, (buildGraph_skips this w content Hf); auto].
  destruct (firstIndex isEnd (split LF content)) as [e|] eqn:He;
    [|apply Hskip, (buildGraph_skips this w content Hf); auto].
  destruct (Nat.le_gt_cases b e) as [Hle|Hgt];
    [|apply Hskip, (buildGraph_skips this w content Hf); right; right; eauto].
  rewrite (buildGraph_composes this w content b e Hf Hb He Hle). intros [= <-].
  eexists. split; [right; eexists; reflexivity|reflexivity].
Qed.

Lemma moduleReadme_log this w built w' :
  SpokenModule_buildReadme Graph dot_read graphAttribute this w = (Ok built, w') ->
  log w' = log w ++ [ReadFile (mod_automata this)].
Proof.
  unfold SpokenModule_buildReadme. intros H.
  apply bind_Ok in H as [content [w1 [Hread H]]].
  apply bind_Ok in H as [parsed [w2 [Hparsed H]]]. apply lift_Ok in Hparsed as [_ ->].
  apply bind_Ok in H as [readmes [w3 [Hreadmes H]]]. apply lift_Ok in Hreadmes as [_ ->].
  injection H as _ <-.
  unfold readFileSync in Hread.
  destruct (files w !! mod_automata this); [|discriminate].
  injection Hread as _ <-. reflexivity.
Qed.

Lemma processModule_steps templates moduleA w moduleA' w' :
  doModule templates moduleA w = (Ok moduleA', w') ->
  exists commands w1 w2 w3 built w4,
    forOf (doCommand templates) (mod_commands moduleA) w = (Ok commands, w1)
    /\ SpokenModule_buildGraph (setCommands moduleA commands) w1 = (Ok tt, w2)
    /\ automataToImage renderDot (mod_automata moduleA) (mod_image moduleA) w2 = (Ok tt, w3)
    /\ SpokenModule_buildReadme Graph dot_read graphAttribute (setCommands moduleA commands) w3
       = (Ok built, w4)
    /\ moduleA' = snd built
    /\ w' = mkWorld (<[mod_readme moduleA := fst built]> (files w4))
              (log w4 ++ [WriteFile (mod_readme moduleA) (fst built)]).
Proof.
  unfold processModule. intros H.
  apply bind_Ok in H as [commands [w1 [Hloop H]]].
  apply bind_Ok in H as [[] [w2 [Hgraph H]]].
  apply bind_Ok in H as [[] [w3 [Himage H]]].
  apply bind_Ok in H as [built [w4 [Hreadme H]]].
  apply bind_Ok in H as [[] [w5 [Hwrite H]]].
  injection H as <- <-. injection Hwrite as <-.
  exists commands, w1, w2, w3, built, w4. auto 10.
Qed.

(** A module whose loop body returns: first its commands, each in
    full, then the composition of its automaton, the rendering of its
    image and its README. *)
Lemma processModule_trace templates moduleA w moduleA' w' :
  doModule templates moduleA w = (Ok moduleA', w') ->
  exists commands' w1 readmes composed built w4,
    forOf (doCommand templates) (mod_commands moduleA) w = (Ok commands', w1)
    /\ Forall2 processedFrom (mod_commands moduleA) commands'
    /\ Forall2 (fun command' readme => Command_buildReadme command' = Ok readme)
         commands' readmes
    /\ log w1 = log w ++ concat (zip_with commandTrace (mod_commands moduleA) readmes)
    /\ compositionEvent moduleA composed
    /\ SpokenModule_buildReadme Graph dot_read graphAttribute (setCommands moduleA commands')
         (snd (automataToImage renderDot (mod_automata moduleA) (mod_image moduleA)
                 (snd (SpokenModule_buildGraph (setCommands moduleA commands') w1))))
       = (Ok built, w4)
    /\ moduleA' = snd built
    /\ log w' = log w1 ++ moduleTrace moduleA composed (fst built).
Proof.
  intros H. apply processModule_steps in H
    as [commands' [w1 [w2 [w3 [built [w4 [Hloop [Hgraph [Himage [Hreadme [-> ->]]]]]]]]]]].
  destruct (commands_trace _ _ _ _ _ Hloop) as [readmes [Hall [Hmds Hlog]]].
  destruct (buildGraph_log _ _ _ Hgraph) as [composed [Hcomposed Hlog2]].
  pose proof (automataToImage_log (mod_automata moduleA) (mod_image moduleA) w2) as Hlog3.
  pose proof (moduleReadme_log _ _ _ _ Hreadme) as Hlog4.
  exists commands', w1, readmes, composed, built, w4.
  rewrite Hgraph. cbn [snd]. rewrite Himage. rewrite Himage in Hlog3. simpl in *.
  repeat (split; [assumption || reflexivity|]).
  rewrite Hlog4, Hlog3, Hlog2. unfold moduleTrace. rewrite <- !app_assoc. reflexivity.
Qed.

(** C4. The phrase list that the pipeline stores for an automaton of a
    command is the first 16 phrases that the enumerator returns for the
    graph read from the file of that automaton, in the enumerator's
    order; it has no duplicates and at most 16 entries. The README of
    the command is built from the automata with these lists, holds a
    section for each, and is what the loop body writes last. *)
Theorem stored_phrases templates command w command' w' :
  doCommand templates command w = (Ok command', w') ->
  length (cmd_automatas command') = length (cmd_automatas command)
  /\ (forall k automata, cmd_automatas command !! k = Some automata ->
        exists automata' content graph enumerated phrases,
          cmd_automatas command' !! k = Some automata'
          /\ aut_path automata' = aut_path automata
          /\ files (snd (automataToImage renderDot (aut_path automata) (aut_image automata)
                           (snd (forOf (doAutomata templates)
                                   (take k (cmd_automatas command)) w))))
               !! aut_path automata = Some content
          /\ dot_read content = Ok graph
          /\ enumerate graph templates = Ok enumerated
          /\ aut_phrases automata' = Some phrases
          /\ phrases = take 16 enumerated
          /\ NoDup phrases
          /\ (length phrases <= 16)%nat)
  /\ exists md sections before after events,
       Command_buildReadme command' = Ok md
       /\ Forall2 isLangSection (cmd_automatas command') sections
       /\ md = before ++ joinStrings PARAGRAPH sections ++ after
       /\ log w' = events ++ [WriteFile (cmd_readme command) md].
Proof.
  intros H. apply processCommand_Ok in H as [automatas [w1 [md [Hloop [-> [Hmd ->]]]]]].
  split; [exact (forOf_length _ _ _ _ _ Hloop)|]. split.
  - intros k automata Hk.
    destruct (forOf_lookup _ _ _ _ _ Hloop k automata Hk) as [automata' [Hk' [_ Hbody]]].
    apply processAutomata_run in Hbody
      as [content [graph [enumerated [Hf [Hg [He [Ha _]]]]]]].
    exists automata', content, graph, enumerated, (take 16 enumerated).
    split; [exact Hk'|]. split; [rewrite Ha; reflexivity|].
    split; [exact Hf|]. split; [exact Hg|]. split; [exact He|].
    split; [rewrite Ha; reflexivity|]. split; [reflexivity|]. split.
    + eapply sublist_NoDup; [exact (enumerate_NoDup _ _ _ _ _ _ He)|apply sublist_take].
    + rewrite length_take. lia.
  - pose proof Hmd as Hshape.
    apply buildReadme_shape in Hshape as [autom [sections [_ [Hall Hshape]]]].
    exists md, sections. do 2 eexists. exists (log w1).
    split; [assumption|]. split; [assumption|]. split; [|reflexivity].
    rewrite Hshape. rewrite !(app_assoc _ _ (joinStrings PARAGRAPH sections ++ _)).
    reflexivity.
Qed.


Lemma emits_processModule templates moduleA :
  emits (fun _ => True) (doModule templates moduleA).
Proof.
  unfold processModule. apply emits_bind.
  - apply emits_forOf. intros c _.
    eapply emits_weaken; [|apply emits_processCommand]. auto.
  - intros commands.
    eapply emits_weaken; [|apply (emits_moduleSteps Graph dot_read graphAttribute renderDot (setCommands moduleA commands))].
    auto.
Qed.






Lemma processModule_done templates moduleA w moduleA' w' :
  doModule templates moduleA w = (Ok moduleA', w') ->
  exists l, log w' = log w ++ l
            /\ Exists (fun ev => exists md, ev = WriteFile (mod_readme moduleA) md) l.
Proof.
  intros H. apply processModule_trace in H
    as [commands' [w1 [readmes [composed [built [w4
         [_ [_ [_ [Hlog [_ [_ [_ Hlog2]]]]]]]]]]]]].
  eexists. split; [rewrite Hlog2, Hlog, <- app_assoc; reflexivity|].
  apply Exists_app. right. unfold moduleTrace. do 4 apply Exists_cons_tl.
  constructor. eauto.
Qed.

Lemma written_stays (E : Event -> Prop) (l : list Event) (before after : list Event) :
  Exists E l -> exists ev, E ev /\ ev ∈ before ++ l ++ after.
Proof.
  intros H. apply Exists_exists in H as [ev [Hin Hev]]. exists ev.
  split; [assumption|]. rewrite !elem_of_app. auto.
Qed.

Context (noTemplates : Templates) (spread : Templates -> Templates -> Templates)
        (JSON_parse : jsstring -> Outcome Templates)
        (path_resolve : list jsstring -> jsstring) (dirname : jsstring)
        (listArchives : ArchiveKind -> World -> jsstring -> option (jsstring -> bool)
                        -> Outcome (list jsstring)).

(** C5, as the code has it. Nothing catches an error. When the loop
    body of a command throws, at one of its automata (the renderer, the
    read, the parser or the enumerator fails) or at its README
    ([buildReadme] throws), the loop over the commands, the loop over
    the modules and [main] end there with that error, in the world of
    the throw: no later automaton, sibling command or module is
    processed. What was written before stays in the log: the README of
    every module and of every command that was completed. *)
Theorem error_aborts_pipeline (spoken : SpokenModules Templates)
    before moduleA after cbefore command cafter w0 w done w1 cdone w2 e w3 :
  SpokenModules_new Templates noTemplates spread JSON_parse path_resolve dirname
    listArchives w0 = (Ok spoken, w) ->
  spoken_modules Templates spoken = before ++ moduleA :: after ->
  mod_commands moduleA = cbefore ++ command :: cafter ->
  forOf (doModule (spoken_templates Templates spoken)) before w = (Ok done, w1) ->
  forOf (doCommand (spoken_templates Templates spoken)) cbefore w1 = (Ok cdone, w2) ->
  ((exists abefore automata aafter adone w',
      cmd_automatas command = abefore ++ automata :: aafter
      /\ forOf (doAutomata (spoken_templates Templates spoken)) abefore w2 = (Ok adone, w')
      /\ doAutomata (spoken_templates Templates spoken) automata w' = (Throw e, w3))
   \/ (exists automatas,
         forOf (doAutomata (spoken_templates Templates spoken)) (cmd_automatas command) w2
         = (Ok automatas, w3)
         /\ Command_buildReadme (setAutomatas command automatas) = Throw e)) ->
  doCommand (spoken_templates Templates spoken) command w2 = (Throw e, w3)
  /\ doModule (spoken_templates Templates spoken) moduleA w1 = (Throw e, w3)
  /\ loop spoken w = (Throw e, w3)
  /\ main Graph dot_read graphAttribute Templates noTemplates spread JSON_parse path_resolve
       dirname listArchives candidatePhrases renderDot w0 = (Throw e, w3)
  /\ (forall moduleB, moduleB ∈ before ->
        exists md, WriteFile (mod_readme moduleB) md ∈ log w3)
  /\ (forall commandB, commandB ∈ cbefore ->
        exists md, WriteFile (cmd_readme commandB) md ∈ log w3)
  /\ exists events, log w3 = log w2 ++ events /\ Forall (commandEvent command) events.
Proof.
  intros Hnew Hmods Hcmds Hbefore Hcbefore Hthrow.
  assert (doCommand (spoken_templates Templates spoken) command w2 = (Throw e, w3)) as Hc.
  { unfold processCommand.
    destruct Hthrow as [[abefore [automata [aafter [adone [w' [Hauts [Habefore Hthrow]]]]]]]
                       |[automatas [Hloop Hreadme]]].
    - apply bind_Throw. rewrite Hauts.
      exact (forOf_throws _ _ _ _ _ _ _ _ _ Habefore Hthrow).
    - rewrite (bind_step _ _ _ _ _ Hloop). apply bind_Throw.
      unfold lift. rewrite Hreadme. reflexivity. }
  assert (doModule (spoken_templates Templates spoken) moduleA w1 = (Throw e, w3)) as Hm.
  { unfold processModule. apply bind_Throw. rewrite Hcmds.
    exact (forOf_throws _ _ _ _ _ _ _ _ _ Hcbefore Hc). }
  assert (loop spoken w = (Throw e, w3)) as Hl.
  { unfold mainLoop. rewrite Hmods. exact (forOf_throws _ _ _ _ _ _ _ _ _ Hbefore Hm). }
  destruct (forOf_done (fun m ev => exists md, ev = WriteFile (mod_readme m) md)
              (doModule (spoken_templates Templates spoken))
              (emits_processModule _) (processModule_done _)
              _ _ _ _ Hbefore) as [l1 [Hl1 Hdone1]].
  assert (forall c, emits (fun _ => True) (doCommand (spoken_templates Templates spoken) c))
    as Hemits.
  { intros c. eapply emits_weaken; [|apply emits_processCommand]. auto. }
  destruct (forOf_done (fun c ev => exists md, ev = WriteFile (cmd_readme c) md)
              (doCommand (spoken_templates Templates spoken)) Hemits
              (processCommand_done Graph dot_read graphAttribute Templates candidatePhrases
                 renderDot (spoken_templates Templates spoken))
              _ _ _ _ Hcbefore) as [l2 [Hl2 Hdone2]].
  destruct (emits_processCommand Graph dot_read graphAttribute Templates candidatePhrases
              renderDot (spoken_templates Templates spoken) command w2)
    as [events [Hevents Hall]].
  rewrite Hc in Hevents. simpl in Hevents.
  split; [exact Hc|]. split; [exact Hm|]. split; [exact Hl|]. split.
  { unfold main. rewrite (bind_step _ _ _ _ _ Hnew). apply bind_Throw. exact Hl. }
  split.
  { intros m Hin.
    destruct (written_stays _ _ (log w) (l2 ++ events) (Hdone1 m Hin)) as [ev [[md ->] Hev]].
    exists md. rewrite Hevents, Hl2, Hl1, <- !app_assoc. exact Hev. }
  split.
  { intros c Hin.
    destruct (written_stays _ _ (log w1) events (Hdone2 c Hin)) as [ev [[md ->] Hev]].
    exists md. rewrite Hevents, Hl2, <- !app_assoc. exact Hev. }
  exists events. split; [exact Hevents|exact Hall].
Qed.

End BuildOrder.

(** * The theorems at work on the small tree *)

(** An equation between closed terms, settled by evaluating its two
    sides. *)
Ltac evaluated :=
  lazymatch goal with
  | |- ?a = ?b => exact (@eq_refl _ b <: a = b)
  end.

Lemma buildGraph_keeps_frame_demo :
  exists out mid w',
    SpokenModule_buildGraph demoModule demoWorld = (Ok tt, w')
    /\ files w' !! mod_automata demoModule = Some out
    /\ split LF out = take 2 (split LF demoModuleAutomaton) ++ mid
                      ++ drop 4 (split LF demoModuleAutomaton)
    /\ take 2 (split LF out) = take 2 (split LF demoModuleAutomaton)
    /\ drop (2 + length mid) (split LF out) = drop 4 (split LF demoModuleAutomaton)
    /\ firstAt isBegin (split LF out) 1
    /\ (exists l, split LF out !! (2 + length mid)%nat = Some l
                  /\ split LF demoModuleAutomaton !! 4%nat = Some l /\ isEnd l = true).
Proof.
  apply (buildGraph_keeps_frame demoModule demoWorld demoModuleAutomaton 1 4).
  - vm_compute. reflexivity.
  - apply firstIndex_Some. vm_compute. reflexivity.
  - apply firstIndex_Some. vm_compute. reflexivity.
  - lia.
Defined.

Lemma buildGraph_warns_without_markers_demo :
  SpokenModule_buildGraph demoModule unmarkedWorld
  = (Ok tt,
     mkWorld (files unmarkedWorld)
       (log unmarkedWorld ++ [ReadFile (mod_automata demoModule);
                              Warn (js "Could not mount module documentation")])).
Proof.
  apply (buildGraph_warns_without_markers demoModule unmarkedWorld
           (js "digraph { label=Files; 0 -> 1 }")).
  - vm_compute. reflexivity.
  - left. apply firstIndex_None. vm_compute. reflexivity.
Defined.

Lemma buildGraph_idempotent_demo :
  files (snd (SpokenModule_buildGraph demoModule
                (snd (SpokenModule_buildGraph demoModule demoWorld))))
  = files (snd (SpokenModule_buildGraph demoModule demoWorld)).
Proof.
  apply (buildGraph_idempotent demoModule demoWorld).
  apply (bool_decide_unpack _). vm_compute. exact I.
Defined.

Lemma buildReadme_precondition_demo :
  (exists md, Command_buildReadme demoCreateDone = Ok md)
  /\ Command_buildReadme frenchCommand = Throw TypeError.
Proof.
  split.
  - apply (proj2 (proj2 (buildReadme_precondition demoCreateDone))).
    + split.
      * exists (List.hd noAutomata (cmd_automatas demoCreateDone)).
        split; [vm_compute; left|vm_compute; reflexivity].
      * repeat constructor; solve [left; vm_compute; reflexivity
                                  |right; vm_compute; reflexivity].
    + repeat constructor; vm_compute; discriminate.
  - apply (proj1 (proj2 (buildReadme_precondition frenchCommand))).
    intros [_ Hall]. apply Forall_cons in Hall as [[H|H] _]; vm_compute in H; discriminate H.
Defined.

Lemma readme_excerpt_demo :
  exists source before,
    files demoWorld
      !! demo_path_resolve [demo_path_resolve [mod_root demoModule; js "create"]; js "impl.ts"]
    = Some source
    /\ demoCreateReadme
       = before ++ js "```typescript" ++ [LF] ++ take 300 source
         ++ PARAGRAPH ++ js "(...)" ++ [LF] ++ js "```".
Proof.
  apply (readme_excerpt demo_path_resolve demo_listArchives (js "create")
           (mod_root demoModule) demoWorld demoCreate
           (snd (Command_new demo_path_resolve demo_listArchives (js "create")
                   (mod_root demoModule) demoWorld))
           (cmd_automatas demoCreateDone) demoCreateReadme);
    evaluated.
Defined.

(** * The theorems at work on the tree of two modules *)

(** The constructors build the objects that are written out above, and
    the loop of [main] leaves the modules and the commands as written
    out. *)
Example wide_run :
  wide_SpokenModules_new wideWorld = (Ok wideSpoken, wideStart)
  /\ fst (wide_mainLoop wideSpoken wideStart) = Ok [editDone; filesDone]
  /\ fst (wide_processCommand tt createCommand wideStart) = Ok createDone.
Proof. split; [evaluated|]. split; evaluated. Qed.

Lemma buildGraph_mounts_commands_demo :
  exists out generated,
    SpokenModule_buildGraph filesModule wideWorld
    = (Ok tt,
       mkWorld (<[mod_automata filesModule := out]> (files wideWorld))
         (log wideWorld ++ [ReadFile (mod_automata filesModule);
                            WriteFile (mod_automata filesModule) out]))
    /\ split LF out = take 3 (split LF (dotModuleAutomaton "Files")) ++ generated
                      ++ drop 4 (split LF (dotModuleAutomaton "Files"))
    /\ length generated = length (mod_commands filesModule)
    /\ (forall i c, mod_commands filesModule !! i = Some c ->
          generated !! i
          = Some (js "    0 -> " ++ numToString (i + 1) ++ js " [label=" ++ [34]
                  ++ js "(" ++ cmd_name c ++ js ")" ++ [34] ++ js "];"))
    /\ split LF out !! 2%nat = split LF (dotModuleAutomaton "Files") !! 2%nat
    /\ split LF out !! (3 + length generated)%nat
       = split LF (dotModuleAutomaton "Files") !! 4%nat.
Proof.
  apply (buildGraph_mounts_commands filesModule wideWorld (dotModuleAutomaton "Files") 2 4).
  - vm_compute. reflexivity.
  - apply firstIndex_Some. vm_compute. reflexivity.
  - apply firstIndex_Some. vm_compute. reflexivity.
  - lia.
  - apply (bool_decide_unpack _). vm_compute. exact I.
Defined.

(** C1, as the specification words it, fails for a command whose folder
    name holds a line feed: the markers are present and in order, the
    module has one command, and two lines are written between the
    markers, neither of which is a transition line. *)
Lemma buildGraph_line_feed_in_name :
  files wideWorld !! mod_automata lineFeedModule = Some (dotModuleAutomaton "Files")
  /\ firstAt isBegin (split LF (dotModuleAutomaton "Files")) 2
  /\ firstAt isEnd (split LF (dotModuleAutomaton "Files")) 4
  /\ length (mod_commands lineFeedModule) = 1%nat
  /\ fst (SpokenModule_buildGraph lineFeedModule wideWorld) = Ok tt
  /\ split LF <$> (files (snd (SpokenModule_buildGraph lineFeedModule wideWorld))
                     !! mod_automata lineFeedModule)
     = Some [js "digraph {";
             js "    graph [ label=" ++ [34] ++ js "Files" ++ [34] ++ js "; desc=" ++ [34]
             ++ js "Files" ++ [34] ++ js "; ];";
             js "    // START GENERATED";
             js "    0 -> 1 [label=" ++ [34] ++ js "(line";
             js "feed)" ++ [34] ++ js "];";
             js "    // END GENERATED";
             js "}"].
Proof.
  split; [vm_compute; reflexivity|].
  split; [apply firstIndex_Some; vm_compute; reflexivity|].
  split; [apply firstIndex_Some; vm_compute; reflexivity|].
  split; [reflexivity|].
  split; vm_compute; reflexivity.
Qed.

(** The example of the spec on the tree of two modules. *)
Example buildGraph_files_text :
  files (snd (SpokenModule_buildGraph filesModule wideWorld)) !! mod_automata filesModule
  = Some (joinStrings [LF]
            [js "digraph {";
             js "    graph [ label=" ++ [34] ++ js "Files" ++ [34] ++ js "; desc=" ++ [34]
             ++ js "Files" ++ [34] ++ js "; ];";
             js "    // START GENERATED";
             js "    0 -> 1 [label=" ++ [34] ++ js "(create)" ++ [34] ++ js "];";
             js "    0 -> 2 [label=" ++ [34] ++ js "(delete)" ++ [34] ++ js "];";
             js "    // END GENERATED";
             js "}"]).
Proof. vm_compute. reflexivity. Qed.

Lemma buildReadme_sections_demo :
  exists autom sections md,
    Command_buildReadme sampleCommand = Ok md
    /\ find isEnUS (cmd_automatas sampleCommand) = Some autom
    /\ Forall2 isLangSection (cmd_automatas sampleCommand) sections
    /\ md =
       js "## " ++ toStr (aut_title autom) ++ PARAGRAPH
       ++ joinElem (aut_desc autom) ++ PARAGRAPH
       ++ js "### Languages" ++ PARAGRAPH
       ++ js "This command is available in the following languages" ++ PARAGRAPH
       ++ joinStrings PARAGRAPH sections ++ PARAGRAPH
       ++ js "### Implementation" ++ PARAGRAPH
       ++ js "The full implementation of this command can be found on this directory under the file [impl.ts](impl.ts)"
       ++ PARAGRAPH
       ++ js "```typescript" ++ [LF] ++ take 300 (cmd_code sampleCommand) ++ PARAGRAPH
       ++ js "(...)" ++ [LF] ++ js "```".
Proof.
  apply (buildReadme_sections sampleCommand).
  - split.
    + exists (List.hd noAutomata (cmd_automatas sampleCommand)).
      split; [left|reflexivity].
    + repeat constructor; solve [left; reflexivity|right; reflexivity].
  - repeat constructor; discriminate.
Defined.

(** The README of that command, in full. *)
Example buildReadme_sample_text :
  Command_buildReadme sampleCommand
  = Ok (joinStrings [LF]
          [js "## Create"; [];
           js "Creates a file"; [];
           js "### Languages"; [];
           js "This command is available in the following languages"; [];
           js "#### English"; [];
           js "The following automata is responsible for recognizing the command `Create` in english:"; [];
           js "![English](phrase_en-US.png)"; [];
           js "The following are some examples of phrases, in english, used to trigger the command `Create`:"; [];
           js "1. create file";
           js "2. new file"; [];
           js "#### Portugues"; [];
           js "O automata seguinte " ++ [233] ++ js " repons" ++ [225]
           ++ js "vel por reconhecer o comando `Criar` em portugu" ++ [234] ++ js "s:"; [];
           js "![Portugues](phrase_pt-BR.png)"; [];
           js "Os seguintes exemplos de frases, em portugu" ++ [234]
           ++ js "s, podem ser usadas para ativar o comando `Criar`:"; [];
           js "1. criar arquivo";
           js "2. novo arquivo";
           js "3. arquivo novo"; [];
           js "### Implementation"; [];
           js "The full implementation of this command can be found on this directory under the file [impl.ts](impl.ts)"; [];
           js "```typescript";
           js "export default function create() {}"; [];
           js "(...)";
           js "```"]).
Proof. vm_compute. reflexivity. Qed.

(** C7, where the code misses it. For a command whose folder is named
    [dot] the constructor takes [.dot] to [.png] in the folder part of
    the path too: the images are rendered into a folder [files.png]
    beside the module, while the README of the command refers to
    [phrase_en-US.png] and [phrase_pt-BR.png] in the folder of the
    command, where no such file is. *)
Lemma image_reference_misses_image :
  Command_new demo_path_resolve wide_listArchives (js "dot") (mod_root filesModule) dotWorld
  = (Ok dotCommand, record (ReadFile (demo_root ++ js "/files/dot/impl.ts")) dotWorld)
  /\ List.map aut_image (cmd_automatas dotCommand)
     = [demo_root ++ js "/files.png/phrase_en-US.png";
        demo_root ++ js "/files.png/phrase_pt-BR.png"]
  /\ List.map (fun automata =>
                 demo_path_resolve [cmd_root dotCommand; aut_relativeImagePath automata])
       (cmd_automatas dotCommand)
     = [demo_root ++ js "/files/dot/phrase_en-US.png";
        demo_root ++ js "/files/dot/phrase_pt-BR.png"]
  /\ (exists done, fst (wide_processCommand tt dotCommand dotWorld) = Ok done)
  /\ (fun md => includes md (js "![English](phrase_en-US.png)")
                && includes md (js "![Portugues](phrase_pt-BR.png)"))
       <$> (files (snd (wide_processCommand tt dotCommand dotWorld)) !! cmd_readme dotCommand)
     = Some true
  /\ List.map (fun path => files (snd (wide_processCommand tt dotCommand dotWorld)) !! path)
       [demo_root ++ js "/files.png/phrase_en-US.png";
        demo_root ++ js "/files.png/phrase_pt-BR.png";
        demo_root ++ js "/files/dot/phrase_en-US.png";
        demo_root ++ js "/files/dot/phrase_pt-BR.png"]
     = [Some (js "PNG"); Some (js "PNG"); None; None].
Proof.
  split; [evaluated|].
  split; [vm_compute; reflexivity|].
  split; [vm_compute; reflexivity|].
  split; [eexists; vm_compute; reflexivity|].
  split; vm_compute; reflexivity.
Qed.

Lemma stored_phrases_demo :
  length (cmd_automatas createDone) = length (cmd_automatas createCommand)
  /\ (forall k automata, cmd_automatas createCommand !! k = Some automata ->
        exists automata' content graph enumerated phrases,
          cmd_automatas createDone !! k = Some automata'
          /\ aut_path automata' = aut_path automata
          /\ files (snd (automataToImage demo_renderDot (aut_path automata)
                           (aut_image automata)
                           (snd (forOf (wide_processAutomata tt)
                                   (take k (cmd_automatas createCommand)) wideStart))))
               !! aut_path automata = Some content
          /\ demo_dot_read content = Ok graph
          /\ allRecognizablePhrases jsstring unit wide_candidatePhrases graph tt
             = Ok enumerated
          /\ aut_phrases automata' = Some phrases
          /\ phrases = take 16 enumerated
          /\ NoDup phrases
          /\ (length phrases <= 16)%nat)
  /\ exists md sections before after events,
       Command_buildReadme createDone = Ok md
       /\ Forall2 isLangSection (cmd_automatas createDone) sections
       /\ md = before ++ joinStrings PARAGRAPH sections ++ after
       /\ log (snd (wide_processCommand tt createCommand wideStart))
          = events ++ [WriteFile (cmd_readme createCommand) md].
Proof.
  apply (stored_phrases jsstring demo_dot_read quoted_graphAttribute unit
           wide_candidatePhrases demo_renderDot tt createCommand wideStart createDone
           (snd (wide_processCommand tt createCommand wideStart))).
  evaluated.
Defined.

(** The enumerator returns 21 phrases for the English automaton of
    [create], from 40 candidates; the first 16 are stored. *)
Example stored_phrases_cap :
  exists candidates enumerated,
    wide_candidatePhrases (dotAutomaton "en-US" "English" "Create" "create file") tt
    = Ok candidates
    /\ length candidates = 40%nat
    /\ allRecognizablePhrases jsstring unit wide_candidatePhrases
         (dotAutomaton "en-US" "English" "Create" "create file") tt = Ok enumerated
    /\ length enumerated = 21%nat
    /\ List.map aut_phrases (cmd_automatas createDone)
       = [Some (take 16 enumerated);
          Some (js "criar arquivo"
                :: List.map (fun i => js "criar arquivo " ++ numToString i) (seq 1 15))]
    /\ take 3 enumerated = [js "create file"; js "create file 1"; js "create file 2"].
Proof.
  do 2 eexists. split; [vm_compute; reflexivity|].
  repeat split; vm_compute; reflexivity.
Qed.


(** The build of the tree, event by event: the constructors read the
    sources and the templates; then, module by module, every command
    has its automata rendered and read and its README written before the
    automaton of the module is composed and rendered and the README of
    the module written. *)
Example main_order :
  fst (wide_main wideWorld) = Ok tt
  /\ List.map touched (log (snd (wide_main wideWorld)))
     = [js "read /spoken/src/build/../modules/edit/redo/impl.ts";
      js "read /spoken/src/build/../modules/edit/undo/impl.ts";
      js "read /spoken/src/build/../modules/files/create/impl.ts";
      js "read /spoken/src/build/../modules/files/delete/impl.ts";
      js "read /spoken/src/build/../modules/__meta/default-templates.json";
      js "render /spoken/src/build/../modules/edit/redo/phrase_en-US.png";
      js "read /spoken/src/build/../modules/edit/redo/phrase_en-US.dot";
      js "render /spoken/src/build/../modules/edit/redo/phrase_pt-BR.png";
      js "read /spoken/src/build/../modules/edit/redo/phrase_pt-BR.dot";
      js "write /spoken/src/build/../modules/edit/redo/README.md";
      js "render /spoken/src/build/../modules/edit/undo/phrase_en-US.png";
      js "read /spoken/src/build/../modules/edit/undo/phrase_en-US.dot";
      js "render /spoken/src/build/../modules/edit/undo/phrase_pt-BR.png";
      js "read /spoken/src/build/../modules/edit/undo/phrase_pt-BR.dot";
      js "write /spoken/src/build/../modules/edit/undo/README.md";
      js "read /spoken/src/build/../modules/edit/edit.dot";
      js "write /spoken/src/build/../modules/edit/edit.dot";
      js "render /spoken/src/build/../modules/edit/edit.png";
      js "read /spoken/src/build/../modules/edit/edit.dot";
      js "write /spoken/src/build/../modules/edit/README.md";
      js "render /spoken/src/build/../modules/files/create/phrase_en-US.png";
      js "read /spoken/src/build/../modules/files/create/phrase_en-US.dot";
      js "render /spoken/src/build/../modules/files/create/phrase_pt-BR.png";
      js "read /spoken/src/build/../modules/files/create/phrase_pt-BR.dot";
      js "write /spoken/src/build/../modules/files/create/README.md";
      js "render /spoken/src/build/../modules/files/delete/phrase_en-US.png";
      js "read /spoken/src/build/../modules/files/delete/phrase_en-US.dot";
      js "render /spoken/src/build/../modules/files/delete/phrase_pt-BR.png";
      js "read /spoken/src/build/../modules/files/delete/phrase_pt-BR.dot";
      js "write /spoken/src/build/../modules/files/delete/README.md";
      js "read /spoken/src/build/../modules/files/files.dot";
      js "write /spoken/src/build/../modules/files/files.dot";
      js "render /spoken/src/build/../modules/files/files.png";
      js "read /spoken/src/build/../modules/files/files.dot";
      js "write /spoken/src/build/../modules/files/README.md"].
Proof. split; vm_compute; reflexivity. Qed.

(** C5, as the specification words it, fails: with the first
    description of the tree refused by the parser, [main] ends with that
    error after the read of that description. The sibling command
    [undo] and the module [files] are healthy, their loop bodies return
    when they are run from the world that [main] leaves, but [main] has
    not run them: no README is written. *)
Lemma error_stops_siblings_and_modules :
  fst (wide_main firstBroken) = Throw GraphLoadError
  /\ fst (wide_processCommand tt undoCommand (snd (wide_main firstBroken))) = Ok undoDone
  /\ fst (wide_processModule tt filesModule (snd (wide_main firstBroken))) = Ok filesDone
  /\ List.map (fileExists (snd (wide_main firstBroken)))
       [cmd_readme redoCommand; cmd_readme undoCommand; mod_readme editModule;
        cmd_readme createCommand; cmd_readme deleteCommand; mod_readme filesModule]
     = [false; false; false; false; false; false]
  /\ List.map touched (log (snd (wide_main firstBroken)))
     = [js "read /spoken/src/build/../modules/edit/redo/impl.ts";
      js "read /spoken/src/build/../modules/edit/undo/impl.ts";
      js "read /spoken/src/build/../modules/files/create/impl.ts";
      js "read /spoken/src/build/../modules/files/delete/impl.ts";
      js "read /spoken/src/build/../modules/__meta/default-templates.json";
      js "render /spoken/src/build/../modules/edit/redo/phrase_en-US.png";
      js "read /spoken/src/build/../modules/edit/redo/phrase_en-US.dot"].
Proof. repeat split; vm_compute; reflexivity. Qed.

(** An error at the README of a command: [delete] has no English
    automaton, [buildReadme] throws once its automata are read, and
    [main] ends there. The READMEs written before stay; the module
    [files] gets none. *)
Example readme_error_stops_build :
  fst (wide_main noEnglish) = Throw TypeError
  /\ List.map (fileExists (snd (wide_main noEnglish)))
       [cmd_readme redoCommand; cmd_readme undoCommand; mod_readme editModule;
        cmd_readme createCommand; cmd_readme deleteCommand; mod_readme filesModule]
     = [true; true; true; true; false; false]
  /\ drop 20 (List.map touched (log (snd (wide_main noEnglish))))
     = [js "render /spoken/src/build/../modules/files/create/phrase_en-US.png";
      js "read /spoken/src/build/../modules/files/create/phrase_en-US.dot";
      js "render /spoken/src/build/../modules/files/create/phrase_pt-BR.png";
      js "read /spoken/src/build/../modules/files/create/phrase_pt-BR.dot";
      js "write /spoken/src/build/../modules/files/create/README.md";
      js "render /spoken/src/build/../modules/files/delete/phrase_en-US.png";
      js "read /spoken/src/build/../modules/files/delete/phrase_en-US.dot";
      js "render /spoken/src/build/../modules/files/delete/phrase_pt-BR.png";
      js "read /spoken/src/build/../modules/files/delete/phrase_pt-BR.dot"].
Proof. repeat split; vm_compute; reflexivity. Qed.

Lemma error_aborts_pipeline_demo :
  wide_processCommand tt deleteCommand afterCreate = (Throw GraphLoadError, atThrow)
  /\ wide_processModule tt filesModule afterEdit = (Throw GraphLoadError, atThrow)
  /\ wide_mainLoop wideSpoken lastBrokenStart = (Throw GraphLoadError, atThrow)
  /\ wide_main lastBroken = (Throw GraphLoadError, atThrow)
  /\ (forall moduleB, moduleB ∈ [editModule] ->
        exists md, WriteFile (mod_readme moduleB) md ∈ log atThrow)
  /\ (forall commandB, commandB ∈ [createCommand] ->
        exists md, WriteFile (cmd_readme commandB) md ∈ log atThrow)
  /\ exists events, log atThrow = log afterCreate ++ events
                    /\ Forall (commandEvent deleteCommand) events.
Proof.
  apply (error_aborts_pipeline jsstring demo_dot_read quoted_graphAttribute unit
           wide_candidatePhrases demo_renderDot tt (fun _ _ => tt) demo_JSON_parse
           demo_path_resolve demo_dirname wide_listArchives wideSpoken
           [editModule] filesModule [] [createCommand] deleteCommand []
           lastBroken lastBrokenStart [editDone] afterEdit [createDone] afterCreate
           GraphLoadError atThrow).
  - evaluated.
  - reflexivity.
  - reflexivity.
  - evaluated.
  - evaluated.
  - left. exists [wideAutomata "files/delete" "en-US"], (wideAutomata "files/delete" "pt-BR"),
      [], [storedAutomata "files/delete" "en-US" "English" "Delete" "delete file"],
      afterDeleteEnglish.
    split; [reflexivity|]. split; evaluated.
Defined.

(** The throw on that tree, event by event: what the module [edit] and
    the command [create] have written is there, and the last events are
    the rendering and the read of the description that is refused. *)
Example error_aborts_pipeline_log :
  List.map (fileExists atThrow)
    [cmd_readme redoCommand; cmd_readme undoCommand; mod_readme editModule;
     cmd_readme createCommand; cmd_readme deleteCommand; mod_readme filesModule]
  = [true; true; true; true; false; false]
  /\ drop 25 (List.map touched (log atThrow))
     = [js "render /spoken/src/build/../modules/files/delete/phrase_en-US.png";
      js "read /spoken/src/build/../modules/files/delete/phrase_en-US.dot";
      js "render /spoken/src/build/../modules/files/delete/phrase_pt-BR.png";
      js "read /spoken/src/build/../modules/files/delete/phrase_pt-BR.dot"].
Proof. split; vm_compute; reflexivity. Qed.

(** * Runs on the small tree *)

(** The example of the spec: the commands [create] and [delete] are
    mounted between the markers, in that order, in place of what was
    there. *)
Example buildGraph_demo_text :
  files (snd (SpokenModule_buildGraph demoModule demoWorld)) !! mod_automata demoModule
  = Some (joinStrings [LF]
            [js "digraph { label=Files; desc=Commands on files;";
             js "    // START GENERATED";
             js "    0 -> 1 [label=" ++ [34] ++ js "(create)" ++ [34] ++ js "];";
             js "    0 -> 2 [label=" ++ [34] ++ js "(delete)" ++ [34] ++ js "];";
             js "    // END GENERATED";
             js "}"]).
Proof. vm_compute. reflexivity. Qed.

Example trim_demo :
  trim ([9; 32; 160] ++ js "// END GENERATED" ++ [13]) = js "// END GENERATED".
Proof. vm_compute. reflexivity. Qed.

Example split_demo :
  split LF (js "a" ++ [LF; LF] ++ js "b" ++ [LF]) = [js "a"; []; js "b"; []].
Proof. vm_compute. reflexivity. Qed.

Example replaceDotByPng_demo :
  replaceDotByPng (js "phrase_en-US.dot") = js "phrase_en-US.png"
  /\ replaceDotByPng (js "phrase_dotted.DOT") = js "phrase.pngted.png".
Proof. split; vm_compute; reflexivity. Qed.

(** The whole build on the small tree returns and writes the three
    READMEs. *)
Example main_demo :
  fst (demo_main demoWorld) = Ok tt
  /\ files (snd (demo_main demoWorld)) !! cmd_readme demoCreate = Some demoCreateReadme
  /\ files (snd (demo_main demoWorld)) !! cmd_readme demoDelete <> None
  /\ files (snd (demo_main demoWorld)) !! mod_readme demoModule <> None.
Proof.
  split; [vm_compute; reflexivity|].
  split; [vm_compute; reflexivity|].
  split; vm_compute; discriminate.
Qed.

(** The slash in the hypothesis of idempotence is needed by the text
    splicing: a name that held a line feed followed by an end marker
    would put a second marker into the generated region. No folder name
    holds a slash. *)
Example buildGraph_marker_in_name :
  let this := setCommands demoModule
                [mkCommand (js "x" ++ [LF] ++ js "// END GENERATED") [] [] [] []] in
  files (snd (SpokenModule_buildGraph this (snd (SpokenModule_buildGraph this demoWorld))))
    !! mod_automata this
  <> files (snd (SpokenModule_buildGraph this demoWorld)) !! mod_automata this.
Proof. vm_compute. discriminate. Qed.

(** * Further properties of the composer *)

Lemma firstIndex_Exists {A} (p : A -> bool) a :
  Exists (fun x => p x = true) a -> exists n, firstIndex p a = Some n.
Proof.
  induction 1 as [x a Hx|x a _ IH]; simpl.
  - rewrite Hx. eauto.
  - destruct (p x); [eauto|]. destruct IH as [n ->]. simpl. eauto.
Qed.

(** X2. [buildGraph] changes no file but the automaton of the module. *)
Theorem buildGraph_writes_only_automaton this w p :
  p <> mod_automata this ->
  files (snd (SpokenModule_buildGraph this w)) !! p = files w !! p.
Proof.
  intros Hp.
  destruct (files w !! mod_automata this) as [content|] eqn:Hf;
    [|rewrite (buildGraph_missing this w Hf); reflexivity].
  destruct (firstIndex isBegin (split LF content)) as [b|] eqn:Hb;
    [|rewrite (buildGraph_skips this w content Hf) by auto; reflexivity].
  destruct (firstIndex isEnd (split LF content)) as [e|] eqn:He;
    [|rewrite (buildGraph_skips this w content Hf) by auto; reflexivity].
  destruct (Nat.le_gt_cases b e) as [Hle|Hgt].
  - rewrite (buildGraph_composes this w content b e Hf Hb He Hle). simpl.
    apply lookup_insert_ne. congruence.
  - rewrite (buildGraph_skips this w content Hf) by (right; right; eauto). reflexivity.
Qed.

(** X3. The file that a composing run writes has its markers in
    order again, whatever the names of the commands: the first begin
    marker is where it was and an end marker follows it, so the next run
    composes too. *)
Theorem buildGraph_output_has_markers this w content b e :
  files w !! mod_automata this = Some content ->
  firstAt isBegin (split LF content) b ->
  firstAt isEnd (split LF content) e ->
  (b <= e)%nat ->
  exists out e',
    files (snd (SpokenModule_buildGraph this w)) !! mod_automata this = Some out
    /\ firstAt isBegin (split LF out) b
    /\ firstAt isEnd (split LF out) e'
    /\ (b < e')%nat.
Proof.
  intros Hf Hb He Hle. apply firstIndex_Some in Hb, He.
  pose proof (begin_before_end _ _ _ Hb He Hle) as Hlt.
  pose proof (firstIndex_length _ _ _ Hb) as Hblen.
  pose proof (firstIndex_length _ _ _ He) as Helen.
  rewrite (buildGraph_composes this w content b e Hf Hb He Hle). simpl.
  rewrite lookup_insert_eq. eexists.
  set (mid := concat (List.map (split LF) (imap transitionLine (mod_commands this)))).
  assert (length (take (S b) (split LF content)) = S b) as Hlen
    by (rewrite length_take; lia).
  destruct (firstIndex_Exists isEnd (mid ++ drop e (split LF content))) as [k Hk].
  { apply Exists_app. right.
    destruct (drop e (split LF content)) as [|l rest] eqn:Hdrop.
    - apply (f_equal length) in Hdrop. rewrite length_drop in Hdrop. simpl in Hdrop. lia.
    - left. pose proof (firstIndex_drop _ _ _ He) as H0. rewrite Hdrop in H0.
      simpl in H0. destruct (isEnd l); [reflexivity|].
      destruct (firstIndex isEnd rest); discriminate. }
  exists (S b + k)%nat. split; [reflexivity|].
  rewrite split_composed. fold mid.
  split; [apply firstIndex_Some, firstIndex_app_found, firstIndex_take; assumption|].
  split; [|lia].
  apply firstIndex_Some.
  rewrite firstIndex_app_absent by (apply (firstIndex_take_absent _ _ e); [assumption|lia]).
  rewrite Hk, Hlen. reflexivity.
Qed.

(** X6. No line is both markers, so the first begin marker and the first
    end marker are never the same line. *)
Theorem markers_never_coincide (lines : list jsstring) b e :
  firstAt isBegin lines b -> firstAt isEnd lines e -> b <> e.
Proof.
  intros [[l [Hl Hb]] _] [[l' [Hl' He]] _] ->.
  rewrite Hl in Hl'. injection Hl' as <-.
  apply isBegin_not_isEnd in Hb. congruence.
Qed.

(** A run with other commands on a composed file replaces the generated
    region. *)
Lemma buildGraph_recomposes_with this (others : list Command) w content b e :
  Forall (fun c => SLASH ∉ cmd_name c) (mod_commands this) ->
  firstIndex isBegin (split LF content) = Some b ->
  firstIndex isEnd (split LF content) = Some e ->
  (b <= e)%nat ->
  files w !! mod_automata this
  = Some (joinStrings [LF] (take (S b) (split LF content)
                            ++ imap transitionLine (mod_commands this)
                            ++ drop e (split LF content))) ->
  files (snd (SpokenModule_buildGraph (setCommands this others) w))
  = <[mod_automata this :=
        joinStrings [LF] (take (S b) (split LF content)
                          ++ imap transitionLine others
                          ++ drop e (split LF content))]> (files w).
Proof.
  intros Hnames Hb He Hle Hf.
  pose proof (begin_before_end _ _ _ Hb He Hle) as Hlt.
  pose proof (firstIndex_length _ _ _ Hb) as Hblen.
  set (mid := concat (List.map (split LF) (imap transitionLine (mod_commands this)))).
  assert (length (take (S b) (split LF content)) = S b) as Hlen
    by (rewrite length_take; lia).
  pose proof (split_composed content (imap transitionLine (mod_commands this)) b e)
    as Hlines. fold mid in Hlines.
  rewrite (buildGraph_composes (setCommands this others) w _ b (S b + length mid) Hf).
  - simpl. f_equal. f_equal. rewrite !Hlines.
    rewrite take_app_length' by (symmetry; assumption).
    rewrite (app_assoc _ mid), drop_app_length' by (rewrite length_app, Hlen; reflexivity).
    reflexivity.
  - rewrite Hlines. apply firstIndex_app_found, firstIndex_take. assumption.
  - rewrite Hlines.
    rewrite firstIndex_app_absent by (apply (firstIndex_take_absent _ _ e); [assumption|lia]).
    rewrite firstIndex_app_absent
      by (apply pieces_not_isEnd, generated_free; [right; reflexivity|assumption]).
    rewrite (firstIndex_drop _ _ _ He). simpl. rewrite Hlen. f_equal. lia.
  - lia.
Qed.

(** X4. The generated region is rewritten whole: a run with a new list
    of commands on the outcome of a run with an old list leaves the
    files as a run with the new list alone does. Nothing of the old list
    stays behind. The old names hold no slash. *)
Theorem buildGraph_last_list_wins this (others : list Command) w :
  Forall (fun c => SLASH ∉ cmd_name c) (mod_commands this) ->
  files (snd (SpokenModule_buildGraph (setCommands this others)
                (snd (SpokenModule_buildGraph this w))))
  = files (snd (SpokenModule_buildGraph (setCommands this others) w)).
Proof.
  intros Hnames.
  destruct (files w !! mod_automata this) as [content|] eqn:Hf.
  2:{ rewrite (buildGraph_missing this w Hf).
      rewrite !buildGraph_missing by (simpl; assumption). reflexivity. }
  destruct (firstIndex isBegin (split LF content)) as [b|] eqn:Hb.
  2:{ rewrite (buildGraph_skips this w content Hf) by auto.
      rewrite !(buildGraph_skips (setCommands this others) _ content) by (simpl; auto).
      reflexivity. }
  destruct (firstIndex isEnd (split LF content)) as [e|] eqn:He.
  2:{ rewrite (buildGraph_skips this w content Hf) by auto.
      rewrite !(buildGraph_skips (setCommands this others) _ content) by (simpl; auto).
      reflexivity. }
  destruct (Nat.le_gt_cases b e) as [Hle|Hgt].
  2:{ rewrite (buildGraph_skips this w content Hf) by (right; right; eauto).
      rewrite !(buildGraph_skips (setCommands this others) _ content)
        by (simpl; try right; try right; eauto).
      reflexivity. }
  rewrite (buildGraph_composes this w content b e Hf Hb He Hle).
  rewrite (buildGraph_composes (setCommands this others) w content b e Hf Hb He Hle).
  cbn [snd].
  rewrite (buildGraph_recomposes_with this others _ content b e Hnames Hb He Hle)
    by (simpl; apply lookup_insert_eq).
  simpl. apply insert_insert_eq.
Qed.

(** ** Which lines are markers *)

Lemma startsWith_prefix s p : startsWith s p = true <-> exists r, s = p ++ r.
Proof.
  revert s. induction p as [|x p IH]; intros s.
  - split; [eauto|]. intros _. destruct s; reflexivity.
  - destruct s as [|c s]; simpl.
    + split; [discriminate|]. intros [r Hr]. discriminate.
    + rewrite andb_true_iff, N.eqb_eq, IH. split.
      * intros [-> [r ->]]. eauto.
      * intros [r [= -> ->]]. eauto.
Qed.

Lemma trimStart_split s :
  exists ws, Forall (fun c => isWhiteSpace c = true) ws /\ s = ws ++ trimStart s.
Proof.
  induction s as [|c s [ws [Hws Hs]]]; simpl.
  - exists []. split; [constructor|reflexivity].
  - destruct (isWhiteSpace c) eqn:Hc.
    + exists (c :: ws). split; [constructor; assumption|]. simpl. f_equal. assumption.
    + exists []. split; [constructor|reflexivity].
Qed.

Lemma trimStart_skip ws x t :
  Forall (fun c => isWhiteSpace c = true) ws -> isWhiteSpace x = false ->
  trimStart (ws ++ x :: t) = x :: t.
Proof.
  intros Hws Hx. induction Hws as [|c ws Hc _ IH]; simpl.
  - rewrite Hx. reflexivity.
  - rewrite Hc. assumption.
Qed.

Lemma trimStart_keeps_tail s x t :
  isWhiteSpace x = false -> exists r, trimStart (s ++ x :: t) = r ++ x :: t.
Proof.
  intros Hx. induction s as [|c s [r Hr]]; simpl.
  - rewrite Hx. exists []. reflexivity.
  - destruct (isWhiteSpace c); [eauto|]. exists (c :: s). reflexivity.
Qed.

Lemma trimEnd_split s :
  exists ws, Forall (fun c => isWhiteSpace c = true) ws /\ s = trimEnd s ++ ws.
Proof.
  unfold trimEnd. destruct (trimStart_split (rev s)) as [ws [Hws Hs]].
  exists (rev ws). split.
  - apply Forall_forall. intros c Hc. rewrite Forall_forall in Hws. apply Hws.
    apply list_elem_of_In, in_rev, list_elem_of_In in Hc. exact Hc.
  - rewrite <- (rev_involutive s), Hs at 1. rewrite rev_app_distr. reflexivity.
Qed.

Lemma trimEnd_keeps_head u x v :
  isWhiteSpace x = false -> exists r, trimEnd (u ++ x :: v) = u ++ x :: r.
Proof.
  intros Hx. unfold trimEnd. rewrite rev_app_distr. simpl. rewrite <- app_assoc. simpl.
  destruct (trimStart_keeps_tail (rev v) x (rev u) Hx) as [r ->].
  exists (rev r). rewrite rev_app_distr. simpl.
  rewrite rev_involutive, <- app_assoc. reflexivity.
Qed.

(** A line passes the test [a.trim().startsWith(marker)] exactly when it
    is white space, then the marker, then anything. *)
Lemma marker_test first inner last a :
  isWhiteSpace first = false -> isWhiteSpace last = false ->
  startsWith (trim a) (first :: inner ++ [last]) = true
  <-> exists ws rest,
        Forall (fun c => isWhiteSpace c = true) ws
        /\ a = ws ++ (first :: inner ++ [last]) ++ rest.
Proof.
  intros Hfirst Hlast. unfold trim. split.
  - intros H. apply startsWith_prefix in H as [r Hr].
    destruct (trimStart_split a) as [ws [Hws Ha]].
    destruct (trimEnd_split (trimStart a)) as [ws' [_ Ht]].
    exists ws, (r ++ ws'). split; [assumption|].
    rewrite Ha at 1. rewrite Ht at 1. rewrite Hr, <- app_assoc. reflexivity.
  - intros [ws [rest [Hws ->]]].
    change ((first :: inner ++ [last]) ++ rest) with (first :: (inner ++ [last]) ++ rest).
    rewrite trimStart_skip by assumption.
    rewrite <- app_assoc.
    change (first :: inner ++ [last] ++ rest) with ((first :: inner) ++ last :: rest).
    destruct (trimEnd_keeps_head (first :: inner) last rest Hlast) as [r ->].
    apply startsWith_prefix. exists r.
    simpl. rewrite <- app_assoc. reflexivity.
Qed.

(** X5. A line is a begin marker exactly when it is white space followed
    by [// START GENERATED] followed by anything, and an end marker
    exactly when it is white space followed by [// END GENERATED]
    followed by anything: indentation and trailing text do not matter,
    text before the marker does. *)
Theorem marker_lines a :
  (isBegin a = true
   <-> exists ws rest, Forall (fun c => isWhiteSpace c = true) ws
                       /\ a = ws ++ START_GENERATED ++ rest)
  /\ (isEnd a = true
      <-> exists ws rest, Forall (fun c => isWhiteSpace c = true) ws
                          /\ a = ws ++ END_GENERATED ++ rest).
Proof.
  assert (START_GENERATED = 47 :: (47 :: 32 :: 83 :: 84 :: 65 :: 82 :: 84 :: 32 :: 71
                                   :: 69 :: 78 :: 69 :: 82 :: 65 :: 84 :: [69]) ++ [68])
    as Hs by (vm_compute; reflexivity).
  assert (END_GENERATED = 47 :: (47 :: 32 :: 69 :: 78 :: 68 :: 32 :: 71
                                 :: 69 :: 78 :: 69 :: 82 :: 65 :: 84 :: [69]) ++ [68])
    as He by (vm_compute; reflexivity).
  unfold isBegin, isEnd. rewrite Hs, He.
  split; apply marker_test; reflexivity.
Qed.

(** * The image names: the replacement of [.dot] *)

Lemma PNG_units : js ".png" = [46; 112; 110; 103].
Proof. vm_compute. reflexivity. Qed.

Lemma DOT_units : js ".dot" = [46; 100; 111; 116].
Proof. vm_compute. reflexivity. Qed.

Lemma replaceDotByPng_short s : (length s <= 3)%nat -> replaceDotByPng s = s.
Proof.
  destruct s as [|c0 [|c1 [|c2 [|c3 rest]]]]; simpl; try reflexivity. lia.
Qed.

Lemma replaceDotByPng_no_match c tl :
  startsDot tl = false -> replaceDotByPng (c :: tl) = c :: replaceDotByPng tl.
Proof.
  intros H. destruct tl as [|c1 [|c2 [|c3 rest]]]; try reflexivity.
  change (replaceDotByPng (c :: c1 :: c2 :: c3 :: rest))
    with (if negb (isLineTerminator c) && eqIgnoreCase c1 100 68
             && eqIgnoreCase c2 111 79 && eqIgnoreCase c3 116 84
          then js ".png" ++ replaceDotByPng rest
          else c :: replaceDotByPng (c1 :: c2 :: c3 :: rest)).
  simpl in H. rewrite <- andb_assoc in H.
  rewrite <- !andb_assoc, H, andb_false_r. reflexivity.
Qed.

Lemma startsDot_before_extension p : startsDot (p ++ js ".dot") = startsDot p.
Proof.
  rewrite DOT_units.
  destruct p as [|c1 [|c2 [|c3 rest]]]; simpl; try reflexivity.
  - rewrite andb_false_r. reflexivity.
  - rewrite andb_false_r. reflexivity.
Qed.

(** X7. The replacement keeps the length of a name: every match of four
    code units gives way to the four code units of [.png]. *)
Theorem replaceDotByPng_length s : length (replaceDotByPng s) = length s.
Proof.
  remember (length s) as n eqn:Hn. revert s Hn.
  induction n as [n IH] using lt_wf_ind. intros s Hn.
  destruct s as [|c0 [|c1 [|c2 [|c3 rest]]]]; try (subst; reflexivity).
  change (replaceDotByPng (c0 :: c1 :: c2 :: c3 :: rest))
    with (if negb (isLineTerminator c0) && eqIgnoreCase c1 100 68
             && eqIgnoreCase c2 111 79 && eqIgnoreCase c3 116 84
          then js ".png" ++ replaceDotByPng rest
          else c0 :: replaceDotByPng (c1 :: c2 :: c3 :: rest)).
  simpl in Hn. destruct (_ && _ && _ && _).
  - rewrite PNG_units. simpl. rewrite (IH (length rest)); [lia|lia|reflexivity].
  - cbn [length]. rewrite (IH (length (c1 :: c2 :: c3 :: rest)));
      [simpl; lia|simpl; lia|reflexivity].
Qed.

(** X8. A file name that is a stem without [dot] after its first code
    unit, followed by [.dot], gets the image name stem plus [.png]. *)
Theorem replaceDotByPng_extension p :
  dotFree p = true -> replaceDotByPng (p ++ js ".dot") = p ++ js ".png".
Proof.
  induction p as [|c p IH]; intros Hp.
  - vm_compute. reflexivity.
  - simpl in Hp. apply andb_true_iff in Hp as [Hc Hp].
    apply negb_true_iff in Hc.
    change ((c :: p) ++ js ".dot") with (c :: (p ++ js ".dot")).
    rewrite replaceDotByPng_no_match by (rewrite startsDot_before_extension; assumption).
    rewrite IH by assumption. reflexivity.
Qed.

(** X9. A name without [dot] after its first code unit is left as it
    is. *)
Theorem replaceDotByPng_without_dot s :
  dotFree s = true -> replaceDotByPng s = s.
Proof.
  induction s as [|c s IH]; intros Hs; [reflexivity|].
  simpl in Hs. apply andb_true_iff in Hs as [Hc Hs]. apply negb_true_iff in Hc.
  rewrite replaceDotByPng_no_match by assumption.
  rewrite IH by assumption. reflexivity.
Qed.

(** * The image that a README refers to *)





Section ImageReference.

Context (path_resolve : list jsstring -> jsstring)
        (listArchives : ArchiveKind -> World -> jsstring -> option (jsstring -> bool)
                        -> Outcome (list jsstring)).


End ImageReference.

(** * Further properties of the READMEs *)

Lemma find_first {A} (p : A -> bool) a x :
  find p a = Some x ->
  exists before after,
    a = before ++ x :: after
    /\ Forall (fun y => p y = false) before /\ p x = true.
Proof.
  induction a as [|y a IH]; simpl; [discriminate|].
  destruct (p y) eqn:Hy.
  - intros [= <-]. exists [], a. repeat split; [constructor|assumption].
  - intros H. destruct (IH H) as [before [after [-> [Hb Hx]]]].
    exists (y :: before), after. repeat split; [constructor|]; assumption.
Qed.

(** X10. The heading and the description of a command README are those
    of the first automaton of the command whose language is en-US; a
    title that is undefined prints as [undefined], a description that is
    undefined as nothing. *)
Theorem buildReadme_heading this md :
  Command_buildReadme this = Ok md ->
  exists before autom after rest,
    cmd_automatas this = before ++ autom :: after
    /\ Forall (fun a => aut_lang a <> Some (js "en-US")) before
    /\ aut_lang autom = Some (js "en-US")
    /\ md = js "## "
            ++ match aut_title autom with Some title => title | None => js "undefined" end
            ++ PARAGRAPH
            ++ match aut_desc autom with Some desc => desc | None => [] end
            ++ PARAGRAPH ++ js "### Languages" ++ rest.
Proof.
  intros H. apply buildReadme_shape in H as [autom [sections [Hfind [_ ->]]]].
  apply find_first in Hfind as [before [after [Hsplit [Hbefore Hautom]]]].
  exists before, autom, after. eexists.
  split; [assumption|]. split.
  - eapply Forall_impl; [exact Hbefore|]. simpl. intros a Ha Hlang.
    apply isEnUS_lang in Hlang. congruence.
  - split; [apply isEnUS_lang; assumption|]. reflexivity.
Qed.

Lemma mapOutcome_Ok {A B} (f : A -> Outcome B) a r :
  mapOutcome f a = Ok r -> Forall2 (fun x y => f x = Ok y) a r.
Proof.
  revert r. induction a as [|x a IH]; intros r; simpl.
  - intros [= <-]. constructor.
  - destruct (f x) as [y|] eqn:Hx; [|discriminate].
    destruct (mapOutcome f a) as [ys|]; [|discriminate].
    intros [= <-]. constructor; auto.
Qed.

Lemma join_rows sep x (rows : list jsstring) :
  join sep (x :: List.map Some rows)
  = joinElem x ++ concat (List.map (fun r => sep ++ r) rows).
Proof.
  revert x. induction rows as [|r rows IH]; intros x.
  - simpl. rewrite app_nil_r. reflexivity.
  - change (List.map Some (r :: rows)) with (Some r :: List.map Some rows).
    rewrite join_cons2, IH. simpl. rewrite <- app_assoc. reflexivity.
Qed.

Lemma relocateImages_precondition command :
  readmePrecondition (relocateImages command) -> readmePrecondition command.
Proof.
  unfold readmePrecondition, relocateImages. simpl. intros [[a [Hin Hlang]] Hall].
  split.
  - apply list_elem_of_In, in_map_iff in Hin as [a0 [<- Hin]].
    exists a0. split; [apply list_elem_of_In; assumption|exact Hlang].
  - apply Forall_forall. intros a0 Hin0. rewrite Forall_forall in Hall.
    apply (Hall (setRelativeImagePath a0
                   (cmd_name command ++ js "/" ++ aut_relativeImagePath a0))).
    apply list_elem_of_In, in_map_iff. exists a0.
    split; [reflexivity|apply list_elem_of_In; assumption].
Qed.

Lemma relocateImages_twice command :
  Forall2 (fun automata automata' =>
             aut_relativeImagePath automata'
             = cmd_name command ++ js "/" ++ cmd_name command ++ js "/"
               ++ aut_relativeImagePath automata)
    (cmd_automatas command)
    (cmd_automatas (relocateImages (relocateImages command))).
Proof.
  unfold relocateImages. cbn [cmd_automatas cmd_name setAutomatas].
  rewrite map_map. generalize (cmd_name command). intros name.
  induction (cmd_automatas command) as [|a ats IH]; cbn [List.map]; constructor;
    [|assumption].
  reflexivity.
Qed.

Section ReadmeFacts.

Context (Graph : Type) (dot_read : jsstring -> Outcome Graph)
        (graphAttribute : Graph -> jsstring -> option jsstring)
        (path_resolve : list jsstring -> jsstring)
        (listArchives : ArchiveKind -> World -> jsstring -> option (jsstring -> bool)
                        -> Outcome (list jsstring)).

Local Abbreviation moduleReadme := (SpokenModule_buildReadme Graph dot_read graphAttribute).

Lemma moduleReadme_Ok this w md this' w' :
  moduleReadme this w = (Ok (md, this'), w') ->
  exists content parsed readmes,
    files w !! mod_automata this = Some content
    /\ dot_read content = Ok parsed
    /\ mapOutcome Command_buildReadme (List.map relocateImages (mod_commands this))
       = Ok readmes
    /\ md = join PARAGRAPH
              ([Some (js "# " ++ toStr (graphAttribute parsed (js "label")))]
               ++ [graphAttribute parsed (js "desc")]
               ++ [Some (js "![" ++ mod_name this ++ js "](" ++ mod_relativeImagePath this
                         ++ js ")")]
               ++ [Some (js "---")]
               ++ List.map (fun a => Some (a ++ PARAGRAPH ++ js "---")) readmes)
    /\ this' = setCommands this (List.map relocateImages (mod_commands this))
    /\ w' = record (ReadFile (mod_automata this)) w.
Proof.
  unfold SpokenModule_buildReadme. intros H.
  apply bind_Ok in H as [content [w1 [Hread H]]].
  apply bind_Ok in H as [parsed [w2 [Hparsed H]]]. apply lift_Ok in Hparsed as [Hparsed ->].
  apply bind_Ok in H as [readmes [w3 [Hreadmes H]]].
  apply lift_Ok in Hreadmes as [Hreadmes ->].
  injection H as <- <- <-.
  unfold readFileSync in Hread.
  destruct (files w !! mod_automata this) as [text|] eqn:Hf; [|discriminate].
  injection Hread as <- <-.
  exists text, parsed, readmes.
  split; [reflexivity|]. split; [assumption|]. split; [assumption|].
  split; [reflexivity|]. split; reflexivity.
Qed.

(** X11. The README of a module is its heading, its description, its
    image and a rule, then the README of every command, in the order of
    the commands, each followed by a rule; the image references in the
    command READMEs are prefixed with the name of the command. Building
    it writes no file. *)
Theorem moduleReadme_shape this w md this' w' :
  moduleReadme this w = (Ok (md, this'), w') ->
  exists content parsed readmes,
    files w !! mod_automata this = Some content
    /\ dot_read content = Ok parsed
    /\ Forall2 (fun command readme =>
                  Command_buildReadme (relocateImages command) = Ok readme)
         (mod_commands this) readmes
    /\ md = js "# " ++ toStr (graphAttribute parsed (js "label")) ++ PARAGRAPH
            ++ joinElem (graphAttribute parsed (js "desc")) ++ PARAGRAPH
            ++ js "![" ++ mod_name this ++ js "](" ++ mod_relativeImagePath this ++ js ")"
            ++ PARAGRAPH ++ js "---"
            ++ concat (List.map (fun readme => PARAGRAPH ++ readme ++ PARAGRAPH ++ js "---")
                         readmes)
    /\ files w' = files w.
Proof.
  intros H. apply moduleReadme_Ok in H
    as [content [parsed [readmes [Hf [Hparsed [Hreadmes [-> [_ ->]]]]]]]].
  exists content, parsed, readmes.
  split; [assumption|]. split; [assumption|]. split.
  - apply mapOutcome_Ok in Hreadmes.
    clear -Hreadmes. remember (List.map relocateImages (mod_commands this)) as cs eqn:Hcs.
    revert Hcs. generalize (mod_commands this).
    induction Hreadmes as [|c r cs rs Hc _ IH]; intros l Hl.
    + destruct l; [constructor|discriminate].
    + destruct l as [|c0 l]; [discriminate|]. injection Hl as -> ->.
      constructor; [assumption|]. apply IH. reflexivity.
  - split; [|reflexivity].
    cbn [app]. rewrite !join_cons2.
    rewrite <- (map_map (fun a => a ++ PARAGRAPH ++ js "---") Some).
    rewrite join_rows. cbn [joinElem]. rewrite map_map.
    rewrite <- !app_assoc. reflexivity.
Qed.

(** X12. A module README is built only if the README of every command
    of the module can be: every command needs an en-US automaton and
    only en-US and pt-BR automata. *)
Theorem moduleReadme_needs_every_command this w built w' :
  moduleReadme this w = (Ok built, w') ->
  Forall readmePrecondition (mod_commands this).
Proof.
  destruct built as [md this']. intros H.
  apply moduleReadme_Ok in H as [content [parsed [readmes [_ [_ [Hreadmes _]]]]]].
  apply mapOutcome_Ok in Hreadmes.
  apply Forall_forall. intros c Hc.
  apply relocateImages_precondition.
  apply list_elem_of_In in Hc.
  assert (In (relocateImages c) (List.map relocateImages (mod_commands this))) as Hin
    by (apply in_map; assumption).
  clear Hc. induction Hreadmes as [|c1 r cs rs Hc1 _ IH]; [destruct Hin|].
  destruct Hin as [->|Hin]; [exact (buildReadme_needs _ _ Hc1)|auto].
Qed.

(** X13. Every call of [buildReadme] on a module prefixes the image
    paths of the automata of its commands with the name of the command
    once more: after two calls they read name/name/path. *)
Theorem moduleReadme_prefixes_again this w built w1 built' w2 :
  moduleReadme this w = (Ok built, w1) ->
  moduleReadme (snd built) w1 = (Ok built', w2) ->
  Forall2 (fun command command' =>
             cmd_name command' = cmd_name command
             /\ Forall2 (fun automata automata' =>
                           aut_relativeImagePath automata'
                           = cmd_name command ++ js "/" ++ cmd_name command ++ js "/"
                             ++ aut_relativeImagePath automata)
                  (cmd_automatas command) (cmd_automatas command'))
    (mod_commands this) (mod_commands (snd built')).
Proof.
  destruct built as [md1 this1], built' as [md2 this2]. simpl. intros H1 H2.
  apply moduleReadme_Ok in H1 as [_ [_ [_ [_ [_ [_ [_ [-> _]]]]]]]].
  apply moduleReadme_Ok in H2 as [_ [_ [_ [_ [_ [_ [_ [-> _]]]]]]]].
  simpl. rewrite map_map.
  induction (mod_commands this) as [|c cs IH]; simpl; constructor; [|assumption].
  split; [reflexivity|]. apply relocateImages_twice.
Qed.

(** X14. A command as its constructor leaves it has no README yet: the
    automata have no language before [main] has read them, so
    [buildReadme] throws. *)
Theorem fresh_command_has_no_readme name dir w this w' :
  Command_new path_resolve listArchives name dir w = (Ok this, w') ->
  Command_buildReadme this = Throw TypeError.
Proof.
  unfold Command_new, getCommandAutomatas. intros H.
  apply bind_Ok in H as [code [w1 [_ H]]].
  apply bind_Ok in H as [automatas [w2 [Hats H]]]. injection H as <- <-.
  apply bind_Ok in Hats as [items [w3 [_ Hats]]]. injection Hats as <- <-.
  unfold Command_buildReadme. simpl.
  assert (find isEnUS
            (List.map (fun item =>
               {| aut_path := path_resolve [path_resolve [dir; name]; item];
                  aut_image := replaceDotByPng (path_resolve [path_resolve [dir; name]; item]);
                  aut_relativeImagePath := replaceDotByPng item;
                  aut_phrases := None; aut_title := None; aut_desc := None;
                  aut_langName := None; aut_lang := None |}) items) = None) as ->;
    [|reflexivity].
  induction items as [|item items IH]; [reflexivity|exact IH].
Qed.

End ReadmeFacts.

(** * The footprint of the build on the files *)

Section Respects.

Context (R : World -> World -> Prop)
        (R_refl : forall w, R w w)
        (R_trans : forall w1 w2 w3, R w1 w2 -> R w2 w3 -> R w1 w3).

Lemma respects_ret {A} (a : A) : respects R (ret a).
Proof. intros w. apply R_refl. Qed.

Lemma respects_lift {A} (o : Outcome A) : respects R (lift o).
Proof. intros w. apply R_refl. Qed.

Lemma respects_bind {A B} (c : M A) (k : A -> M B) :
  respects R c -> (forall a, respects R (k a)) -> respects R (bind c k).
Proof.
  intros Hc Hk w. unfold bind. specialize (Hc w).
  destruct (c w) as [[a|e] w1]; simpl in *; [|assumption].
  exact (R_trans _ _ _ Hc (Hk a w1)).
Qed.

Lemma respects_forOf {A B} (body : A -> M B) a :
  (forall x, x ∈ a -> respects R (body x)) -> respects R (forOf body a).
Proof.
  induction a as [|x a IH]; intros Hbody; simpl; [apply respects_ret|].
  apply respects_bind; [apply Hbody; left|]. intros y.
  apply respects_bind; [apply IH; intros z Hz; apply Hbody; right; assumption|].
  intros ys. apply respects_ret.
Qed.

(** Reading, warning and listing touch the log only. *)
Lemma respects_log_only {A} (c : M A) :
  (forall w, files (snd (c w)) = files w) ->
  (forall w w', files w' = files w -> R w w') ->
  respects R c.
Proof. intros Hc HR w. apply HR, Hc. Qed.

End Respects.

Lemma sameOutside_refl outputs w : sameOutside outputs w w.
Proof. intros p _. reflexivity. Qed.

Lemma sameOutside_trans outputs w1 w2 w3 :
  sameOutside outputs w1 w2 -> sameOutside outputs w2 w3 -> sameOutside outputs w1 w3.
Proof. intros H12 H23 p Hp. rewrite (H23 p Hp). exact (H12 p Hp). Qed.

Lemma sameOutside_more outputs outputs' w w' :
  (forall p, p ∈ outputs -> p ∈ outputs') ->
  sameOutside outputs w w' -> sameOutside outputs' w w'.
Proof. intros Hsub H p Hp. apply H. intros Hin. apply Hp, Hsub, Hin. Qed.

Lemma noneRemoved_refl w : noneRemoved w w.
Proof. intros p H. exact H. Qed.

Lemma noneRemoved_trans w1 w2 w3 :
  noneRemoved w1 w2 -> noneRemoved w2 w3 -> noneRemoved w1 w3.
Proof. intros H12 H23 p Hp. apply H23, H12, Hp. Qed.

Lemma sameFiles_refl w : sameFiles w w.
Proof. reflexivity. Qed.

Lemma sameFiles_trans w1 w2 w3 : sameFiles w1 w2 -> sameFiles w2 w3 -> sameFiles w1 w3.
Proof. unfold sameFiles. congruence. Qed.

Lemma sameFiles_sameOutside outputs w w' : sameFiles w w' -> sameOutside outputs w w'.
Proof. intros H p _. rewrite H. reflexivity. Qed.

Lemma sameFiles_noneRemoved w w' : sameFiles w w' -> noneRemoved w w'.
Proof. intros H p Hp. rewrite H. exact Hp. Qed.

Lemma readFileSync_sameFiles path : respects sameFiles (readFileSync path).
Proof. intros w. unfold readFileSync. destruct (files w !! path); reflexivity. Qed.

Lemma writeFileSync_sameOutside outputs path content :
  path ∈ outputs -> respects (sameOutside outputs) (writeFileSync path content).
Proof.
  intros Hin w p Hp. simpl. apply lookup_insert_ne. intros ->. contradiction.
Qed.

Lemma writeFileSync_noneRemoved path content :
  respects noneRemoved (writeFileSync path content).
Proof.
  intros w p Hp. simpl. apply lookup_insert_is_Some'. right. exact Hp.
Qed.

Lemma respects_weaken {A} (R R' : World -> World -> Prop) (c : M A) :
  (forall w w', R w w' -> R' w w') -> respects R c -> respects R' c.
Proof. intros HR Hc w. apply HR, Hc. Qed.

Lemma buildGraph_sameOutside outputs this :
  mod_automata this ∈ outputs ->
  respects (sameOutside outputs) (SpokenModule_buildGraph this).
Proof.
  intros Hin. unfold SpokenModule_buildGraph.
  apply respects_bind; [apply sameOutside_trans| |].
  - eapply respects_weaken; [apply sameFiles_sameOutside|apply readFileSync_sameFiles].
  - intros content. destruct (_ || _ || _).
    + intros w p _. reflexivity.
    + apply writeFileSync_sameOutside. assumption.
Qed.

Lemma buildGraph_noneRemoved this : respects noneRemoved (SpokenModule_buildGraph this).
Proof.
  unfold SpokenModule_buildGraph.
  apply respects_bind; [apply noneRemoved_trans| |].
  - eapply respects_weaken; [apply sameFiles_noneRemoved|apply readFileSync_sameFiles].
  - intros content. destruct (_ || _ || _).
    + intros w p Hp. exact Hp.
    + apply writeFileSync_noneRemoved.
Qed.

Lemma outputs_of_command moduleA command p :
  command ∈ mod_commands moduleA -> p ∈ commandOutputs command -> p ∈ moduleOutputs moduleA.
Proof.
  intros Hc Hp. unfold moduleOutputs. do 3 right.
  apply list_elem_of_In, in_concat. exists (commandOutputs command).
  split; [apply in_map, list_elem_of_In; assumption|apply list_elem_of_In; assumption].
Qed.

Lemma outputs_of_module modules moduleA p :
  moduleA ∈ modules -> p ∈ moduleOutputs moduleA -> p ∈ buildOutputs modules.
Proof.
  intros Hm Hp. unfold buildOutputs.
  apply list_elem_of_In, in_concat. exists (moduleOutputs moduleA).
  split; [apply in_map, list_elem_of_In; assumption|apply list_elem_of_In; assumption].
Qed.

Lemma image_of_automata command automata :
  automata ∈ cmd_automatas command -> aut_image automata ∈ commandOutputs command.
Proof.
  intros Ha. unfold commandOutputs. right.
  apply list_elem_of_In, in_map, list_elem_of_In. assumption.
Qed.

(** A loop that returns has established, for every element, what its
    body establishes when it returns, provided no turn undoes it. *)
Lemma forOf_establishes {A B} (E : A -> World -> Prop) (body : A -> M B) :
  (forall x w y w', body x w = (Ok y, w') -> E x w') ->
  (forall x z w, E x w -> E x (snd (body z w))) ->
  forall a w r w', forOf body a w = (Ok r, w') -> forall x, x ∈ a -> E x w'.
Proof.
  intros Hdone Hstable. induction a as [|z a IH]; intros w r w' H x Hx.
  - apply elem_of_nil in Hx. contradiction.
  - simpl in H. apply bind_Ok in H as [y [w1 [Hz H]]].
    apply bind_Ok in H as [ys [w2 [Hrest H]]]. injection H as <- <-.
    apply elem_of_cons in Hx as [->|Hx]; [|exact (IH _ _ _ Hrest x Hx)].
    assert (respects (fun u u' => E z u -> E z u') (forOf body a)) as Hkeep.
    { apply respects_forOf; [auto|eauto|]. intros z' _ u Hu. apply Hstable, Hu. }
    specialize (Hkeep w1). rewrite Hrest in Hkeep. apply Hkeep.
    exact (Hdone _ _ _ _ Hz).
Qed.

Section FootprintFacts.

Context (Graph : Type) (dot_read : jsstring -> Outcome Graph)
        (graphAttribute : Graph -> jsstring -> option jsstring)
        (Templates : Type) (noTemplates : Templates)
        (spread : Templates -> Templates -> Templates)
        (JSON_parse : jsstring -> Outcome Templates)
        (path_resolve : list jsstring -> jsstring) (dirname : jsstring)
        (listArchives : ArchiveKind -> World -> jsstring -> option (jsstring -> bool)
                        -> Outcome (list jsstring))
        (candidatePhrases : Graph -> Templates -> Outcome (list jsstring))
        (renderDot : jsstring -> option jsstring).

Local Abbreviation doAutomata := (processAutomata Graph dot_read graphAttribute Templates
                                    candidatePhrases renderDot).
Local Abbreviation doCommand := (processCommand Graph dot_read graphAttribute Templates
                                   candidatePhrases renderDot).
Local Abbreviation doModule := (processModule Graph dot_read graphAttribute Templates
                                  candidatePhrases renderDot).
Local Abbreviation loop := (mainLoop Graph dot_read graphAttribute Templates
                              candidatePhrases renderDot).
Local Abbreviation moduleReadme := (SpokenModule_buildReadme Graph dot_read graphAttribute).
Local Abbreviation newSpoken := (SpokenModules_new Templates noTemplates spread JSON_parse
                                   path_resolve dirname listArchives).
Local Abbreviation theMain := (main Graph dot_read graphAttribute Templates noTemplates
                                 spread JSON_parse path_resolve dirname listArchives
                                 candidatePhrases renderDot).

Lemma automataToImage_sameOutside outputs path image :
  image ∈ outputs -> respects (sameOutside outputs) (automataToImage renderDot path image).
Proof.
  intros Hin w p Hp. unfold automataToImage.
  destruct (files w !! path) as [text|]; [|reflexivity].
  destruct (renderDot text); [|reflexivity].
  simpl. apply lookup_insert_ne. intros ->. contradiction.
Qed.

Lemma automataToImage_noneRemoved path image :
  respects noneRemoved (automataToImage renderDot path image).
Proof.
  intros w p Hp. unfold automataToImage.
  destruct (files w !! path) as [text|]; [|exact Hp].
  destruct (renderDot text); [|exact Hp].
  simpl. apply lookup_insert_is_Some'. right. exact Hp.
Qed.

Lemma moduleReadme_sameFiles this : respects sameFiles (moduleReadme this).
Proof.
  unfold SpokenModule_buildReadme.
  apply respects_bind; [apply sameFiles_trans|apply readFileSync_sameFiles|].
  intros content. apply respects_bind; [apply sameFiles_trans|apply respects_lift, sameFiles_refl|].
  intros parsed. apply respects_bind; [apply sameFiles_trans|apply respects_lift, sameFiles_refl|].
  intros readmes. apply respects_ret, sameFiles_refl.
Qed.

(** The steps of [main] on one automaton, one command, one module, for
    a relation that reading respects and that the writes of the step
    respect. *)
Lemma processAutomata_respects (R : World -> World -> Prop) templates automata :
  (forall w, R w w) -> (forall w1 w2 w3, R w1 w2 -> R w2 w3 -> R w1 w3) ->
  (forall w w', sameFiles w w' -> R w w') ->
  respects R (automataToImage renderDot (aut_path automata) (aut_image automata)) ->
  respects R (doAutomata templates automata).
Proof.
  intros Hrefl Htrans Hsame Himage. unfold processAutomata.
  apply respects_bind; [assumption|assumption|]. intros _.
  apply respects_bind; [assumption| |].
  { eapply respects_weaken; [exact Hsame|apply readFileSync_sameFiles]. }
  intros content. apply respects_bind; [assumption|apply respects_lift, Hrefl|].
  intros graph. apply respects_bind; [assumption|apply respects_lift, Hrefl|].
  intros phrases. apply respects_ret, Hrefl.
Qed.

Lemma processCommand_respects (R : World -> World -> Prop) templates command :
  (forall w, R w w) -> (forall w1 w2 w3, R w1 w2 -> R w2 w3 -> R w1 w3) ->
  (forall w w', sameFiles w w' -> R w w') ->
  (forall automata, automata ∈ cmd_automatas command ->
     respects R (automataToImage renderDot (aut_path automata) (aut_image automata))) ->
  (forall md, respects R (writeFileSync (cmd_readme command) md)) ->
  respects R (doCommand templates command).
Proof.
  intros Hrefl Htrans Hsame Himage Hwrite. unfold processCommand.
  apply respects_bind; [assumption| |].
  { apply respects_forOf; [assumption|assumption|]. intros a Ha.
    apply processAutomata_respects; auto. }
  intros automatas. apply respects_bind; [assumption|apply respects_lift, Hrefl|].
  intros md. apply respects_bind; [assumption|apply Hwrite|].
  intros _. apply respects_ret, Hrefl.
Qed.

Lemma processModule_respects (R : World -> World -> Prop) templates moduleA :
  (forall w, R w w) -> (forall w1 w2 w3, R w1 w2 -> R w2 w3 -> R w1 w3) ->
  (forall w w', sameFiles w w' -> R w w') ->
  (forall command, command ∈ mod_commands moduleA -> respects R (doCommand templates command)) ->
  (forall commands, respects R (SpokenModule_buildGraph (setCommands moduleA commands))) ->
  respects R (automataToImage renderDot (mod_automata moduleA) (mod_image moduleA)) ->
  (forall md, respects R (writeFileSync (mod_readme moduleA) md)) ->
  respects R (doModule templates moduleA).
Proof.
  intros Hrefl Htrans Hsame Hcommands Hgraph Himage Hwrite. unfold processModule.
  apply respects_bind; [assumption| |].
  { apply respects_forOf; assumption. }
  intros commands. apply respects_bind; [assumption|apply Hgraph|].
  intros _. apply respects_bind; [assumption|exact Himage|].
  intros _. apply respects_bind; [assumption| |].
  { eapply respects_weaken; [exact Hsame|apply moduleReadme_sameFiles]. }
  intros built. apply respects_bind; [assumption|apply Hwrite|].
  intros _. apply respects_ret, Hrefl.
Qed.

Lemma processCommand_sameOutside templates command :
  respects (sameOutside (commandOutputs command)) (doCommand templates command).
Proof.
  apply processCommand_respects.
  - apply sameOutside_refl.
  - apply sameOutside_trans.
  - apply sameFiles_sameOutside.
  - intros a Ha. apply automataToImage_sameOutside, image_of_automata, Ha.
  - intros md. apply writeFileSync_sameOutside. left.
Qed.

Lemma processCommand_noneRemoved templates command :
  respects noneRemoved (doCommand templates command).
Proof.
  apply processCommand_respects.
  - apply noneRemoved_refl.
  - apply noneRemoved_trans.
  - apply sameFiles_noneRemoved.
  - intros a _. apply automataToImage_noneRemoved.
  - intros md. apply writeFileSync_noneRemoved.
Qed.

Lemma processModule_sameOutside templates moduleA :
  respects (sameOutside (moduleOutputs moduleA)) (doModule templates moduleA).
Proof.
  apply processModule_respects.
  - apply sameOutside_refl.
  - apply sameOutside_trans.
  - apply sameFiles_sameOutside.
  - intros c Hc. eapply respects_weaken; [|apply processCommand_sameOutside].
    intros w w'. apply sameOutside_more. intros p. apply outputs_of_command, Hc.
  - intros commands. apply buildGraph_sameOutside. simpl. left.
  - apply automataToImage_sameOutside. right. left.
  - intros md. apply writeFileSync_sameOutside. do 2 right. left.
Qed.

Lemma processModule_noneRemoved templates moduleA :
  respects noneRemoved (doModule templates moduleA).
Proof.
  apply processModule_respects.
  - apply noneRemoved_refl.
  - apply noneRemoved_trans.
  - apply sameFiles_noneRemoved.
  - intros c _. apply processCommand_noneRemoved.
  - intros commands. apply buildGraph_noneRemoved.
  - apply automataToImage_noneRemoved.
  - intros md. apply writeFileSync_noneRemoved.
Qed.

(** X15. The loop of [main] changes no file other than the README of a
    command, the image of an automaton, and the automaton, the image and
    the README of a module; the renderer is taken to write its image
    only. Sources, templates and the automata of the commands stay as
    they are. *)
Theorem build_writes_only_outputs (spoken : SpokenModules Templates) w p :
  p ∉ buildOutputs (spoken_modules Templates spoken) ->
  files (snd (loop spoken w)) !! p = files w !! p.
Proof.
  intros Hp.
  assert (respects (sameOutside (buildOutputs (spoken_modules Templates spoken)))
            (loop spoken)) as H.
  { unfold mainLoop. apply respects_forOf.
    - apply sameOutside_refl.
    - apply sameOutside_trans.
    - intros m Hm. eapply respects_weaken; [|apply processModule_sameOutside].
      intros u u'. apply sameOutside_more. intros q. apply outputs_of_module, Hm. }
  exact (H w p Hp).
Qed.

(** X16. The loop of [main] removes no file, however it ends: a file
    that is there before is there after. *)
Theorem build_removes_no_file (spoken : SpokenModules Templates) w p :
  is_Some (files w !! p) -> is_Some (files (snd (loop spoken w)) !! p).
Proof.
  intros Hp.
  assert (respects noneRemoved (loop spoken)) as H.
  { unfold mainLoop. apply respects_forOf.
    - apply noneRemoved_refl.
    - apply noneRemoved_trans.
    - intros m _. apply processModule_noneRemoved. }
  exact (H w p Hp).
Qed.

Lemma processModule_Ok templates moduleA w moduleA' w' :
  doModule templates moduleA w = (Ok moduleA', w') ->
  exists commands w1 w2 w3 built w4,
    forOf (doCommand templates) (mod_commands moduleA) w = (Ok commands, w1)
    /\ SpokenModule_buildGraph (setCommands moduleA commands) w1 = (Ok tt, w2)
    /\ automataToImage renderDot (mod_automata moduleA) (mod_image moduleA) w2 = (Ok tt, w3)
    /\ moduleReadme (setCommands moduleA commands) w3 = (Ok built, w4)
    /\ w' = mkWorld (<[mod_readme moduleA := fst built]> (files w4))
              (log w4 ++ [WriteFile (mod_readme moduleA) (fst built)]).
Proof.
  unfold processModule. intros H.
  apply bind_Ok in H as [commands [w1 [Hloop H]]].
  apply bind_Ok in H as [[] [w2 [Hgraph H]]].
  apply bind_Ok in H as [[] [w3 [Himage H]]].
  apply bind_Ok in H as [built [w4 [Hreadme H]]].
  apply bind_Ok in H as [[] [w5 [Hwrite H]]].
  injection H as <- <-. injection Hwrite as <-.
  exists commands, w1, w2, w3, built, w4. auto 10.
Qed.

(** X17. When the loop of [main] returns, the README of every module
    and of every command is there, and so is the automaton of every
    module. *)
Theorem build_leaves_readmes (spoken : SpokenModules Templates) w done w' :
  loop spoken w = (Ok done, w') ->
  forall moduleA, moduleA ∈ spoken_modules Templates spoken ->
    is_Some (files w' !! mod_readme moduleA)
    /\ is_Some (files w' !! mod_automata moduleA)
    /\ forall command, command ∈ mod_commands moduleA ->
         is_Some (files w' !! cmd_readme command).
Proof.
  unfold mainLoop.
  apply (forOf_establishes
           (fun moduleA u =>
              is_Some (files u !! mod_readme moduleA)
              /\ is_Some (files u !! mod_automata moduleA)
              /\ forall command, command ∈ mod_commands moduleA ->
                   is_Some (files u !! cmd_readme command))).
  - intros m u m' u' H.
    apply processModule_Ok in H
      as [commands [w1 [w2 [w3 [built [w4 [Hloop [Hgraph [Himage [Hreadme ->]]]]]]]]]].
    assert (noneRemoved w1 w4) as Hkept.
    { pose proof (buildGraph_noneRemoved (setCommands m commands) w1) as H12.
      rewrite Hgraph in H12.
      pose proof (automataToImage_noneRemoved (mod_automata m) (mod_image m) w2) as H23.
      rewrite Himage in H23.
      pose proof (moduleReadme_sameFiles (setCommands m commands) w3) as H34.
      rewrite Hreadme in H34. apply sameFiles_noneRemoved in H34.
      exact (noneRemoved_trans _ _ _ H12 (noneRemoved_trans _ _ _ H23 H34)). }
    simpl. split; [rewrite lookup_insert_eq; eauto|]. split.
    + apply lookup_insert_is_Some'. right.
      destruct built as [md m2].
      apply (moduleReadme_Ok Graph dot_read graphAttribute) in Hreadme
        as [content [_ [_ [Hf [_ [_ [_ [_ ->]]]]]]]].
      simpl. simpl in Hf. rewrite Hf. eauto.
    + intros c Hc. apply lookup_insert_is_Some'. right. apply Hkept.
      apply (forOf_establishes (fun c0 u0 => is_Some (files u0 !! cmd_readme c0))
               (doCommand (spoken_templates Templates spoken)))
        with (a := mod_commands m) (w := u) (r := commands); [| |exact Hloop|exact Hc].
      * intros c0 u0 c' u0' H0.
        apply processCommand_Ok in H0 as [ats [u1 [md [_ [_ [_ ->]]]]]].
        simpl. rewrite lookup_insert_eq. eauto.
      * intros c0 z u0 Hu0. apply processCommand_noneRemoved. exact Hu0.
  - intros m z u [Hr [Ha Hc]].
    pose proof (processModule_noneRemoved (spoken_templates Templates spoken) z u) as Hk.
    split; [apply Hk, Hr|]. split; [apply Hk, Ha|]. intros c Hin. apply Hk, Hc, Hin.
Qed.

Lemma listing_sameFiles kind path filter :
  respects sameFiles
    (fun w => (listArchives kind w path filter, w) : Outcome (list jsstring) * World).
Proof. intros w. reflexivity. Qed.

Lemma Command_new_sameFiles name dir :
  respects sameFiles (Command_new path_resolve listArchives name dir).
Proof.
  unfold Command_new, getCommandAutomatas, listFiles.
  apply respects_bind; [apply sameFiles_trans|apply readFileSync_sameFiles|].
  intros code. apply respects_bind; [apply sameFiles_trans| |].
  - apply respects_bind; [apply sameFiles_trans|apply listing_sameFiles|].
    intros ats. apply respects_ret, sameFiles_refl.
  - intros automatas. apply respects_ret, sameFiles_refl.
Qed.

Lemma SpokenModule_new_sameFiles name :
  respects sameFiles (SpokenModule_new path_resolve dirname listArchives name).
Proof.
  unfold SpokenModule_new.
  apply respects_bind; [apply sameFiles_trans|apply listing_sameFiles|].
  intros names. apply respects_bind; [apply sameFiles_trans| |].
  - apply respects_forOf; [apply sameFiles_refl|apply sameFiles_trans|].
    intros name1 _. apply Command_new_sameFiles.
  - intros commands. apply respects_ret, sameFiles_refl.
Qed.

Lemma emits_listing P kind path filter :
  emits P (fun w => (listArchives kind w path filter, w) : Outcome (list jsstring) * World).
Proof. intros w. exists []. rewrite app_nil_r. split; [reflexivity|constructor]. Qed.

Lemma Command_new_reads name dir :
  emits (fun ev => exists path, ev = ReadFile path)
    (Command_new path_resolve listArchives name dir).
Proof.
  unfold Command_new, getCommandAutomatas, listFiles.
  apply emits_bind; [apply emits_readFileSync; eauto|]. intros code.
  apply emits_bind.
  - apply emits_bind; [apply emits_listing|]. intros ats. apply emits_ret.
  - intros automatas. apply emits_ret.
Qed.

Lemma SpokenModules_new_sameFiles : respects sameFiles newSpoken.
Proof.
  unfold SpokenModules_new, listFolders.
  apply respects_bind; [apply sameFiles_trans|apply listing_sameFiles|].
  intros names. apply respects_bind; [apply sameFiles_trans| |].
  - apply respects_forOf; [apply sameFiles_refl|apply sameFiles_trans|].
    intros name _. apply SpokenModule_new_sameFiles.
  - intros modules.
    apply respects_bind; [apply sameFiles_trans|apply readFileSync_sameFiles|].
    intros content.
    apply respects_bind; [apply sameFiles_trans|apply respects_lift, sameFiles_refl|].
    intros parsed. apply respects_ret, sameFiles_refl.
Qed.

Lemma SpokenModules_new_reads :
  emits (fun ev => exists path, ev = ReadFile path) newSpoken.
Proof.
  unfold SpokenModules_new, listFolders.
  apply emits_bind; [apply emits_listing|]. intros names.
  apply emits_bind.
  - apply emits_forOf. intros name _. unfold SpokenModule_new.
    apply emits_bind; [apply emits_listing|]. intros names1.
    apply emits_bind; [|intros commands; apply emits_ret].
    apply emits_forOf. intros name1 _. apply Command_new_reads.
  - intros modules.
    apply emits_bind; [apply emits_readFileSync; eauto|]. intros content.
    apply emits_bind; [apply emits_lift|]. intros parsed. apply emits_ret.
Qed.

(** X18. Building the tree of modules and commands writes nothing: the
    constructors list folders and read files, and leave every file as it
    is, whether they return or throw; all that they log is reads. *)
Theorem construction_reads_only w :
  sameFiles w (snd (SpokenModules_new Templates noTemplates spread JSON_parse
                      path_resolve dirname listArchives w))
  /\ exists l, log (snd (SpokenModules_new Templates noTemplates spread JSON_parse
                           path_resolve dirname listArchives w)) = log w ++ l
               /\ Forall (fun ev => exists path, ev = ReadFile path) l.
Proof.
  split.
  - exact (SpokenModules_new_sameFiles w).
  - exact (SpokenModules_new_reads w).
Qed.

(** X19. When the tree cannot be built (a folder that cannot be listed,
    a command without [impl.ts], templates that are missing or do not
    parse), [main] ends with that error and has changed no file. *)
Theorem main_fails_before_writing w e w' :
  SpokenModules_new Templates noTemplates spread JSON_parse path_resolve dirname
    listArchives w = (Throw e, w') ->
  main Graph dot_read graphAttribute Templates noTemplates spread JSON_parse path_resolve
    dirname listArchives candidatePhrases renderDot w = (Throw e, w')
  /\ sameFiles w w'.
Proof.
  intros H. split.
  - unfold main. apply bind_Throw. exact H.
  - pose proof (SpokenModules_new_sameFiles w) as Hsame.
    rewrite H in Hsame. exact Hsame.
Qed.

End FootprintFacts.

(** * The phrase files and the generated lines *)

Lemma endsWith_suffix s p : endsWith s p = true <-> exists r, s = r ++ p.
Proof.
  unfold endsWith. rewrite startsWith_prefix. split.
  - intros [r Hr]. exists (rev r).
    rewrite <- (rev_involutive s), Hr, rev_app_distr, rev_involutive. reflexivity.
  - intros [r ->]. exists (rev r). apply rev_app_distr.
Qed.

(** X20. The automata of a command are the files of its folder that are
    named [phrase_], then anything, then [.dot]: the two tests of the
    filter cannot be met by overlapping text. *)
Theorem isPhraseFile_names a :
  isPhraseFile a = true <-> exists lang, a = js "phrase_" ++ lang ++ js ".dot".
Proof.
  unfold isPhraseFile. rewrite andb_true_iff, startsWith_prefix, endsWith_suffix.
  split.
  - intros [[t ->] [u Hu]]. apply app_eq_inv in Hu as [[l [Hp Ht]]|[l [_ ->]]]; [|eauto].
    destruct l as [|x l]; [exists []; rewrite app_nil_l in Ht; rewrite <- Ht; reflexivity|].
    exfalso. rewrite DOT_units in Ht.
    assert (x = 46) as -> by (destruct u; simpl in Ht; congruence || (injection Ht; auto)).
    assert (46 ∈ js "phrase_") as Hin by (rewrite Hp; apply elem_of_app; right; left).
    literal_member Hin.
  - intros [lang ->]. split; [eauto|]. exists (js "phrase_" ++ lang).
    rewrite <- app_assoc. reflexivity.
Qed.

Lemma digits_injective d1 d2 : digits d1 = digits d2 -> d1 = d2.
Proof.
  revert d2. induction d1; intros d2; destruct d2; simpl; intros H;
    try discriminate; try reflexivity; injection H as H; f_equal; auto.
Qed.

Lemma numToString_injective n m : numToString n = numToString m -> n = m.
Proof.
  unfold numToString. intros H. apply digits_injective in H.
  rewrite <- (Unsigned.of_to n), <- (Unsigned.of_to m), H. reflexivity.
Qed.

(** Digits that are followed by a space end where the space is. *)
Lemma digits_then_space (d1 d2 r1 r2 : jsstring) :
  (forall x, x ∈ d1 -> 48 <= x <= 57) -> (forall x, x ∈ d2 -> 48 <= x <= 57) ->
  d1 ++ 32 :: r1 = d2 ++ 32 :: r2 -> d1 = d2 /\ r1 = r2.
Proof.
  revert d2. induction d1 as [|x d1 IH]; intros d2 H1 H2 H.
  - destruct d2 as [|y d2]; simpl in H; [injection H; auto|].
    injection H as <- _. specialize (H2 32 ltac:(left)). lia.
  - destruct d2 as [|y d2]; simpl in H.
    + injection H as -> _. specialize (H1 32 ltac:(left)). lia.
    + injection H as -> H. destruct (IH d2) as [-> ->]; auto.
      * intros z Hz. apply H1. right. assumption.
      * intros z Hz. apply H2. right. assumption.
Qed.

(** X21. A generated line tells its position and the name of its
    command: two lines are the same only for the same position and the
    same name, so the commands of a module go to states 1, 2, ... that
    are all different. *)
Theorem transitionLine_injective index item index' item' :
  transitionLine index item = transitionLine index' item' ->
  index = index' /\ cmd_name item = cmd_name item'.
Proof.
  unfold transitionLine. intros H. apply app_inv_head in H.
  assert (js " [label=" = 32 :: js "[label=") as Hlabel by (vm_compute; reflexivity).
  rewrite Hlabel in H.
  change ((32 :: js "[label=") ++ ?t) with (32 :: (js "[label=" ++ t)) in H.
  apply digits_then_space in H as [Hnum H];
    [|intros x Hx; exact (digits_range _ _ Hx)|intros x Hx; exact (digits_range _ _ Hx)].
  apply numToString_injective in Hnum. split; [lia|].
  do 3 apply app_inv_head in H. apply app_inv_tail in H. exact H.
Qed.

(** * The check of the Visual Studio Code extension *)

Lemma find_first_at {A} (p : A -> bool) before x after :
  Forall (fun y => p y = false) before -> p x = true ->
  find p (before ++ x :: after) = Some x.
Proof.
  intros Hb Hx. induction Hb as [|y before Hy _ IH]; simpl.
  - rewrite Hx. reflexivity.
  - rewrite Hy. exact IH.
Qed.

Lemma isExtensionFile_nonempty item :
  Prerequisites.isExtensionFile item = true -> item <> [].
Proof.
  intros H ->. vm_compute in H. discriminate.
Qed.

Section PrerequisitesFacts.

Context (appVersion : jsstring) (isDev : bool) (appRoot resourcesPath : jsstring)
        (path_resolve : list jsstring -> jsstring)
        (readdirSync : jsstring -> option (list jsstring))
        (spawnSync : jsstring -> list jsstring -> Prerequisites.SpawnResult).

Local Abbreviation root := (if isDev then appRoot else resourcesPath).
Local Abbreviation extensionPath :=
  (Prerequisites.getExtensionPath isDev appRoot resourcesPath path_resolve readdirSync).
Local Abbreviation alreadyInstalled :=
  (Prerequisites.checkIfVSCodeExtensionIsAlreadyInstalled appVersion spawnSync).
Local Abbreviation theCheck :=
  (Prerequisites.check appVersion isDev appRoot resourcesPath path_resolve readdirSync
     spawnSync).
Local Abbreviation versionRun := (Prerequisites.Spawn (js "code") [js "--version"]).
Local Abbreviation listRun :=
  (Prerequisites.Spawn (js "code") [js "--list-extensions"; js "--show-versions"]).

(** X22. [getExtensionPath] returns the path of the first file of the
    resources folder, in the order of the listing, whose name includes
    [speech2code] and ends with [.vsix]; when the folder has no such
    file it throws [ExtensionFileNotFound]. *)
Theorem getExtensionPath_first_match (files : list jsstring) :
  readdirSync (path_resolve [root]) = Some files ->
  (forall p,
     extensionPath = Prerequisites.Returned p
     <-> exists before f after,
           files = before ++ f :: after
           /\ Forall (fun g => Prerequisites.isExtensionFile g = false) before
           /\ Prerequisites.isExtensionFile f = true
           /\ p = path_resolve [root; f])
  /\ (Forall (fun g => Prerequisites.isExtensionFile g = false) files ->
      extensionPath = Prerequisites.Failed Prerequisites.ExtensionFileNotFound).
Proof.
  intros Hfiles. unfold Prerequisites.getExtensionPath. rewrite Hfiles. split.
  - intros p. split.
    + destruct (Nat.eqb (length files) 0); [discriminate|].
      destruct (find Prerequisites.isExtensionFile files) as [f|] eqn:Hfind; [|discriminate].
      destruct (jsstring_eqb f []); [discriminate|]. intros [= <-].
      apply find_first in Hfind as [before [after [-> [Hb Hf]]]].
      exists before, f, after. auto.
    + intros [before [f [after [-> [Hb [Hf ->]]]]]].
      rewrite length_app. simpl.
      replace (Nat.eqb (length before + S (length after)) 0) with false
        by (symmetry; apply Nat.eqb_neq; lia).
      rewrite (find_first_at _ _ _ _ Hb Hf).
      destruct (jsstring_eqb f []) eqn:He; [|reflexivity].
      apply jsstring_eqb_eq in He. apply isExtensionFile_nonempty in Hf. contradiction.
  - intros Hnone. destruct (Nat.eqb (length files) 0); [reflexivity|].
    destruct (find Prerequisites.isExtensionFile files) as [f|] eqn:Hfind; [|reflexivity].
    apply find_Some in Hfind as [Hin Hf]. rewrite Forall_forall in Hnone.
    rewrite (Hnone f Hin) in Hf. discriminate.
Qed.

Lemma VSCODE_EXT_ID_nonempty : Prerequisites.VSCODE_EXT_ID appVersion <> [].
Proof.
  unfold Prerequisites.VSCODE_EXT_ID.
  assert (js "pedroaugusto.speech2code@" = 112 :: js "edroaugusto.speech2code@") as ->
    by (vm_compute; reflexivity).
  discriminate.
Qed.

Lemma listed_member (extensions : list jsstring) :
  Prerequisites.listed appVersion extensions = true
  <-> Prerequisites.VSCODE_EXT_ID appVersion ∈ extensions.
Proof.
  unfold Prerequisites.listed.
  destruct (find (fun a => jsstring_eqb a (Prerequisites.VSCODE_EXT_ID appVersion)) extensions)
    as [a|] eqn:Hfind.
  - apply find_Some in Hfind as [Hin Ha]. apply jsstring_eqb_eq in Ha. subst a.
    split; [intros _; exact Hin|]. intros _.
    destruct (jsstring_eqb (Prerequisites.VSCODE_EXT_ID appVersion) []) eqn:He; [|reflexivity].
    apply jsstring_eqb_eq in He. apply VSCODE_EXT_ID_nonempty in He. contradiction.
  - split; [discriminate|]. intros Hin.
    apply find_None in Hfind. rewrite Forall_forall in Hfind.
    specialize (Hfind _ Hin). simpl in Hfind.
    assert (jsstring_eqb (Prerequisites.VSCODE_EXT_ID appVersion)
              (Prerequisites.VSCODE_EXT_ID appVersion) = true) as Heq
      by (apply jsstring_eqb_eq; reflexivity).
    congruence.
Qed.

(** X23. When [code --list-extensions --show-versions] runs without
    error and writes nothing to its error stream, the extension counts
    as installed exactly when one line of the output is
    [pedroaugusto.speech2code@] followed by the version of the
    application, to the letter: another version, or a carriage return at
    the end of the line, is not a match. *)
Theorem installed_is_exact_line (out : jsstring) :
  Prerequisites.error (spawnSync (js "code") [js "--list-extensions"; js "--show-versions"])
  = false ->
  Prerequisites.stderr (spawnSync (js "code") [js "--list-extensions"; js "--show-versions"])
  = Some [] ->
  Prerequisites.stdout (spawnSync (js "code") [js "--list-extensions"; js "--show-versions"])
  = Some out ->
  exists answer,
    fst alreadyInstalled = Prerequisites.Returned answer
    /\ (answer = true <-> Prerequisites.VSCODE_EXT_ID appVersion ∈ split LF out).
Proof.
  intros Herr Hstderr Hstdout.
  unfold Prerequisites.checkIfVSCodeExtensionIsAlreadyInstalled,
    Prerequisites.failedOrComplained, Prerequisites.stderrToString.
  rewrite Herr, Hstderr, Hstdout. simpl.
  eexists. split; [reflexivity|]. apply listed_member.
Qed.

(** X24. When [check] returns, either the extension was listed and
    nothing but the two queries was run, or it was not listed, the
    extension file was found, the install was run on it without error
    and with the word [warning] on its error stream, and the dialog was
    shown after the install. The install is never run for an extension
    that is listed. *)
Theorem check_returns (trace : list Prerequisites.Action) :
  theCheck = (Prerequisites.Returned tt, trace) ->
  (fst alreadyInstalled = Prerequisites.Returned true
   /\ trace = [versionRun; listRun])
  \/ (exists p text,
        fst alreadyInstalled = Prerequisites.Returned false
        /\ extensionPath = Prerequisites.Returned p
        /\ Prerequisites.error (spawnSync (js "code") [js "--install-extension"; p]) = false
        /\ Prerequisites.stderr (spawnSync (js "code") [js "--install-extension"; p])
           = Some text
        /\ includes text (js "warning") = true
        /\ trace = [versionRun; listRun;
                    Prerequisites.Spawn (js "code") [js "--install-extension"; p];
                    Prerequisites.installingDialog]).
Proof.
  unfold Prerequisites.check.
  assert (snd (Prerequisites.checkVSCodeIsInstalled spawnSync) = [versionRun]) as Hv.
  { unfold Prerequisites.checkVSCodeIsInstalled.
    destruct (Prerequisites.failedOrComplained _) as [[|]|]; [|reflexivity|reflexivity].
    destruct (Prerequisites.stderrToString _); reflexivity. }
  assert (snd alreadyInstalled = [listRun]) as Hl.
  { unfold Prerequisites.checkIfVSCodeExtensionIsAlreadyInstalled.
    destruct (Prerequisites.failedOrComplained _) as [[|]|]; [| |reflexivity].
    - destruct (Prerequisites.stderrToString _); reflexivity.
    - destruct (Prerequisites.stdout _); reflexivity. }
  destruct (Prerequisites.checkVSCodeIsInstalled spawnSync) as [[[]|e1] t1];
    [|discriminate]. simpl in Hv. subst t1.
  destruct alreadyInstalled as [[[|]|e2] t2]; [| |discriminate]; simpl in Hl; subst t2.
  - intros [= <-]. left. auto.
  - unfold Prerequisites.checkIfVSCodeExtensionIsInPath.
    destruct extensionPath as [p|e3]; [|discriminate].
    unfold Prerequisites.installVSCodeExtension, Prerequisites.stderrToString.
    destruct (Prerequisites.error (spawnSync (js "code") [js "--install-extension"; p]))
      eqn:Herr.
    { destruct (Prerequisites.stderr _); discriminate. }
    destruct (Prerequisites.stderr (spawnSync (js "code") [js "--install-extension"; p]))
      as [text|] eqn:Hstderr; [|discriminate].
    destruct (includes text (js "warning")) eqn:Hwarn; simpl; [|discriminate].
    intros [= <-]. right. exists p, text. auto 10.
Qed.

End PrerequisitesFacts.

(** * The further properties at work on the small tree *)

Lemma buildGraph_writes_only_automaton_demo :
  files (snd (SpokenModule_buildGraph demoModule demoWorld)) !! cmd_readme demoCreate
  = files demoWorld !! cmd_readme demoCreate.
Proof.
  apply (buildGraph_writes_only_automaton demoModule demoWorld (cmd_readme demoCreate)).
  apply (bool_decide_unpack _). vm_compute. exact I.
Defined.

Lemma buildGraph_output_has_markers_demo :
  exists out e',
    files (snd (SpokenModule_buildGraph demoModule demoWorld)) !! mod_automata demoModule
    = Some out
    /\ firstAt isBegin (split LF out) 1
    /\ firstAt isEnd (split LF out) e'
    /\ (1 < e')%nat.
Proof.
  apply (buildGraph_output_has_markers demoModule demoWorld demoModuleAutomaton 1 4).
  - vm_compute. reflexivity.
  - apply firstIndex_Some. vm_compute. reflexivity.
  - apply firstIndex_Some. vm_compute. reflexivity.
  - lia.
Defined.

Lemma buildGraph_last_list_wins_demo :
  files (snd (SpokenModule_buildGraph (setCommands demoModule [demoDelete])
                (snd (SpokenModule_buildGraph demoModule demoWorld))))
  = files (snd (SpokenModule_buildGraph (setCommands demoModule [demoDelete]) demoWorld)).
Proof.
  apply (buildGraph_last_list_wins demoModule [demoDelete] demoWorld).
  apply (bool_decide_unpack _). vm_compute. exact I.
Defined.

Lemma markers_never_coincide_demo : 1%nat <> 4%nat.
Proof.
  apply (markers_never_coincide (split LF demoModuleAutomaton) 1 4).
  - apply firstIndex_Some. vm_compute. reflexivity.
  - apply firstIndex_Some. vm_compute. reflexivity.
Defined.

Lemma replaceDotByPng_extension_demo :
  replaceDotByPng (js "phrase_pt-BR" ++ js ".dot") = js "phrase_pt-BR" ++ js ".png".
Proof.
  apply (replaceDotByPng_extension (js "phrase_pt-BR")). vm_compute. reflexivity.
Defined.

Lemma replaceDotByPng_without_dot_demo :
  replaceDotByPng (js "README.md") = js "README.md".
Proof.
  apply (replaceDotByPng_without_dot (js "README.md")). vm_compute. reflexivity.
Defined.

Lemma buildReadme_heading_demo :
  exists before autom after rest,
    cmd_automatas demoCreateDone = before ++ autom :: after
    /\ Forall (fun a => aut_lang a <> Some (js "en-US")) before
    /\ aut_lang autom = Some (js "en-US")
    /\ demoCreateReadme
       = js "## "
         ++ match aut_title autom with Some title => title | None => js "undefined" end
         ++ PARAGRAPH
         ++ match aut_desc autom with Some desc => desc | None => [] end
         ++ PARAGRAPH ++ js "### Languages" ++ rest.
Proof.
  apply (buildReadme_heading demoCreateDone demoCreateReadme). vm_compute. reflexivity.
Defined.

Lemma moduleReadme_shape_demo :
  exists content parsed readmes,
    files demoWorld !! mod_automata demoModuleDone = Some content
    /\ demo_dot_read content = Ok parsed
    /\ Forall2 (fun command readme =>
                  Command_buildReadme (relocateImages command) = Ok readme)
         (mod_commands demoModuleDone) readmes
    /\ match fst (demo_moduleReadme demoModuleDone demoWorld) with
       | Ok built => fst built
       | Throw _ => []
       end
       = js "# " ++ toStr (demo_graphAttribute parsed (js "label")) ++ PARAGRAPH
         ++ joinElem (demo_graphAttribute parsed (js "desc")) ++ PARAGRAPH
         ++ js "![" ++ mod_name demoModuleDone ++ js "]("
         ++ mod_relativeImagePath demoModuleDone ++ js ")"
         ++ PARAGRAPH ++ js "---"
         ++ concat (List.map (fun readme => PARAGRAPH ++ readme ++ PARAGRAPH ++ js "---")
                      readmes)
    /\ files (snd (demo_moduleReadme demoModuleDone demoWorld)) = files demoWorld.
Proof.
  apply (moduleReadme_shape jsstring demo_dot_read demo_graphAttribute
           demoModuleDone demoWorld _
           match fst (demo_moduleReadme demoModuleDone demoWorld) with
           | Ok built => snd built
           | Throw _ => noModule
           end).
  evaluated.
Defined.

Lemma moduleReadme_needs_every_command_demo :
  Forall readmePrecondition (mod_commands demoModuleDone).
Proof.
  apply (moduleReadme_needs_every_command jsstring demo_dot_read demo_graphAttribute
           demoModuleDone demoWorld
           match fst (demo_moduleReadme demoModuleDone demoWorld) with
           | Ok built => built
           | Throw _ => ([], noModule)
           end
           (snd (demo_moduleReadme demoModuleDone demoWorld))).
  evaluated.
Defined.

Lemma fresh_command_has_no_readme_demo :
  Command_buildReadme demoCreate = Throw TypeError.
Proof.
  apply (fresh_command_has_no_readme demo_path_resolve demo_listArchives (js "create")
           (mod_root demoModule) demoWorld demoCreate
           (snd (Command_new demo_path_resolve demo_listArchives (js "create")
                   (mod_root demoModule) demoWorld))).
  evaluated.
Defined.

Lemma build_writes_only_outputs_demo :
  files (snd (demo_mainLoop demoSpoken demoWorld)) !! (demo_root ++ js "/files/create/impl.ts")
  = files demoWorld !! (demo_root ++ js "/files/create/impl.ts").
Proof.
  apply (build_writes_only_outputs jsstring demo_dot_read demo_graphAttribute unit
           demo_candidatePhrases demo_renderDot demoSpoken demoWorld).
  apply (bool_decide_unpack _). vm_compute. exact I.
Defined.

Lemma build_removes_no_file_demo :
  is_Some (files (snd (demo_mainLoop demoSpoken brokenWorld))
             !! (demo_root ++ js "/files/delete/phrase_en-US.dot")).
Proof.
  apply (build_removes_no_file jsstring demo_dot_read demo_graphAttribute unit
           demo_candidatePhrases demo_renderDot demoSpoken brokenWorld).
  vm_compute. eauto.
Defined.

Lemma build_leaves_readmes_demo :
  is_Some (files (snd (demo_mainLoop demoSpoken demoWorld)) !! mod_readme demoModule)
  /\ is_Some (files (snd (demo_mainLoop demoSpoken demoWorld)) !! mod_automata demoModule)
  /\ forall command, command ∈ mod_commands demoModule ->
       is_Some (files (snd (demo_mainLoop demoSpoken demoWorld)) !! cmd_readme command).
Proof.
  apply (build_leaves_readmes jsstring demo_dot_read demo_graphAttribute unit
           demo_candidatePhrases demo_renderDot demoSpoken demoWorld
           match fst (demo_mainLoop demoSpoken demoWorld) with
           | Ok done => done
           | Throw _ => []
           end).
  - evaluated.
  - vm_compute. left.
Defined.

Lemma main_fails_before_writing_demo :
  demo_main untemplatedWorld
  = (Throw (FileNotFound (demo_root ++ js "/__meta/default-templates.json")),
     snd (demo_SpokenModules_new untemplatedWorld))
  /\ sameFiles untemplatedWorld (snd (demo_SpokenModules_new untemplatedWorld)).
Proof.
  apply (main_fails_before_writing jsstring demo_dot_read demo_graphAttribute unit tt
           (fun _ _ => tt) demo_JSON_parse demo_path_resolve demo_dirname demo_listArchives
           demo_candidatePhrases demo_renderDot untemplatedWorld).
  evaluated.
Defined.

Lemma transitionLine_injective_demo :
  0%nat = 0%nat /\ cmd_name demoCreate = cmd_name (setAutomatas demoCreate []).
Proof.
  apply (transitionLine_injective 0 demoCreate 0 (setAutomatas demoCreate [])).
  reflexivity.
Defined.

Lemma getExtensionPath_first_match_demo :
  (forall p,
     Prerequisites.getExtensionPath false (js "/dev") (js "/opt/app/resources")
       demo_path_resolve demo_readdirSync = Prerequisites.Returned p
     <-> exists before f after,
           [js "app.asar"; js "speech2code.txt"; js "spoken-speech2code-1.0.0.vsix";
            js "speech2code-old.vsix"] = before ++ f :: after
           /\ Forall (fun g => Prerequisites.isExtensionFile g = false) before
           /\ Prerequisites.isExtensionFile f = true
           /\ p = demo_path_resolve [js "/opt/app/resources"; f])
  /\ (Forall (fun g => Prerequisites.isExtensionFile g = false)
        [js "app.asar"; js "speech2code.txt"; js "spoken-speech2code-1.0.0.vsix";
         js "speech2code-old.vsix"] ->
      Prerequisites.getExtensionPath false (js "/dev") (js "/opt/app/resources")
        demo_path_resolve demo_readdirSync
      = Prerequisites.Failed Prerequisites.ExtensionFileNotFound).
Proof.
  apply (getExtensionPath_first_match false (js "/dev") (js "/opt/app/resources")
           demo_path_resolve demo_readdirSync).
  reflexivity.
Defined.

Lemma installed_is_exact_line_demo :
  exists answer,
    fst (Prerequisites.checkIfVSCodeExtensionIsAlreadyInstalled (js "1.0.0") demo_spawnSync)
    = Prerequisites.Returned answer
    /\ (answer = true
        <-> Prerequisites.VSCODE_EXT_ID (js "1.0.0")
            ∈ split LF (js "ms-python.python@2023.1" ++ [LF]
                        ++ js "pedroaugusto.speech2code@0.9.0" ++ [LF])).
Proof.
  apply (installed_is_exact_line (js "1.0.0") demo_spawnSync); vm_compute; reflexivity.
Defined.

Lemma check_returns_demo :
  (fst (Prerequisites.checkIfVSCodeExtensionIsAlreadyInstalled (js "1.0.0") demo_spawnSync)
   = Prerequisites.Returned true
   /\ snd demo_check
      = [Prerequisites.Spawn (js "code") [js "--version"];
         Prerequisites.Spawn (js "code") [js "--list-extensions"; js "--show-versions"]])
  \/ (exists p text,
        fst (Prerequisites.checkIfVSCodeExtensionIsAlreadyInstalled (js "1.0.0")
               demo_spawnSync) = Prerequisites.Returned false
        /\ Prerequisites.getExtensionPath false (js "/dev") (js "/opt/app/resources")
             demo_path_resolve demo_readdirSync = Prerequisites.Returned p
        /\ Prerequisites.error (demo_spawnSync (js "code") [js "--install-extension"; p])
           = false
        /\ Prerequisites.stderr (demo_spawnSync (js "code") [js "--install-extension"; p])
           = Some text
        /\ includes text (js "warning") = true
        /\ snd demo_check
           = [Prerequisites.Spawn (js "code") [js "--version"];
              Prerequisites.Spawn (js "code") [js "--list-extensions"; js "--show-versions"];
              Prerequisites.Spawn (js "code") [js "--install-extension"; p];
              Prerequisites.installingDialog]).
Proof.
  apply (check_returns (js "1.0.0") false (js "/dev") (js "/opt/app/resources")
           demo_path_resolve demo_readdirSync demo_spawnSync (snd demo_check)).
  vm_compute. reflexivity.
Defined.

Lemma moduleReadme_prefixes_again_demo :
  Forall2 (fun command command' =>
             cmd_name command' = cmd_name command
             /\ Forall2 (fun automata automata' =>
                           aut_relativeImagePath automata'
                           = cmd_name command ++ js "/" ++ cmd_name command ++ js "/"
                             ++ aut_relativeImagePath automata)
                  (cmd_automatas command) (cmd_automatas command'))
    (mod_commands demoModuleDone) (mod_commands (snd demoBuiltTwice)).
Proof.
  apply (moduleReadme_prefixes_again jsstring demo_dot_read demo_graphAttribute
           demoModuleDone demoWorld demoBuiltOnce
           (snd (demo_moduleReadme demoModuleDone demoWorld))
           demoBuiltTwice
           (snd (demo_moduleReadme (snd demoBuiltOnce)
                   (snd (demo_moduleReadme demoModuleDone demoWorld)))));
    evaluated.
Defined.

(** The image reference of the English automaton of [create] in the
    module README, after one call and after two. *)
Example moduleReadme_prefixes_again_paths :
  List.map aut_relativeImagePath
    (List.hd [] (List.map cmd_automatas (mod_commands (snd demoBuiltOnce))))
  = [js "create/phrase_en-US.png"; js "create/phrase_pt-BR.png"]
  /\ List.map aut_relativeImagePath
       (List.hd [] (List.map cmd_automatas (mod_commands (snd demoBuiltTwice))))
     = [js "create/create/phrase_en-US.png"; js "create/create/phrase_pt-BR.png"].
Proof. split; vm_compute; reflexivity. Qed.

(** On the machine of the example the extension is not listed in the
    version of the application, so the file is looked up, installed and
    the dialog shown. *)
Example check_demo_trace :
  demo_check
  = (Prerequisites.Returned tt,
     [Prerequisites.Spawn (js "code") [js "--version"];
      Prerequisites.Spawn (js "code") [js "--list-extensions"; js "--show-versions"];
      Prerequisites.Spawn (js "code")
        [js "--install-extension";
         js "/opt/app/resources/spoken-speech2code-1.0.0.vsix"];
      Prerequisites.installingDialog]).
Proof. vm_compute. reflexivity. Qed.

